(** * Blog server: the request handlers of the content store

    A shallow embedding of the Hono request handlers of the blog server
    (the routes on user profiles, posts, likes, categories and tags) over
    the key-value store, together with the properties of the handlers that
    the specification states.

    Conventions of the embedding:
    - a JSON value is a term of [json]; a JavaScript expression that may be
      [undefined] has type [option json], [None] being [undefined];
    - a string is a sequence of code units, one [ascii] per unit;
    - a number is an integer ([Z]): the doubles that are integers, on which
      the arithmetic of the handlers ([+ 1]) is exact below [2^53];
    - the bindings of an object are kept in the order of their insertion;
      nothing below depends on that order;
    - a JavaScript exception is [Throw]; every handler body runs inside
      [try { ... } catch], which turns it into the 500 response. *)

From Stdlib Require Import ZArith Ascii.
From stdpp Require Import base option list gmap strings fin_maps pretty sorting.

Local Open Scope Z_scope.
Set Warnings "-register-all".

(** ** JSON values *)

Inductive json : Type :=
| JNull
| JBool (b : bool)
| JNum (n : Z)
| JStr (s : string)
| JArr (items : list json)
| JObj (fields : list (string * json)).

(** [undefined] and friends. *)
Abbreviation jsval := (option json).
Abbreviation undefined := (@None json).

(** A computation that may throw. *)
Inductive result (A : Type) : Type :=
| Ok (a : A)
| Throw.
Arguments Ok {A} a.
Arguments Throw {A}.

Definition result_bind {A B} (r : result A) (k : A → result B) : result B :=
  match r with
  | Ok a => k a
  | Throw => Throw
  end.

Declare Scope result_scope.
Delimit Scope result_scope with result.
Notation "'let?' x := e 'in' k" := (result_bind e (fun x => k))
  (at level 10, x name, e at level 100, k at level 200) : result_scope.

(** ** JavaScript operators used by the handlers *)

Module JS.

(** [!!v]: the falsy values are [undefined], [null], [false], [0] and the
    empty string. *)
Definition truthy (v : jsval) : bool :=
  match v with
  | None | Some JNull => false
  | Some (JBool b) => b
  | Some (JNum n) => negb (n =? 0)
  | Some (JStr s) => negb (bool_decide (s = ""))
  | Some (JArr _) | Some (JObj _) => true
  end.

(** [a || b] where [b] is a value. *)
Definition or (a b : jsval) : jsval := if truthy a then a else b.

(** [v === "s"] against a string literal or string variable. *)
Definition eq_str (v : jsval) (s : string) : bool :=
  match v with
  | Some (JStr t) => bool_decide (t = s)
  | _ => false
  end.

(** [v === true]. *)
Definition eq_true (v : jsval) : bool :=
  match v with
  | Some (JBool true) => true
  | _ => false
  end.

(** The value of a property in a list of bindings. As in [JSON.parse], the
    last binding of a name is the one that counts; the objects that the
    handlers build bind every name once. *)
Fixpoint lookup (k : string) (fs : list (string * json)) : jsval :=
  match fs with
  | [] => None
  | (k', v) :: fs' =>
      match lookup k fs' with
      | Some x => Some x
      | None => if bool_decide (k' = k) then Some v else None
      end
  end.

(** Property assignment [o.k = v]: an existing name keeps its position, a
    new name is appended. *)
Definition set (k : string) (v : json) (fs : list (string * json))
  : list (string * json) :=
  if bool_decide (k ∈ fs.*1)
  then (λ kv, if bool_decide (kv.1 = k) then (k, v) else kv) <$> fs
  else fs ++ [(k, v)].

(** [v.k] for the property names the handlers read ([status], [likes],
    [authorId], ...): none of them is an index, [length] or inherited, so
    they are [undefined] on arrays, strings, numbers and booleans. Reading
    a property of [null] throws a TypeError. *)
Definition member (v : json) (k : string) : result jsval :=
  match v with
  | JNull => Throw
  | JObj fs => Ok (lookup k fs)
  | _ => Ok None
  end.

(** [v?.k]: [undefined] when [v] is [undefined] or [null]. *)
Definition opt_member (v : jsval) (k : string) : jsval :=
  match v with
  | Some (JObj fs) => lookup k fs
  | _ => None
  end.

(** The own enumerable properties that [...v] copies: the fields of an
    object, the indices of an array or of a string, nothing for the other
    values. *)
Definition own_props (v : jsval) : list (string * json) :=
  match v with
  | Some (JObj fs) => fs
  | Some (JArr l) => imap (λ i x, (pretty i, x)) l
  | Some (JStr s) =>
      imap (λ i c, (pretty i, JStr (String c ""))) (String.list_ascii_of_string s)
  | _ => []
  end.

(** The own property [k] of [v], as [...v] sees it. *)
Definition own (v : jsval) (k : string) : jsval := lookup k (own_props v).

(** [{ ...target, ...v }] *)
Definition spread (target : list (string * json)) (v : jsval)
  : list (string * json) :=
  foldl (λ acc kv, set kv.1 kv.2 acc) target (own_props v).

(** An object literal [{ k1: e1, ..., kn: en }] as it is serialised:
    [kv.set] and [c.json] both go through JSON, which leaves out the
    properties whose value is [undefined]. *)
Definition literal (fs : list (string * jsval)) : list (string * json) :=
  omap (λ kv, pair kv.1 <$> kv.2) fs.

(** [String(v)], as [+], [new Date] and the default [sort] use it. A number
    prints in decimal, as JavaScript prints the integers below [10^21]. The
    conversion of an object calls its [toString] method. A value that comes
    out of JSON inherits one (["[object Object]"] for an object, the joined
    elements for an array), unless the object has a property named
    [toString] of its own: no JSON value is callable, and the conversion
    then throws a TypeError (the inherited [valueOf] returns the object
    itself and does not help). An array converts its elements in turn,
    [null] to the empty string. *)
Fixpoint toString (v : json) : result string :=
  match v with
  | JNull => Ok "null"
  | JBool true => Ok "true"
  | JBool false => Ok "false"
  | JNum n => Ok (pretty n)
  | JStr s => Ok s
  | JArr l =>
      (let? parts :=
         (fix join (l : list json) : result (list string) :=
            match l with
            | [] => Ok []
            | x :: l' =>
                let? s := match x with JNull => Ok "" | _ => toString x end in
                let? r := join l' in
                Ok (s :: r)
            end) l in
       Ok (String.concat "," parts))%result
  | JObj fs =>
      match lookup "toString" fs with
      | Some _ => Throw
      | None => Ok "[object Object]"
      end
  end.

(** The conversion of an operand to a primitive: an object or an array
    becomes its string conversion, which may throw; the other values are
    primitives already. *)
Definition to_primitive (v : jsval) : result jsval :=
  match v with
  | Some (JArr _ as x) | Some (JObj _ as x) =>
      (let? s := toString x in Ok (Some (JStr s)))%result
  | _ => Ok v
  end.

(** [v + 1] *)
Definition plus_one (v : json) : result json :=
  match v with
  | JNull => Ok (JNum 1)
  | JBool b => Ok (JNum (if b then 2 else 1))
  | JNum n => Ok (JNum (n + 1))
  | JStr _ | JArr _ | JObj _ =>
      (let? s := toString v in Ok (JStr (s +:+ "1")))%result
  end.

(** [s.includes(t)] on strings. *)
Fixpoint str_includes (s t : string) : bool :=
  String.prefix t s ||
  match s with
  | EmptyString => false
  | String _ s' => str_includes s' t
  end.

(** [x === y] for a string [y]; [Array.prototype.includes] compares with
    SameValueZero, which on a string argument is this. *)
Definition arr_includes (l : list json) (t : string) : bool :=
  existsb (λ x, eq_str (Some x) t) l.

(** [v?.includes(t)]: [undefined] on [undefined]/[null], array membership
    on an array, substring test on a string; the other values have no
    [includes] method and the call throws. *)
Definition opt_includes (v : jsval) (t : string) : result jsval :=
  match v with
  | None | Some JNull => Ok None
  | Some (JArr l) => Ok (Some (JBool (arr_includes l t)))
  | Some (JStr s) => Ok (Some (JBool (str_includes s t)))
  | Some _ => Throw
  end.

(** [v?.substring(0, n)] *)
Definition opt_substring (v : jsval) (n : nat) : result jsval :=
  match v with
  | None | Some JNull => Ok None
  | Some (JStr s) => Ok (Some (JStr (String.substring 0 n s)))
  | Some _ => Throw
  end.

(** [s.split(sep)] for a one-character separator. *)
Fixpoint split (sep : ascii) (s : string) : list string :=
  match s with
  | EmptyString => [""]
  | String c s' =>
      if bool_decide (c = sep) then "" :: split sep s'
      else match split sep s' with
           | [] => [String c ""]
           | w :: ws => String c w :: ws
           end
  end.


(** [a || d] where the right operand [d] is a defined value. *)
Definition or_val (a : jsval) (d : json) : json :=
  match a with
  | Some v => if truthy a then v else d
  | None => d
  end.

(** [v.k = x] in strict mode (ES modules): an object gets the property, an
    array gets a non-index property that JSON serialisation leaves out,
    [null] and the primitives throw a TypeError. *)
Definition assign_member (v : json) (k : string) (x : json) : result json :=
  match v with
  | JObj fs => Ok (JObj (set k x fs))
  | JArr l => Ok (JArr l)
  | _ => Throw
  end.

(** SameValueZero, the equality of [Set]: by value on the primitives, by
    identity on objects and arrays; two values deserialised from the store
    are never the same object. *)
Definition same_value_zero (x y : json) : bool :=
  match x, y with
  | JNull, JNull => true
  | JBool a, JBool b => bool_decide (a = b)
  | JNum a, JNum b => a =? b
  | JStr a, JStr b => bool_decide (a = b)
  | _, _ => false
  end.

(** [set.add(x)] on a [Set] kept in insertion order. *)
Definition set_add (st : list json) (x : json) : list json :=
  if existsb (same_value_zero x) st then st else st ++ [x].

Section callbacks.
Context {A : Type}.

(** [l.filter(f)] for a callback that may throw. *)
Fixpoint filter (f : A → result jsval) (l : list A) : result (list A) :=
  match l with
  | [] => Ok []
  | x :: l' =>
      let? b := f x in
      let? r := filter f l' in
      Ok (if truthy b then x :: r else r)
  end%result.

(** What [filter] makes of a callback that does not throw: the element is
    kept when the result is truthy. *)
Definition passes (f : A → result jsval) (x : A) : bool :=
  match f x with
  | Ok b => truthy b
  | Throw => false
  end.

(** The sign test of [sort]: a comparator result [> 0] puts the second
    argument first; [NaN] ([None]) counts as [0]. *)
Definition positive (c : option Z) : bool :=
  match c with
  | Some z => 0 <? z
  | None => false
  end.

Fixpoint insert (cmp : A → A → result (option Z)) (x : A) (l : list A)
  : result (list A) :=
  match l with
  | [] => Ok [x]
  | y :: l' =>
      let? c := cmp x y in
      if positive c then let? r := insert cmp x l' in Ok (y :: r)
      else Ok (x :: y :: l')
  end%result.

(** [l.sort(cmp)]: a stable sort (ES2019), here by insertion; the
    comparator may throw. *)
Fixpoint sort (cmp : A → A → result (option Z)) (l : list A)
  : result (list A) :=
  match l with
  | [] => Ok []
  | x :: l' => let? r := sort cmp l' in insert cmp x r
  end%result.
End callbacks.

(** [l.forEach(x => ...)] for a callback that updates an accumulator (a
    [Set] in the handlers) and may throw. *)
Fixpoint forEach {A S : Type} (f : S → A → result S) (acc : S) (l : list A)
  : result S :=
  match l with
  | [] => Ok acc
  | x :: l' => let? acc' := f acc x in forEach f acc' l'
  end%result.

(** The comparator of [l.sort()] without argument: code-unit order of the
    string conversions of the two elements, either of which may throw. *)
Definition default_compare (x y : json) : result (option Z) :=
  (let? sx := toString x in
   let? sy := toString y in
   Ok (Some (match String.compare sx sy with
             | Lt => -1
             | Eq => 0
             | Gt => 1
             end)))%result.

(** [l.find(f)]: the first element on which the callback is truthy, or
    [undefined]; the callback may throw. *)
Fixpoint find {A : Type} (f : A → result jsval) (l : list A)
  : result (option A) :=
  match l with
  | [] => Ok None
  | x :: l' => let? b := f x in if truthy b then Ok (Some x) else find f l'
  end%result.

(** [a === b] on values that come out of JSON: by value on [undefined],
    [null], booleans, numbers and strings; two objects or arrays that were
    deserialised separately are never the same. *)
Definition strict_eq (a b : jsval) : bool :=
  match a, b with
  | None, None => true
  | Some x, Some y => same_value_zero x y
  | _, _ => false
  end.

(** The bindings of a list without those of the name [k]. *)
Definition remove (k : string) (fs : list (string * json))
  : list (string * json) :=
  List.filter (λ kv, negb (bool_decide (kv.1 = k))) fs.

(** [v.k = x] where [x] may be [undefined], as the record is serialised
    afterwards: a property set to [undefined] is left out. *)
Definition assign_opt (v : json) (k : string) (x : jsval) : result json :=
  match x with
  | Some x' => assign_member v k x'
  | None =>
      match v with
      | JObj fs => Ok (JObj (remove k fs))
      | JArr l => Ok (JArr l)
      | _ => Throw
      end
  end.

(** [l.length] as a JSON number. *)
Definition length_of {A : Type} (l : list A) : json :=
  JNum (Z.of_nat (List.length l)).


End JS.

(** ** The key-value store *)

Module kv.

(** Modelled from the spec: [kv_store.tsx], the module behind [kv.get],
    [kv.set], [kv.del] and [kv.getByPrefix], is not among the sources. The
    specification describes it as a generic key-value namespace, "opaque
    string keys to opaque JSON-serializable values, supporting get, set,
    delete, and list all entries whose key starts with a given prefix". *)
Abbreviation store := (gmap string json).

(** Modelled from the spec: [kv.get(key)], the value under the key, or
    [undefined] when the store has none. *)
Definition get (key : string) (s : store) : jsval := s !! key.

(** Modelled from the spec: [kv.set(key, value)], which binds the key to
    the value, over the previous one if any. *)
Definition set (key : string) (v : json) (s : store) : store :=
  <[key := v]> s.

(** Modelled from the spec: [kv.del(key)]. *)
Definition del (key : string) (s : store) : store := delete key s.

(** Modelled from the spec: [kv.getByPrefix(prefix)], the values of all the
    entries whose key starts with the prefix, in the order of the store. *)
Definition getByPrefix (prefix : string) (s : store) : list json :=
  snd <$> base.filter (λ kv, String.prefix prefix kv.1 = true) (map_to_list s).

End kv.

(** ** Requests, responses and the collaborators *)

(** What [c.req] offers to the handlers. *)
Record request := {
  req_header : string → option string;   (* c.req.header(name) *)
  req_param : string → string;           (* c.req.param(name) *)
  req_query : string → option string;    (* c.req.query(name) *)
  req_json : result json;                (* await c.req.json() *)
}.

(** The user object of the identity provider, as far as the handlers read
    it: [user.id] and [user.email]. *)
Record authUser := {
  user_id : string;
  user_email : option string;
}.

(** What the handlers take from outside the repository: the identity
    provider and two built-ins whose result is not computed here. *)
Record runtime := {
  (* supabase.auth.getUser(token): the user, or None when the provider
     answers with an error or without a user *)
  auth_getUser : option string → option authUser;
  (* new Date(v).getTime(), None being NaN *)
  date_getTime : jsval → option Z;
  (* s.toLowerCase() *)
  str_toLowerCase : string → string;
}.

(** The readings of the clock and of the random generator during one
    request. *)
Record clock := {
  Date_now : N;                       (* Date.now() *)
  Date_toISOString : nat → string;    (* the k-th new Date().toISOString() *)
  Math_random_36 : string;            (* Math.random().toString(36) *)
}.

Inductive response : Type :=
| Json (body : json) (status : nat)   (* c.json(body, status) *)
| InternalError.                      (* c.json({ error: String(err) }, 500) *)

(** [{ error: msg }] and [{ message: msg }] *)
Definition error_body (msg : string) : json := JObj [("error", JStr msg)].
Definition message_body (msg : string) : json := JObj [("message", JStr msg)].

(** ** Handler bodies: store passing, early return and exceptions *)

Inductive step (A : Type) : Type :=
| Cont (a : A)              (* go on with the next statement *)
| Done (r : response)       (* return r *)
| Raised.                   (* an exception is on its way to the catch *)
Arguments Cont {A} a.
Arguments Done {A} r.
Arguments Raised {A}.

Definition handler (A : Type) : Type := kv.store → kv.store * step A.

Definition hret {A} (a : A) : handler A := λ s, (s, Cont a).

Definition hbind {A B} (m : handler A) (k : A → handler B) : handler B :=
  λ s, match m s with
       | (s', Cont a) => k a s'
       | (s', Done r) => (s', Done r)
       | (s', Raised) => (s', Raised)
       end.

Notation "x <- m ;; k" := (hbind m (λ x, k))
  (at level 100, m at next level, right associativity,
   format "'[v' x  <-  m  ;;  '/' k ']'").
Notation "m ;;; k" := (hbind m (λ _, k))
  (at level 100, right associativity, format "'[v' m  ;;;  '/' k ']'").

(** [return c.json(body, status)] *)
Definition respond {A} (body : json) (status : nat) : handler A :=
  λ s, (s, Done (Json body status)).

(** An expression that may throw. *)
Definition eval {A} (r : result A) : handler A :=
  λ s, match r with
       | Ok a => (s, Cont a)
       | Throw => (s, Raised)
       end.

(** [if (!v) return c.json(body, status)], after which [v] is a value. *)
Definition require (v : jsval) (body : json) (status : nat) : handler json :=
  match v with
  | Some x => if JS.truthy v then hret x else respond body status
  | None => respond body status
  end.

(** [if (cond) return c.json(body, status)] *)
Definition reject_if (cond : bool) (body : json) (status : nat) : handler unit :=
  if cond then respond body status else hret ().

Definition kv_get (key : string) : handler jsval := λ s, (s, Cont (kv.get key s)).
Definition kv_set (key : string) (v : json) : handler unit :=
  λ s, (kv.set key v s, Cont ()).
Definition kv_del (key : string) : handler unit := λ s, (kv.del key s, Cont ()).
Definition kv_getByPrefix (prefix : string) : handler (list json) :=
  λ s, (s, Cont (kv.getByPrefix prefix s)).

(** [try { body } catch (err) { return c.json({ error: String(err) }, 500) }]:
    the writes made before the exception stay. *)
Definition run (body : handler response) (s : kv.store) : kv.store * response :=
  match body s with
  | (s', Cont r) | (s', Done r) => (s', r)
  | (s', Raised) => (s', InternalError)
  end.

(** ** The handlers *)

Section handlers.
Context (rt : runtime).

(** [verifyAuth(authHeader)] *)
Definition verifyAuth (authHeader : option string) : option authUser :=
  match authHeader with
  | None => None
  | Some h =>
      if bool_decide (h = "") then None
      else
        let accessToken := JS.split " " h !! 1%nat in
        auth_getUser rt accessToken
  end.

(** [if (!user) return c.json({ error: msg }, 401)] *)
Definition require_user (user : option authUser) (msg : string)
  : handler authUser :=
  match user with
  | Some u => hret u
  | None => respond (error_body msg) 401
  end.

(** *** [PUT /user/:id] *)

(** [{ ...currentData, ...updates, id: userId }] *)
Definition updatedUser (userId : string) (currentData updates : json) : json :=
  JObj (JS.set "id" (JStr userId)
          (JS.spread (JS.spread [] (Some currentData)) (Some updates))).

Definition updateUser (req : request) : handler response :=
  user <- require_user (verifyAuth (req_header req "Authorization"))
            "Unauthorized";;
  let userId := req_param req "id" in
  reject_if (negb (bool_decide (user_id user = userId)))
    (error_body "Forbidden") 403;;;
  updates <- eval (req_json req);;
  currentData <- kv_get ("users:" +:+ userId);;
  currentData <- require currentData (error_body "User not found") 404;;
  let updatedUser := updatedUser userId currentData updates in
  kv_set ("users:" +:+ userId) updatedUser;;;
  hret (Json updatedUser 200).

(** *** [GET /posts] *)

(** [p => p.status === 'published'] *)
Definition is_published (p : json) : result jsval :=
  (let? st := JS.member p "status" in
   Ok (Some (JBool (JS.eq_str st "published"))))%result.

(** [p => p.categories?.includes(category)], and the same on [tags] *)
Definition field_includes (field value : string) (p : json) : result jsval :=
  (let? v := JS.member p field in JS.opt_includes v value)%result.

(** [v?.toLowerCase().includes(searchLower)] *)
Definition lower_includes (v : jsval) (searchLower : string) : result jsval :=
  match v with
  | None | Some JNull => Ok None
  | Some (JStr s) =>
      Ok (Some (JBool (JS.str_includes (str_toLowerCase rt s) searchLower)))
  | Some _ => Throw
  end.

(** The callback of the search filter; [||] evaluates its right operand
    only when the left one is falsy. *)
Definition matches_search (searchLower : string) (p : json) : result jsval :=
  (let? title := JS.member p "title" in
   let? a := lower_includes title searchLower in
   if JS.truthy a then Ok a
   else
     let? content := JS.member p "content" in
     let? b := lower_includes content searchLower in
     if JS.truthy b then Ok b
     else
       let? excerpt := JS.member p "excerpt" in
       lower_includes excerpt searchLower)%result.

(** [p => p.featured === true] *)
Definition is_featured (p : json) : result jsval :=
  (let? f := JS.member p "featured" in
   Ok (Some (JBool (JS.eq_true f))))%result.

(** [new Date(v).getTime()]: the constructor first converts an object or
    array argument to a primitive, which may throw; the time value of the
    date it builds is the runtime's. *)
Definition date_time (v : jsval) : result (option Z) :=
  (let? _ := JS.to_primitive v in Ok (date_getTime rt v))%result.

(** [(a, b) => new Date(b.createdAt).getTime() - new Date(a.createdAt).getTime()] *)
Definition newest_first (a b : json) : result (option Z) :=
  (let? cb := JS.member b "createdAt" in
   let? tb := date_time cb in
   let? ca := JS.member a "createdAt" in
   let? ta := date_time ca in
   Ok (match tb, ta with
       | Some tb, Some ta => Some (tb - ta)
       | _, _ => None
       end))%result.

(** [if (q) posts = posts.filter(f q)]: a query parameter that is absent
    or empty applies no filter. *)
Definition filter_if_given (q : option string)
    (f : string → json → result jsval) (posts : list json)
  : result (list json) :=
  match q with
  | Some v => if bool_decide (v = "") then Ok posts else JS.filter (f v) posts
  | None => Ok posts
  end.

(** The filters that run before the one on [featured]: visibility,
    category, tag and search. *)
Definition earlier_filters (req : request) (posts : list json)
  : result (list json) :=
  (let user := verifyAuth (req_header req "Authorization") in
   let? posts :=
     if negb (bool_decide (is_Some user)) then JS.filter is_published posts
     else Ok posts in
   let? posts :=
     filter_if_given (req_query req "category")
       (field_includes "categories") posts in
   let? posts :=
     filter_if_given (req_query req "tag") (field_includes "tags") posts in
   filter_if_given (req_query req "search")
     (λ search, matches_search (str_toLowerCase rt search)) posts)%result.

(** The filters that the query parameters [category], [tag] and [search]
    switch on, in the order of the handler; they come after the filter on
    visibility. *)
Definition query_filters (req : request) (posts : list json)
  : result (list json) :=
  (let? posts :=
     filter_if_given (req_query req "category")
       (field_includes "categories") posts in
   let? posts :=
     filter_if_given (req_query req "tag") (field_includes "tags") posts in
   filter_if_given (req_query req "search")
     (λ search, matches_search (str_toLowerCase rt search)) posts)%result.

(** [if (featured === 'true') posts = posts.filter(p => p.featured === true)] *)
Definition featured_filter (req : request) (posts : list json)
  : result (list json) :=
  if bool_decide (req_query req "featured" = Some "true")
  then JS.filter is_featured posts
  else Ok posts.

Definition listPosts (req : request) : handler response :=
  posts <- kv_getByPrefix "posts:";;
  posts <- eval (earlier_filters req posts);;
  posts <- eval (featured_filter req posts);;
  posts <- eval (JS.sort newest_first posts);;
  hret (Json (JArr posts) 200).

(** *** [GET /posts/:id] *)
Definition getPost (req : request) : handler response :=
  let postId := req_param req "id" in
  post <- kv_get ("posts:" +:+ postId);;
  post <- require post (error_body "Post not found") 404;;
  hret (Json post 200).

(** *** [POST /posts] *)

(** The id [`post_${Date.now()}_${Math.random().toString(36).substr(2, 9)}`] *)
Definition new_post_id (clk : clock) : string :=
  "post_" +:+ pretty (Date_now clk) +:+ "_"
    +:+ String.substring 2 9 (Math_random_36 clk).

(** The object literal [newPost]. *)
Definition newPost (clk : clock) (user : authUser) (userData : jsval)
    (postData : json) : result json :=
  (let? title := JS.member postData "title" in
   let? content := JS.member postData "content" in
   let? excerpt := JS.member postData "excerpt" in
   let? excerpt :=
     if JS.truthy excerpt then Ok excerpt
     else
       let? content := JS.member postData "content" in
       JS.opt_substring content 200 in
   let? image := JS.member postData "image" in
   let? tags := JS.member postData "tags" in
   let? categories := JS.member postData "categories" in
   let? status := JS.member postData "status" in
   let? featured := JS.member postData "featured" in
   Ok (JObj (JS.literal [
     ("id", Some (JStr (new_post_id clk)));
     ("title", title);
     ("content", content);
     ("excerpt", excerpt);
     ("authorId", Some (JStr (user_id user)));
     ("authorName",
       JS.or (JS.opt_member userData "username") (JStr <$> user_email user));
     ("image", Some (JS.or_val image (JStr "")));
     ("tags", Some (JS.or_val tags (JArr [])));
     ("categories", Some (JS.or_val categories (JArr [])));
     ("status", Some (JS.or_val status (JStr "published")));
     ("featured", Some (JS.or_val featured (JBool false)));
     ("likes", Some (JNum 0));
     ("createdAt", Some (JStr (Date_toISOString clk 0)));
     ("updatedAt", Some (JStr (Date_toISOString clk 1)))
   ])))%result.

Definition createPost (clk : clock) (req : request) : handler response :=
  user <- require_user (verifyAuth (req_header req "Authorization"))
            "Unauthorized - please log in to create posts";;
  userData <- kv_get ("users:" +:+ user_id user);;
  postData <- eval (req_json req);;
  let postId := new_post_id clk in
  newPost <- eval (newPost clk user userData postData);;
  kv_set ("posts:" +:+ postId) newPost;;;
  hret (Json newPost 200).

(** *** [PUT /posts/:id] *)

(** [currentPost.authorId !== user.id && userData?.role !== 'admin'] *)
Definition not_author_nor_admin (owner : jsval) (user : authUser)
    (userData : jsval) : bool :=
  negb (JS.eq_str owner (user_id user))
  && negb (JS.eq_str (JS.opt_member userData "role") "admin").

(** [{ ...currentPost, ...updates, id: postId, updatedAt: ... }] *)
Definition updatedPost (clk : clock) (postId : string)
    (currentPost updates : json) : json :=
  JObj (JS.set "updatedAt" (JStr (Date_toISOString clk 0))
          (JS.set "id" (JStr postId)
             (JS.spread (JS.spread [] (Some currentPost)) (Some updates)))).

Definition updatePost (clk : clock) (req : request) : handler response :=
  user <- require_user (verifyAuth (req_header req "Authorization"))
            "Unauthorized";;
  let postId := req_param req "id" in
  currentPost <- kv_get ("posts:" +:+ postId);;
  currentPost <- require currentPost (error_body "Post not found") 404;;
  userData <- kv_get ("users:" +:+ user_id user);;
  owner <- eval (JS.member currentPost "authorId");;
  reject_if (not_author_nor_admin owner user userData)
    (error_body "Forbidden") 403;;;
  updates <- eval (req_json req);;
  let updatedPost := updatedPost clk postId currentPost updates in
  kv_set ("posts:" +:+ postId) updatedPost;;;
  hret (Json updatedPost 200).

(** *** [DELETE /posts/:id] *)
Definition deletePost (req : request) : handler response :=
  user <- require_user (verifyAuth (req_header req "Authorization"))
            "Unauthorized";;
  let postId := req_param req "id" in
  post <- kv_get ("posts:" +:+ postId);;
  post <- require post (error_body "Post not found") 404;;
  userData <- kv_get ("users:" +:+ user_id user);;
  owner <- eval (JS.member post "authorId");;
  reject_if (not_author_nor_admin owner user userData)
    (error_body "Forbidden") 403;;;
  kv_del ("posts:" +:+ postId);;;
  hret (Json (message_body "Post deleted successfully") 200).

(** *** [POST /posts/:id/like] and [POST /comments/:id/like] *)

(** [(record.likes || 0) + 1] *)
Definition next_likes (record : json) : result json :=
  (let? likes := JS.member record "likes" in
   JS.plus_one (JS.or_val likes (JNum 0)))%result.

Definition likePost (req : request) : handler response :=
  let postId := req_param req "id" in
  post <- kv_get ("posts:" +:+ postId);;
  post <- require post (error_body "Post not found") 404;;
  likes <- eval (next_likes post);;
  post <- eval (JS.assign_member post "likes" likes);;
  kv_set ("posts:" +:+ postId) post;;;
  hret (Json (JObj [("likes", likes)]) 200).

Definition likeComment (req : request) : handler response :=
  let commentId := req_param req "id" in
  comment <- kv_get ("comments:" +:+ commentId);;
  comment <- require comment (error_body "Comment not found") 404;;
  likes <- eval (next_likes comment);;
  comment <- eval (JS.assign_member comment "likes" likes);;
  kv_set ("comments:" +:+ commentId) comment;;;
  hret (Json (JObj [("likes", likes)]) 200).

(** *** [GET /categories] and [GET /tags] *)

(** [if (post.f) post.f.forEach(x => set.add(x))]: a truthy value that is
    not an array has no [forEach], and the call throws. *)
Definition add_field (field : string) (set : list json) (post : json)
  : result (list json) :=
  (let? v := JS.member post field in
   if JS.truthy v then
     match v with
     | Some (JArr l) => Ok (foldl JS.set_add set l)
     | _ => Throw
     end
   else Ok set)%result.

Definition listCategories : handler response :=
  posts <- kv_getByPrefix "posts:";;
  categoriesSet <- eval (JS.forEach (add_field "categories") [] posts);;
  sorted <- eval (JS.sort JS.default_compare categoriesSet);;
  hret (Json (JArr sorted) 200).

Definition listTags : handler response :=
  posts <- kv_getByPrefix "posts:";;
  tagsSet <- eval (JS.forEach (add_field "tags") [] posts);;
  sorted <- eval (JS.sort JS.default_compare tagsSet);;
  hret (Json (JArr sorted) 200).

End handlers.

(** ** The other handlers of the server *)

(** What [supabase.auth.admin.createUser] answers: an error with its
    message, or the id of the new user. *)
Inductive createUser_result : Type :=
| CreateError (message : jsval)
| Created (userId : string).

Section account_handlers.
(* supabase.auth.admin.createUser({ email, password, user_metadata:
   { username }, email_confirm: true }) *)
Context (createUser : jsval → jsval → jsval → createUser_result).

(** The user record that signup stores. *)
Definition newUser (clk : clock) (userId : string) (email username avatar : jsval)
  : json :=
  JObj (JS.literal [
    ("id", Some (JStr userId));
    ("email", email);
    ("username", username);
    ("role", Some (JStr "user"));
    ("avatar", Some (JS.or_val avatar (JStr "")));
    ("bio", Some (JStr ""));
    ("createdAt", Some (JStr (Date_toISOString clk 0)))
  ]).

(** *** [POST /signup] *)
Definition signup (clk : clock) (req : request) : handler response :=
  body <- eval (req_json req);;
  email <- eval (JS.member body "email");;
  password <- eval (JS.member body "password");;
  username <- eval (JS.member body "username");;
  avatar <- eval (JS.member body "avatar");;
  reject_if (negb (JS.truthy email) || negb (JS.truthy password)
             || negb (JS.truthy username))
    (error_body "Email, password, and username are required") 400;;;
  match createUser email password username with
  | CreateError message =>
      respond (JObj (JS.literal [("error", message)])) 400
  | Created userId =>
      kv_set ("users:" +:+ userId) (newUser clk userId email username avatar);;;
      hret (Json (JObj [("message", JStr "User created successfully");
                        ("userId", JStr userId)]) 200)
  end.

End account_handlers.

(** *** [GET /user/:id] *)
Definition getUser (req : request) : handler response :=
  let userId := req_param req "id" in
  userData <- kv_get ("users:" +:+ userId);;
  userData <- require userData (error_body "User not found") 404;;
  hret (Json userData 200).

(** [u => u.email === email] *)
Definition has_email (email : string) (u : json) : result jsval :=
  (let? e := JS.member u "email" in
   Ok (Some (JBool (JS.eq_str e email))))%result.

(** *** [GET /user-by-email/:email] *)
Definition getUserByEmail (req : request) : handler response :=
  let email := req_param req "email" in
  users <- kv_getByPrefix "users:";;
  user <- eval (JS.find (has_email email) users);;
  user <- require user (error_body "User not found") 404;;
  hret (Json user 200).

Section more_handlers.
Context (rt : runtime).

(** [c => c.postId === postId] *)
Definition on_post (postId : string) (c : json) : result jsval :=
  (let? p := JS.member c "postId" in
   Ok (Some (JBool (JS.eq_str p postId))))%result.

(** [(a, b) => new Date(a.createdAt).getTime() - new Date(b.createdAt).getTime()] *)
Definition oldest_first (a b : json) : result (option Z) :=
  (let? ca := JS.member a "createdAt" in
   let? ta := date_time rt ca in
   let? cb := JS.member b "createdAt" in
   let? tb := date_time rt cb in
   Ok (match ta, tb with
       | Some ta, Some tb => Some (ta - tb)
       | _, _ => None
       end))%result.

(** *** [GET /comments/:postId] *)
Definition listComments (req : request) : handler response :=
  let postId := req_param req "postId" in
  allComments <- kv_getByPrefix "comments:";;
  comments <- eval (JS.filter (on_post postId) allComments);;
  comments <- eval (JS.sort oldest_first comments);;
  hret (Json (JArr comments) 200).

(** The id [`comment_${Date.now()}_${Math.random().toString(36).substr(2, 9)}`] *)
Definition new_comment_id (clk : clock) : string :=
  "comment_" +:+ pretty (Date_now clk) +:+ "_"
    +:+ String.substring 2 9 (Math_random_36 clk).

(** The object literal [newComment]. *)
Definition newComment (clk : clock) (user : authUser) (userData : jsval)
    (postId content parentId : jsval) : json :=
  JObj (JS.literal [
    ("id", Some (JStr (new_comment_id clk)));
    ("postId", postId);
    ("userId", Some (JStr (user_id user)));
    ("username",
      JS.or (JS.opt_member userData "username") (JStr <$> user_email user));
    ("avatar", Some (JS.or_val (JS.opt_member userData "avatar") (JStr "")));
    ("content", content);
    ("parentId", Some (JS.or_val parentId JNull));
    ("likes", Some (JNum 0));
    ("createdAt", Some (JStr (Date_toISOString clk 0)))
  ]).

(** *** [POST /comments] *)
Definition createComment (clk : clock) (req : request) : handler response :=
  user <- require_user (verifyAuth rt (req_header req "Authorization"))
            "Unauthorized - please log in to comment";;
  userData <- kv_get ("users:" +:+ user_id user);;
  body <- eval (req_json req);;
  postId <- eval (JS.member body "postId");;
  content <- eval (JS.member body "content");;
  parentId <- eval (JS.member body "parentId");;
  reject_if (negb (JS.truthy postId) || negb (JS.truthy content))
    (error_body "Post ID and content are required") 400;;;
  let commentId := new_comment_id clk in
  let newComment := newComment clk user userData postId content parentId in
  kv_set ("comments:" +:+ commentId) newComment;;;
  hret (Json newComment 200).

(** *** [DELETE /comments/:id] *)
Definition deleteComment (req : request) : handler response :=
  user <- require_user (verifyAuth rt (req_header req "Authorization"))
            "Unauthorized";;
  let commentId := req_param req "id" in
  comment <- kv_get ("comments:" +:+ commentId);;
  comment <- require comment (error_body "Comment not found") 404;;
  userData <- kv_get ("users:" +:+ user_id user);;
  owner <- eval (JS.member comment "userId");;
  reject_if (not_author_nor_admin owner user userData)
    (error_body "Forbidden") 403;;;
  kv_del ("comments:" +:+ commentId);;;
  hret (Json (message_body "Comment deleted successfully") 200).

(** The opening of every admin route: the caller has an identity, or 401;
    the caller's own user record has the role [admin], or 403. *)
Definition require_admin (req : request) : handler unit :=
  user <- require_user (verifyAuth rt (req_header req "Authorization"))
            "Unauthorized";;
  userData <- kv_get ("users:" +:+ user_id user);;
  reject_if (negb (JS.eq_str (JS.opt_member userData "role") "admin"))
    (error_body "Forbidden - admin access only") 403.

(** [p => p.status === 'published'], and the same with ['draft'] *)
Definition has_status (status : string) (p : json) : result jsval :=
  (let? st := JS.member p "status" in
   Ok (Some (JBool (JS.eq_str st status))))%result.

(** *** [GET /admin/stats] *)
Definition adminStats (req : request) : handler response :=
  require_admin req;;;
  posts <- kv_getByPrefix "posts:";;
  users <- kv_getByPrefix "users:";;
  comments <- kv_getByPrefix "comments:";;
  published <- eval (JS.filter (has_status "published") posts);;
  drafts <- eval (JS.filter (has_status "draft") posts);;
  hret (Json (JObj [
    ("totalPosts", JS.length_of posts);
    ("totalUsers", JS.length_of users);
    ("totalComments", JS.length_of comments);
    ("publishedPosts", JS.length_of published);
    ("draftPosts", JS.length_of drafts)
  ]) 200).

(** *** [GET /admin/users] *)
Definition adminUsers (req : request) : handler response :=
  require_admin req;;;
  users <- kv_getByPrefix "users:";;
  hret (Json (JArr users) 200).

(** *** [PUT /admin/users/:id/role] *)
Definition adminSetRole (req : request) : handler response :=
  require_admin req;;;
  let targetUserId := req_param req "id" in
  body <- eval (req_json req);;
  role <- eval (JS.member body "role");;
  targetUser <- kv_get ("users:" +:+ targetUserId);;
  targetUser <- require targetUser (error_body "User not found") 404;;
  targetUser <- eval (JS.assign_opt targetUser "role" role);;
  kv_set ("users:" +:+ targetUserId) targetUser;;;
  hret (Json targetUser 200).

(** *** [GET /admin/all-comments] *)
Definition adminAllComments (req : request) : handler response :=
  require_admin req;;;
  comments <- kv_getByPrefix "comments:";;
  hret (Json (JArr comments) 200).

End more_handlers.

(** ** The front end, where it prepares a request or mirrors a check *)

Module Client.

(** [apiCall] of [utils/api.ts]: the [Authorization] header, from the token
    that [localStorage.getItem('accessToken')] returns, a string or [null]:
    [token ? `Bearer ${token}` : `Bearer ${publicAnonKey}`]. *)
Definition authorization (publicAnonKey : string) (token : option string)
  : string :=
  match token with
  | Some t =>
      if bool_decide (t = "") then "Bearer " +:+ publicAnonKey
      else "Bearer " +:+ t
  | None => "Bearer " +:+ publicAnonKey
  end.

(** The post page, [canEdit]:
    [user && post && (user.id === post.authorId || user.role === 'admin')],
    as the condition that shows the edit and delete buttons. *)
Definition canEdit (user post : jsval) : bool :=
  JS.truthy user && JS.truthy post
  && (JS.strict_eq (JS.opt_member user "id") (JS.opt_member post "authorId")
      || JS.eq_str (JS.opt_member user "role") "admin").

(** The profile page, [loadUserPosts]:
    [posts.filter(p => p.authorName === user.username)]. *)
Definition myPosts (user : json) (posts : list json) : result (list json) :=
  JS.filter (λ p,
    let? name := JS.member p "authorName" in
    let? username := JS.member user "username" in
    Ok (Some (JBool (JS.strict_eq name username))))%result posts.

(** The comment section: [comments.filter(c => !c.parentId)] and
    [commentId => comments.filter(c => c.parentId === commentId)]. *)
Definition topLevelComments (comments : list json) : result (list json) :=
  JS.filter (λ c,
    let? parent := JS.member c "parentId" in
    Ok (Some (JBool (negb (JS.truthy parent)))))%result comments.

Definition getReplies (comments : list json) (commentId : string)
  : result (list json) :=
  JS.filter (λ c,
    let? parent := JS.member c "parentId" in
    Ok (Some (JBool (JS.eq_str parent commentId))))%result comments.

End Client.

(** The time of creation of a record, as the sorts read it. *)
Definition created_time (rt : runtime) (record : json) : option Z :=
  date_getTime rt (JS.opt_member (Some record) "createdAt").

(** [a] was created at the time of [b] or later, both times being valid. *)
Definition not_older (rt : runtime) (a b : json) : Prop :=
  ∃ ta tb, created_time rt a = Some ta ∧ created_time rt b = Some tb ∧ tb ≤ ta.

(** [String(v)] does not throw. *)
Definition converts (v : json) : bool :=
  match JS.toString v with
  | Ok _ => true
  | Throw => false
  end.

(** [new Date(record.createdAt)] does not throw: the [createdAt] of the
    record is not an object or array whose string conversion throws. *)
Definition date_converts (record : json) : bool :=
  match JS.to_primitive (JS.opt_member (Some record) "createdAt") with
  | Ok _ => true
  | Throw => false
  end.


(** Whether a post passes an optional filter of the listing: a parameter
    that is absent or empty lets every post pass. *)
Definition passes_if_given (q : option string)
    (f : string → json → result jsval) (p : json) : bool :=
  match q with
  | Some v => bool_decide (v = "") || JS.passes (f v) p
  | None => true
  end.

(** Whether the listing shows a post to a caller: every post to a caller
    with an identity, the published ones to the others. *)
Definition visible_to (user : option authUser) (p : json) : bool :=
  bool_decide (is_Some user) || JS.passes is_published p.

(** ** Who may modify a record *)

(** The record under [key] exists for the handlers: [kv.get] returns a value
    that passes [if (!record) return 404]. *)
Definition exists_at (s : kv.store) (key : string) (record : json) : Prop :=
  s !! key = Some record ∧ JS.truthy (Some record) = true.

(** The user is the author of the record ([authorId] on a post). *)
Definition is_author (user : authUser) (record : json) : Prop :=
  JS.opt_member (Some record) "authorId" = Some (JStr (user_id user)).

(** The user record of the caller in the store has the role [admin]. *)
Definition is_admin (s : kv.store) (user : authUser) : Prop :=
  JS.opt_member (s !! ("users:" +:+ user_id user)) "role" = Some (JStr "admin").

(** The two values of the [status] enumeration. *)
Definition status_enumerated (status : jsval) : Prop :=
  status = Some (JStr "draft") ∨ status = Some (JStr "published").

(** The property [field] of a post is one that the categories and tags
    listings can walk through: absent or falsy, or an array. *)
Definition lists_field (field : string) (post : json) : bool :=
  match JS.member post field with
  | Ok v =>
      if JS.truthy v then
        match v with
        | Some (JArr _) => true
        | _ => false
        end
      else true
  | Throw => false
  end.

(** The elements of the array property [field] of a post all convert to a
    string, as the default [sort] of the listings needs them to. *)
Definition field_converts (field : string) (post : json) : bool :=
  match JS.member post field with
  | Ok (Some (JArr l)) => forallb converts l
  | _ => true
  end.

(** [n] requests in a row, each on the store the previous one left. *)
Fixpoint repeat_request (n : nat) (h : kv.store → kv.store * response)
    (s : kv.store) : kv.store :=
  match n with
  | O => s
  | S n' => repeat_request n' h (h s).1
  end.

(** ** The shape of a post id *)

Definition is_digit (c : ascii) : bool :=
  let n := nat_of_ascii c in (48 <=? n)%nat && (n <=? 57)%nat.

Definition is_lower (c : ascii) : bool :=
  let n := nat_of_ascii c in (97 <=? n)%nat && (n <=? 122)%nat.

Definition is_upper (c : ascii) : bool :=
  let n := nat_of_ascii c in (65 <=? n)%nat && (n <=? 90)%nat.

Definition is_alnum (c : ascii) : bool := is_digit c || is_lower c || is_upper c.

(** The digits of base 36, as [toString(36)] prints them. *)
Definition is_base36 (c : ascii) : bool := is_digit c || is_lower c.

Fixpoint all_chars (p : ascii → bool) (s : string) : bool :=
  match s with
  | EmptyString => true
  | String c s' => p c && all_chars p s'
  end.

(** What is left of [s] after its longest prefix of characters in [p]. *)
Fixpoint skip_while (p : ascii → bool) (s : string) : string :=
  match s with
  | EmptyString => EmptyString
  | String c s' => if p c then skip_while p s' else s
  end.

(** The pattern [post_<digits>_<alnum>]: the prefix [post_], one digit or
    more, an underscore, then one alphanumeric character or more up to the
    end. *)
Definition is_post_id (id : string) : bool :=
  match id with
  | String "p" (String "o" (String "s" (String "t" (String "_" rest)))) =>
      match rest with
      | String d _ => is_digit d
      | EmptyString => false
      end
      && match skip_while is_digit rest with
         | String "_" (String c suffix) =>
             is_alnum c && all_chars is_alnum suffix
         | _ => false
         end
  | _ => false
  end.

(** What [Math.random().toString(36)] prints for a double in [0, 1): ["0"]
    for zero, and otherwise ["0."] followed by one digit of base 36 or more
    (a radix other than 10 never gives an exponent). *)
Definition is_random36 (r : string) : bool :=
  match r with
  | String a EmptyString => bool_decide (a = "0"%char)
  | String a (String b digits) =>
      bool_decide (a = "0"%char) && bool_decide (b = "."%char)
      && negb (bool_decide (digits = EmptyString))
      && all_chars is_base36 digits
  | EmptyString => false
  end.

(** The body of the round-trip scenario:
    [{title: "T", content: "<p>hi</p>", tags: ["x","y"]}]. *)
Definition roundtrip_body : json :=
  JObj [("title", JStr "T"); ("content", JStr "<p>hi</p>");
        ("tags", JArr [JStr "x"; JStr "y"])].

(** ** A concrete runtime and store for the examples *)

Module Demo.

Definition alice : authUser :=
  {| user_id := "u-alice"; user_email := Some "alice@example.org" |}.
Definition bob : authUser :=
  {| user_id := "u-bob"; user_email := Some "bob@example.org" |}.

(** The identity provider knows two access tokens. *)
Definition getUser (token : option string) : option authUser :=
  match token with
  | Some t =>
      if bool_decide (t = "tok-alice") then Some alice
      else if bool_decide (t = "tok-bob") then Some bob
      else None
  | None => None
  end.

(** Lower case on the letters [A] to [Z]. *)
Definition lower_ascii (c : ascii) : ascii :=
  let n := nat_of_ascii c in
  if (65 <=? n)%nat && (n <=? 90)%nat then ascii_of_nat (n + 32) else c.

Fixpoint lower (s : string) : string :=
  match s with
  | EmptyString => EmptyString
  | String c s' => String (lower_ascii c) (lower s')
  end.

(** The example posts carry their creation time in epoch milliseconds; a
    number is the time value of [new Date(number)], [null] is the epoch
    and [undefined] an invalid date. Other values count as invalid dates
    in the examples. *)
Definition getTime (v : jsval) : option Z :=
  match v with
  | Some (JNum n) => Some n
  | Some JNull => Some 0
  | _ => None
  end.

Definition rt : runtime :=
  {| auth_getUser := getUser;
     date_getTime := getTime;
     str_toLowerCase := lower |}.

Definition clk : clock :=
  {| Date_now := 1730505600000;
     Date_toISOString := λ _, "2024-11-02T00:00:00.000Z";
     Math_random_36 := "0.4fzyo82mvyr" |}.

(** The same instant, with a random generator that returns exactly [0],
    the lower end of its range: [(0).toString(36)] is ["0"]. *)
Definition clk_zero : clock :=
  {| Date_now := 1730505600000;
     Date_toISOString := λ _, "2024-11-02T00:00:00.000Z";
     Math_random_36 := "0" |}.

(** A request: authorization header, [:id], query string and body. *)
Definition mkreq (auth : option string) (id : string)
    (query : list (string * string)) (body : result json) : request :=
  {| req_header := λ name,
       if bool_decide (name = "Authorization") then auth else None;
     req_param := λ _, id;
     req_query := λ name, (list_to_map query : gmap string string) !! name;
     req_json := body |}.

Definition as_alice : option string := Some "Bearer tok-alice".
Definition as_bob : option string := Some "Bearer tok-bob".
(** The front end sends the public anonymous key when nobody is logged
    in; the identity provider has no user for it. *)
Definition anonymous : option string := Some "Bearer public-anon-key".

Definition user_fields (u : authUser) (name role : string)
  : list (string * json) :=
  [("id", JStr (user_id u)); ("email", JStr (default "" (user_email u)));
   ("username", JStr name); ("role", JStr role);
   ("avatar", JStr ""); ("bio", JStr "");
   ("createdAt", JStr "2024-01-01T00:00:00.000Z")].
Definition user_record (u : authUser) (name role : string) : json :=
  JObj (user_fields u name role).

Definition post_fields (id title author status : string) (featured : bool)
    (categories tags : list string) (likes created : Z)
  : list (string * json) :=
  [("id", JStr id); ("title", JStr title);
   ("content", JStr ("<p>" +:+ title +:+ "</p>"));
   ("excerpt", JStr title); ("authorId", JStr author);
   ("authorName", JStr author); ("image", JStr "");
   ("tags", JArr (JStr <$> tags));
   ("categories", JArr (JStr <$> categories));
   ("status", JStr status); ("featured", JBool featured);
   ("likes", JNum likes); ("createdAt", JNum created);
   ("updatedAt", JNum created)].

Definition p1_fields : list (string * json) :=
  post_fields "p1" "Hello" "u-alice" "published" true ["B"] ["x"] 5 100.
Definition p2_fields : list (string * json) :=
  post_fields "p2" "Notes" "u-alice" "draft" false ["A"; "B"] ["y"] 0 200.
Definition p1 : json := JObj p1_fields.
Definition p2 : json := JObj p2_fields.

Definition c1_fields : list (string * json) :=
  [("id", JStr "c1"); ("postId", JStr "p1"); ("userId", JStr "u-bob");
   ("username", JStr "bob"); ("avatar", JStr "");
   ("content", JStr "nice"); ("parentId", JNull); ("likes", JNum 2);
   ("createdAt", JNum 300)].
Definition c1 : json := JObj c1_fields.

(** An excerpt of 201 characters. *)
Definition long_excerpt : string :=
  String.string_of_list_ascii (replicate 201 "a"%char).

Definition store : kv.store :=
  <["users:u-alice" := user_record alice "alice" "user"]>
  (<["users:u-bob" := user_record bob "bob" "user"]>
  (<["posts:p1" := p1]>
  (<["posts:p2" := p2]>
  (<["comments:c1" := c1]> ∅)))).

(** A published post whose [categories] is a string, as Create Post
    stores it from the body [{categories: "abc"}]. *)
Definition p3 : json :=
  JObj [("id", JStr "p3"); ("title", JStr "Odd"); ("authorId", JStr "u-bob");
        ("categories", JStr "abc"); ("tags", JArr []);
        ("status", JStr "published"); ("likes", JNum 0);
        ("createdAt", JNum 300)].

Definition store_with_p3 : kv.store := <["posts:p3" := p3]> store.

(** A value that cannot be converted to a string or a number: the JSON
    object [{toString: 1}]. *)
Definition unconvertible : json := JObj [("toString", JNum 1)].

(** Two published posts whose [createdAt] is that object, as Update Post
    stores it from the body [{createdAt: {toString: 1}}]. *)
Definition store_undated : kv.store :=
  <["posts:p1" := JObj (JS.set "createdAt" unconvertible p1_fields)]>
  (<["posts:p2" := JObj (JS.set "createdAt" unconvertible
                           (JS.set "status" (JStr "published") p2_fields))]>
   store).

(** The identity provider refuses the address of an existing account and
    gives the id [u-<username>] to a new one. *)
Definition createUser (email password username : jsval) : createUser_result :=
  if JS.eq_str email "alice@example.org"
  then CreateError (Some (JStr "A user with this email address has already been registered"))
  else match username with
       | Some (JStr name) => Created ("u-" +:+ name)
       | _ => CreateError (Some (JStr "Invalid username"))
       end.

(** The store after an admin has been appointed: [bob] has the role
    [admin]. *)
Definition store_with_admin : kv.store :=
  <["users:u-bob" := user_record bob "bob" "admin"]> store.

End Demo.

(** ** Evaluation of the handlers on the examples *)

Example verifyAuth_bearer :
  verifyAuth Demo.rt Demo.as_alice = Some Demo.alice
  ∧ verifyAuth Demo.rt Demo.anonymous = None
  ∧ verifyAuth Demo.rt (Some "") = None
  ∧ verifyAuth Demo.rt None = None.
Proof. by vm_compute. Qed.

Example getPost_found :
  (run (getPost (Demo.mkreq None "p1" [] Throw)) Demo.store).2
  = Json Demo.p1 200.
Proof. by vm_compute. Qed.

Example getPost_missing :
  (run (getPost (Demo.mkreq None "nope" [] Throw)) Demo.store).2
  = Json (error_body "Post not found") 404.
Proof. by vm_compute. Qed.

Example listPosts_anonymous :
  (run (listPosts Demo.rt (Demo.mkreq Demo.anonymous "" [] Throw)) Demo.store).2
  = Json (JArr [Demo.p1]) 200.
Proof. by vm_compute. Qed.

Example listPosts_logged_in :
  (run (listPosts Demo.rt (Demo.mkreq Demo.as_bob "" [] Throw)) Demo.store).2
  = Json (JArr [Demo.p2; Demo.p1]) 200.
Proof. by vm_compute. Qed.

(** The example of the specification: categories [["B"]] and [["A","B"]]
    list as [["A","B"]]. *)
Example listCategories_sorted :
  (run listCategories Demo.store).2 = Json (JArr [JStr "A"; JStr "B"]) 200.
Proof. by vm_compute. Qed.

(** The conversions throw on an object with a [toString] property of its
    own, alone or inside an array, and with them [+ 1], the default sort of
    two values and the sort on [createdAt]. *)
Example conversions_demo :
  JS.toString (JObj [("a", JNum 1)]) = Ok "[object Object]"
  ∧ JS.toString (JArr [JNum 1; JNull; JStr "x"; JArr [JNum 2; JNum 3]])
    = Ok "1,,x,2,3"
  ∧ JS.toString Demo.unconvertible = Throw
  ∧ JS.toString (JArr [JNum 1; Demo.unconvertible]) = Throw
  ∧ JS.plus_one (JStr "5") = Ok (JStr "51")
  ∧ JS.plus_one (JArr []) = Ok (JStr "1")
  ∧ JS.plus_one Demo.unconvertible = Throw
  ∧ JS.sort JS.default_compare [Demo.unconvertible] = Ok [Demo.unconvertible]
  ∧ JS.sort JS.default_compare [JStr "a"; Demo.unconvertible] = Throw
  ∧ (run (listPosts Demo.rt (Demo.mkreq Demo.anonymous "" [] Throw))
       Demo.store_undated).2 = InternalError
  ∧ (run listCategories Demo.store_with_p3).2 = InternalError.
Proof. by vm_compute. Qed.

(** ** Properties of the JavaScript operators *)

Section js_facts.
Implicit Types (k : string) (v x : json) (fs : list (string * json)).

Lemma lookup_None_not_elem k fs : JS.lookup k fs = None ↔ k ∉ fs.*1.
Proof.
  induction fs as [|[k1 v1] fs IH]; simpl.
  - split; [intros _; apply not_elem_of_nil | done].
  - rewrite not_elem_of_cons. destruct (JS.lookup k fs) eqn:E.
    + split; [done | intros [_ H]]. by apply IH in H.
    + case_bool_decide; subst; split; try done; [by intros [? _] | ].
      intros _. split; [done | by apply IH].
Qed.

Lemma lookup_app k fs1 fs2 :
  JS.lookup k (fs1 ++ fs2)
  = match JS.lookup k fs2 with
    | Some x => Some x
    | None => JS.lookup k fs1
    end.
Proof.
  induction fs1 as [|[k1 v1] fs1 IH]; simpl.
  - by destruct (JS.lookup k fs2).
  - rewrite IH. by destruct (JS.lookup k fs2).
Qed.

Lemma lookup_set_eq k x fs : JS.lookup k (JS.set k x fs) = Some x.
Proof.
  unfold JS.set. case_bool_decide as Hin.
  - induction fs as [|[k1 v1] fs IH]; csimpl in *.
    + by apply elem_of_nil in Hin.
    + destruct (decide (k ∈ fs.*1)) as [Hin'|Hin'].
      * destruct (bool_decide (k1 = k)); by rewrite IH.
      * apply elem_of_cons in Hin as [->|?]; [|done].
        rewrite bool_decide_eq_true_2 by done.
        assert (JS.lookup k1 ((λ kv, if bool_decide (kv.1 = k1)
                                     then (k1, x) else kv) <$> fs) = None)
          as ->; [|by rewrite bool_decide_eq_true_2].
        apply lookup_None_not_elem. rewrite <- list_fmap_compose.
        intros (kv & Hk & Hkv)%list_elem_of_fmap. apply Hin'.
        apply list_elem_of_fmap. exists kv. split; [|done].
        simpl in Hk. by case_bool_decide.
  - rewrite lookup_app. simpl. by rewrite bool_decide_eq_true_2.
Qed.

Lemma lookup_set_ne k k' x fs :
  k ≠ k' → JS.lookup k' (JS.set k x fs) = JS.lookup k' fs.
Proof.
  intros Hne. unfold JS.set. case_bool_decide as Hin.
  - clear Hin. induction fs as [|[k1 v1] fs IH]; csimpl; [done|].
    case_bool_decide; subst; rewrite IH; [|done].
    destruct (JS.lookup k' fs); [done|].
    by rewrite !bool_decide_eq_false_2.
  - rewrite lookup_app. simpl. by rewrite bool_decide_eq_false_2.
Qed.

(** A spread overrides the properties that its argument has and keeps the
    others. *)
Lemma lookup_spread k (target : list (string * json)) (w : jsval) :
  JS.lookup k (JS.spread target w)
  = match JS.own w k with
    | Some x => Some x
    | None => JS.lookup k target
    end.
Proof.
  unfold JS.spread, JS.own. generalize (JS.own_props w) as props.
  intros props. revert target.
  induction props as [|[k1 v1] props IH]; intros target; simpl; [done|].
  rewrite IH. destruct (JS.lookup k props); [done|].
  case_bool_decide; subst.
  - apply lookup_set_eq.
  - by apply lookup_set_ne.
Qed.

Lemma own_obj k fs : JS.own (Some (JObj fs)) k = JS.lookup k fs.
Proof. done. Qed.

Lemma lookup_spread_obj k fs :
  JS.lookup k (JS.spread [] (Some (JObj fs))) = JS.lookup k fs.
Proof. rewrite lookup_spread, own_obj. by destruct (JS.lookup k fs). Qed.

(** A value that passes [if (!v) return ...] is not [null], so reading a
    property of it does not throw. *)
Lemma member_truthy v k :
  JS.truthy (Some v) = true → JS.member v k = Ok (JS.opt_member (Some v) k).
Proof. by destruct v. Qed.

Lemma eq_str_true (w : jsval) (s : string) :
  JS.eq_str w s = true ↔ w = Some (JStr s).
Proof.
  destruct w as [[]|]; simpl; try (split; congruence).
  rewrite bool_decide_eq_true. split; congruence.
Qed.

Lemma eq_str_false (w : jsval) (s : string) :
  JS.eq_str w s = false ↔ w ≠ Some (JStr s).
Proof.
  rewrite <- eq_str_true. destruct (JS.eq_str w s); split; congruence.
Qed.

End js_facts.

(** ** The update and delete handlers of posts *)

Ltac unfold_handler :=
  unfold run, hbind, require_user, require, reject_if, eval, respond, hret,
    kv_get, kv_set, kv_del, kv_getByPrefix, kv.get, kv.set, kv.del.

Section post_writes.
Context (rt : runtime) (clk : clock) (req : request) (s : kv.store).
Context (user : authUser) (cur : json).

Hypothesis Hauth : verifyAuth rt (req_header req "Authorization") = Some user.
Hypothesis Hcur : exists_at s ("posts:" +:+ req_param req "id") cur.

Lemma not_author_nor_admin_false :
  is_author user cur ∨ is_admin s user →
  not_author_nor_admin (JS.opt_member (Some cur) "authorId") user
    (s !! ("users:" +:+ user_id user)) = false.
Proof.
  unfold not_author_nor_admin, is_author, is_admin.
  intros [->%eq_str_true | ->%eq_str_true]; simpl; [done|].
  apply andb_false_r.
Qed.

Lemma not_author_nor_admin_true :
  ¬ is_author user cur → ¬ is_admin s user →
  not_author_nor_admin (JS.opt_member (Some cur) "authorId") user
    (s !! ("users:" +:+ user_id user)) = true.
Proof.
  unfold not_author_nor_admin, is_author, is_admin.
  by intros ->%eq_str_false ->%eq_str_false.
Qed.

(** An accepted update stores and returns the merged record. *)
Lemma updatePost_accepted (updates : json) :
  is_author user cur ∨ is_admin s user →
  req_json req = Ok updates →
  run (updatePost rt clk req) s
  = (<["posts:" +:+ req_param req "id" :=
         updatedPost clk (req_param req "id") cur updates]> s,
     Json (updatedPost clk (req_param req "id") cur updates) 200).
Proof.
  intros Hmay Hbody. destruct Hcur as [Hget Htruthy].
  unfold updatePost. unfold_handler. rewrite Hauth.
  rewrite Hget, Htruthy, (member_truthy _ _ Htruthy).
  by rewrite (not_author_nor_admin_false Hmay), Hbody.
Qed.

(** A caller who is neither the author nor an admin gets 403 from both
    handlers, and the store is the one before the request. *)
Lemma updatePost_forbidden :
  ¬ is_author user cur → ¬ is_admin s user →
  run (updatePost rt clk req) s = (s, Json (error_body "Forbidden") 403).
Proof.
  intros Hna Hnadm. destruct Hcur as [Hget Htruthy].
  unfold updatePost. unfold_handler. rewrite Hauth.
  rewrite Hget, Htruthy, (member_truthy _ _ Htruthy).
  by rewrite (not_author_nor_admin_true Hna Hnadm).
Qed.

Lemma deletePost_forbidden :
  ¬ is_author user cur → ¬ is_admin s user →
  run (deletePost rt req) s = (s, Json (error_body "Forbidden") 403).
Proof.
  intros Hna Hnadm. destruct Hcur as [Hget Htruthy].
  unfold deletePost. unfold_handler. rewrite Hauth.
  rewrite Hget, Htruthy, (member_truthy _ _ Htruthy).
  by rewrite (not_author_nor_admin_true Hna Hnadm).
Qed.

End post_writes.

(** The merged record of an update: [id] is the one of the path, and every
    other property except [updatedAt] is the one of the body when the body
    has it, and the one of the current record otherwise. *)
Lemma updatedPost_id clk postId cur updates :
  JS.opt_member (Some (updatedPost clk postId cur updates)) "id"
  = Some (JStr postId).
Proof.
  unfold updatedPost. simpl.
  rewrite lookup_set_ne by done. apply lookup_set_eq.
Qed.

Lemma updatedPost_field clk postId fs updates k :
  k ≠ "id" → k ≠ "updatedAt" →
  JS.opt_member (Some (updatedPost clk postId (JObj fs) updates)) k
  = match JS.own (Some updates) k with
    | Some x => Some x
    | None => JS.lookup k fs
    end.
Proof.
  intros Hid Hupd. unfold updatedPost. simpl.
  rewrite !lookup_set_ne by done.
  by rewrite lookup_spread, lookup_spread_obj.
Qed.

Lemma updatedUser_field userId fs updates k :
  k ≠ "id" →
  JS.opt_member (Some (updatedUser userId (JObj fs) updates)) k
  = match JS.own (Some updates) k with
    | Some x => Some x
    | None => JS.lookup k fs
    end.
Proof.
  intros Hid. unfold updatedUser. simpl.
  rewrite !lookup_set_ne by done.
  by rewrite lookup_spread, lookup_spread_obj.
Qed.

(** An update of the caller's own profile stores and returns the merged
    record. *)
Lemma updateUser_accepted rt req s user cur updates :
  verifyAuth rt (req_header req "Authorization") = Some user →
  req_param req "id" = user_id user →
  req_json req = Ok updates →
  exists_at s ("users:" +:+ user_id user) cur →
  run (updateUser rt req) s
  = (<["users:" +:+ user_id user := updatedUser (user_id user) cur updates]> s,
     Json (updatedUser (user_id user) cur updates) 200).
Proof.
  intros Hauth Hid Hbody [Hget Htruthy].
  unfold updateUser. unfold_handler. rewrite Hauth, Hid.
  rewrite bool_decide_eq_true_2 by done. simpl.
  by rewrite Hbody, Hget, Htruthy.
Qed.

(** ** The claims on updates *)

(** C1, as amended: an accepted Update Post (authenticated caller who is the
    author or an admin, post exists) stores as [status] the [status] property
    of the body when the body has one, whatever its value, and the previous
    status otherwise. So the stored status is [draft] or [published] when the
    previous one was and the body supplies no other value. *)
Theorem updatePost_status rt clk req s user fs updates :
  verifyAuth rt (req_header req "Authorization") = Some user →
  s !! ("posts:" +:+ req_param req "id") = Some (JObj fs) →
  is_author user (JObj fs) ∨ is_admin s user →
  req_json req = Ok updates →
  ∃ post,
    run (updatePost rt clk req) s
    = (<["posts:" +:+ req_param req "id" := post]> s, Json post 200)
    ∧ JS.opt_member (Some post) "status"
      = match JS.own (Some updates) "status" with
        | Some x => Some x
        | None => JS.lookup "status" fs
        end
    ∧ (status_enumerated (JS.lookup "status" fs) →
       (∀ x, JS.own (Some updates) "status" = Some x →
             status_enumerated (Some x)) →
       status_enumerated (JS.opt_member (Some post) "status")).
Proof.
  intros Hauth Hcur Hmay Hbody.
  exists (updatedPost clk (req_param req "id") (JObj fs) updates).
  split; [by apply updatePost_accepted with (user := user)|].
  rewrite updatedPost_field by done. split; [done|].
  intros Hprev Hnew. destruct (JS.own (Some updates) "status"); auto.
Qed.

Lemma updatePost_status_witness :
  ∃ post,
    run (updatePost Demo.rt Demo.clk
           (Demo.mkreq Demo.as_alice "p2" []
              (Ok (JObj [("status", JStr "published")])))) Demo.store
    = (<["posts:p2" := post]> Demo.store, Json post 200)
    ∧ JS.opt_member (Some post) "status" = Some (JStr "published").
Proof.
  destruct (updatePost_status Demo.rt Demo.clk
              (Demo.mkreq Demo.as_alice "p2" []
                 (Ok (JObj [("status", JStr "published")])))
              Demo.store Demo.alice Demo.p2_fields
              (JObj [("status", JStr "published")]))
    as (post & Hrun & Hstatus & _).
  - by vm_compute.
  - by vm_compute.
  - left. by vm_compute.
  - done.
  - exists post. split; [exact Hrun | exact Hstatus].
Defined.

(** C1 as stated fails: the author of a post sends [{status: "archived"}],
    the update is accepted, and the stored status is neither [draft] nor
    [published]. *)
Lemma updatePost_status_not_enumerated :
  ∃ s' post,
    run (updatePost Demo.rt Demo.clk
           (Demo.mkreq Demo.as_alice "p1" []
              (Ok (JObj [("status", JStr "archived")])))) Demo.store
    = (s', Json post 200)
    ∧ s' !! "posts:p1" = Some post
    ∧ JS.opt_member (Some post) "status" = Some (JStr "archived")
    ∧ ¬ status_enumerated (JS.opt_member (Some post) "status").
Proof.
  eexists _, _. split.
  - apply updatePost_accepted with (user := Demo.alice) (cur := Demo.p1);
      [by vm_compute | by split; vm_compute | left; by vm_compute | done].
  - split; [apply lookup_insert_eq|].
    split; [by vm_compute|].
    intros [H|H]; vm_compute in H; discriminate H.
Qed.

(** C2, as amended: an accepted Update Post stores the [id] of the path as
    [id], whatever the body says, and keeps [authorId] when the body has no
    [authorId] property; a body that has one replaces the stored value. *)
Theorem updatePost_id_authorId rt clk req s user fs updates :
  verifyAuth rt (req_header req "Authorization") = Some user →
  s !! ("posts:" +:+ req_param req "id") = Some (JObj fs) →
  is_author user (JObj fs) ∨ is_admin s user →
  req_json req = Ok updates →
  ∃ post,
    run (updatePost rt clk req) s
    = (<["posts:" +:+ req_param req "id" := post]> s, Json post 200)
    ∧ JS.opt_member (Some post) "id" = Some (JStr (req_param req "id"))
    ∧ JS.opt_member (Some post) "authorId"
      = match JS.own (Some updates) "authorId" with
        | Some x => Some x
        | None => JS.lookup "authorId" fs
        end.
Proof.
  intros Hauth Hcur Hmay Hbody.
  exists (updatedPost clk (req_param req "id") (JObj fs) updates).
  split; [by apply updatePost_accepted with (user := user)|].
  split; [apply updatedPost_id | by apply updatedPost_field].
Qed.

Lemma updatePost_id_authorId_witness :
  ∃ post,
    run (updatePost Demo.rt Demo.clk
           (Demo.mkreq Demo.as_alice "p1" []
              (Ok (JObj [("id", JStr "p9"); ("title", JStr "Hi")]))))
      Demo.store
    = (<["posts:p1" := post]> Demo.store, Json post 200)
    ∧ JS.opt_member (Some post) "id" = Some (JStr "p1")
    ∧ JS.opt_member (Some post) "authorId" = Some (JStr "u-alice").
Proof.
  destruct (updatePost_id_authorId Demo.rt Demo.clk
              (Demo.mkreq Demo.as_alice "p1" []
                 (Ok (JObj [("id", JStr "p9"); ("title", JStr "Hi")])))
              Demo.store Demo.alice Demo.p1_fields
              (JObj [("id", JStr "p9"); ("title", JStr "Hi")]))
    as (post & Hrun & Hid & Hauthor).
  - by vm_compute.
  - by vm_compute.
  - left. by vm_compute.
  - done.
  - exists post. split; [exact Hrun|]. split; [exact Hid | exact Hauthor].
Defined.

(** C2 as stated fails: the author of a post sends [{authorId: "u-bob"}], the
    update is accepted, and the stored [authorId] is no longer the one the
    post was created with. *)
Lemma updatePost_authorId_replaced :
  ∃ s' post,
    JS.opt_member (Demo.store !! "posts:p1") "authorId" = Some (JStr "u-alice")
    ∧ run (updatePost Demo.rt Demo.clk
             (Demo.mkreq Demo.as_alice "p1" []
                (Ok (JObj [("authorId", JStr "u-bob")])))) Demo.store
      = (s', Json post 200)
    ∧ s' !! "posts:p1" = Some post
    ∧ JS.opt_member (Some post) "authorId" = Some (JStr "u-bob").
Proof.
  eexists _, _. split; [by vm_compute|]. split.
  - apply updatePost_accepted with (user := Demo.alice) (cur := Demo.p1);
      [by vm_compute | by split; vm_compute | left; by vm_compute | done].
  - split; [apply lookup_insert_eq | by vm_compute].
Qed.

(** C6: Update Post and Delete Post, called on an existing post by an
    authenticated caller who is neither its author nor an admin, answer 403
    Forbidden and leave the store, and so the post, as it was. *)
Theorem post_write_forbidden rt clk req s user cur :
  verifyAuth rt (req_header req "Authorization") = Some user →
  exists_at s ("posts:" +:+ req_param req "id") cur →
  ¬ is_author user cur →
  ¬ is_admin s user →
  run (updatePost rt clk req) s = (s, Json (error_body "Forbidden") 403)
  ∧ run (deletePost rt req) s = (s, Json (error_body "Forbidden") 403).
Proof.
  intros Hauth Hcur Hna Hnadm. split.
  - by apply updatePost_forbidden with (user := user) (cur := cur).
  - by apply deletePost_forbidden with (user := user) (cur := cur).
Qed.

Lemma post_write_forbidden_witness :
  run (updatePost Demo.rt Demo.clk
         (Demo.mkreq Demo.as_bob "p1" [] (Ok (JObj [("title", JStr "mine")]))))
    Demo.store
  = (Demo.store, Json (error_body "Forbidden") 403)
  ∧ run (deletePost Demo.rt
           (Demo.mkreq Demo.as_bob "p1" [] (Ok (JObj [("title", JStr "mine")]))))
      Demo.store
    = (Demo.store, Json (error_body "Forbidden") 403).
Proof.
  apply (post_write_forbidden Demo.rt Demo.clk
           (Demo.mkreq Demo.as_bob "p1" [] (Ok (JObj [("title", JStr "mine")])))
           Demo.store Demo.bob Demo.p1).
  - by vm_compute.
  - split; by vm_compute.
  - unfold is_author. vm_compute. discriminate.
  - unfold is_admin. vm_compute. discriminate.
Defined.

(** C3: Update User, called by an authenticated caller on the caller's own
    id with the body [{role: "admin"}], succeeds whatever the caller's role
    is, and the stored user record has the role [admin]: after the request
    the caller passes the admin check of the handlers. *)
Theorem updateUser_self_promotion rt req s user fs :
  verifyAuth rt (req_header req "Authorization") = Some user →
  req_param req "id" = user_id user →
  s !! ("users:" +:+ user_id user) = Some (JObj fs) →
  JS.lookup "role" fs = Some (JStr "user") →
  req_json req = Ok (JObj [("role", JStr "admin")]) →
  ∃ record,
    run (updateUser rt req) s
    = (<["users:" +:+ user_id user := record]> s, Json record 200)
    ∧ JS.opt_member (Some record) "role" = Some (JStr "admin")
    ∧ ¬ is_admin s user
    ∧ is_admin (<["users:" +:+ user_id user := record]> s) user.
Proof.
  intros Hauth Hid Hcur Hrole Hbody.
  exists (updatedUser (user_id user) (JObj fs) (JObj [("role", JStr "admin")])).
  assert (JS.opt_member
            (Some (updatedUser (user_id user) (JObj fs)
                     (JObj [("role", JStr "admin")]))) "role"
          = Some (JStr "admin")) as Hnew.
  { by rewrite updatedUser_field. }
  split; [by apply updateUser_accepted|]. split; [done|]. split.
  - unfold is_admin. rewrite Hcur. simpl. rewrite Hrole. discriminate.
  - unfold is_admin. by rewrite lookup_insert_eq.
Qed.

Lemma updateUser_self_promotion_witness :
  ∃ record,
    run (updateUser Demo.rt
           (Demo.mkreq Demo.as_bob "u-bob" []
              (Ok (JObj [("role", JStr "admin")])))) Demo.store
    = (<["users:u-bob" := record]> Demo.store, Json record 200)
    ∧ JS.opt_member (Some record) "role" = Some (JStr "admin").
Proof.
  destruct (updateUser_self_promotion Demo.rt
              (Demo.mkreq Demo.as_bob "u-bob" []
                 (Ok (JObj [("role", JStr "admin")])))
              Demo.store Demo.bob (Demo.user_fields Demo.bob "bob" "user"))
    as (record & Hrun & Hrole & _).
  - by vm_compute.
  - done.
  - by vm_compute.
  - by vm_compute.
  - done.
  - exists record. split; [exact Hrun | exact Hrole].
Defined.

(** ** Likes *)

Lemma or_val_num (L : Z) : JS.or_val (Some (JNum L)) (JNum 0) = JNum L.
Proof.
  unfold JS.or_val. simpl. destruct (Z.eqb_spec L 0) as [->|]; done.
Qed.

(** One Like on a record whose [likes] is the number [L]: the stored counter
    and the answer are [L + 1], the other properties stay. *)
Lemma next_likes_num fs (L : Z) :
  JS.lookup "likes" fs = Some (JNum L) →
  next_likes (JObj fs) = Ok (JNum (L + 1)).
Proof. intros H. unfold next_likes. simpl. by rewrite H, or_val_num. Qed.

Lemma likePost_num req s fs (L : Z) :
  s !! ("posts:" +:+ req_param req "id") = Some (JObj fs) →
  JS.lookup "likes" fs = Some (JNum L) →
  run (likePost req) s
  = (<["posts:" +:+ req_param req "id" :=
         JObj (JS.set "likes" (JNum (L + 1)) fs)]> s,
     Json (JObj [("likes", JNum (L + 1))]) 200).
Proof.
  intros Hget Hlikes. unfold likePost. unfold_handler.
  rewrite Hget. simpl. by rewrite (next_likes_num _ _ Hlikes).
Qed.

Lemma likeComment_num req s fs (L : Z) :
  s !! ("comments:" +:+ req_param req "id") = Some (JObj fs) →
  JS.lookup "likes" fs = Some (JNum L) →
  run (likeComment req) s
  = (<["comments:" +:+ req_param req "id" :=
         JObj (JS.set "likes" (JNum (L + 1)) fs)]> s,
     Json (JObj [("likes", JNum (L + 1))]) 200).
Proof.
  intros Hget Hlikes. unfold likeComment. unfold_handler.
  rewrite Hget. simpl. by rewrite (next_likes_num _ _ Hlikes).
Qed.

(** [N] requests that each add one to the counter of the record at [key]. *)
Lemma repeat_likes (h : kv.store → kv.store * response) (key : string) :
  (∀ s fs (L : Z),
      s !! key = Some (JObj fs) → JS.lookup "likes" fs = Some (JNum L) →
      (h s).1 = <[key := JObj (JS.set "likes" (JNum (L + 1)) fs)]> s) →
  ∀ (N : nat) s fs (L : Z),
    s !! key = Some (JObj fs) → JS.lookup "likes" fs = Some (JNum L) →
    JS.opt_member (repeat_request N h s !! key) "likes"
    = Some (JNum (L + Z.of_nat N)).
Proof.
  intros Hstep N. induction N as [|N IH]; intros s fs L Hget Hlikes.
  - simpl. rewrite Hget. simpl. rewrite Hlikes. do 2 f_equal. lia.
  - simpl repeat_request. rewrite (Hstep s fs L Hget Hlikes).
    rewrite (IH _ (JS.set "likes" (JNum (L + 1)) fs) (L + 1)).
    + do 2 f_equal. lia.
    + apply lookup_insert_eq.
    + apply lookup_set_eq.
Qed.

(** C8, as amended: on a record whose [likes] is the number [L], [N] Like
    calls in a row leave the counter at [L + N] (within the integers that a
    double holds exactly), for posts and for comments alike; and an accepted
    Update Post whose body has no [likes] property leaves the counter as it
    is. Nothing is said of an Update Post whose body has a [likes] property:
    the merge stores that value. *)
Theorem likes_after_requests rt clk req s fs (L : Z) (N : nat) :
  JS.lookup "likes" fs = Some (JNum L) →
  0 ≤ L → L + Z.of_nat N ≤ 2 ^ 53 →
  (s !! ("posts:" +:+ req_param req "id") = Some (JObj fs) →
   JS.opt_member
     (repeat_request N (run (likePost req)) s
        !! ("posts:" +:+ req_param req "id")) "likes"
   = Some (JNum (L + Z.of_nat N)))
  ∧ (s !! ("comments:" +:+ req_param req "id") = Some (JObj fs) →
     JS.opt_member
       (repeat_request N (run (likeComment req)) s
          !! ("comments:" +:+ req_param req "id")) "likes"
     = Some (JNum (L + Z.of_nat N)))
  ∧ (∀ user updates,
       verifyAuth rt (req_header req "Authorization") = Some user →
       s !! ("posts:" +:+ req_param req "id") = Some (JObj fs) →
       is_author user (JObj fs) ∨ is_admin s user →
       req_json req = Ok updates →
       JS.own (Some updates) "likes" = None →
       ∃ post,
         run (updatePost rt clk req) s
         = (<["posts:" +:+ req_param req "id" := post]> s, Json post 200)
         ∧ JS.opt_member (Some post) "likes" = Some (JNum L)).
Proof.
  intros Hlikes _ _. split; [|split].
  - intros Hget. apply repeat_likes with (fs := fs); [|done..].
    intros s' fs' L' Hget' Hlikes'. by rewrite (likePost_num _ _ _ _ Hget' Hlikes').
  - intros Hget. apply repeat_likes with (fs := fs); [|done..].
    intros s' fs' L' Hget' Hlikes'.
    by rewrite (likeComment_num _ _ _ _ Hget' Hlikes').
  - intros user updates Hauth Hget Hmay Hbody Hnone.
    exists (updatedPost clk (req_param req "id") (JObj fs) updates).
    split; [by apply updatePost_accepted with (user := user)|].
    rewrite updatedPost_field by done. by rewrite Hnone.
Qed.

Lemma likes_after_requests_witness :
  JS.opt_member
    (repeat_request 3 (run (likePost (Demo.mkreq None "p1" [] Throw)))
       Demo.store !! "posts:p1") "likes"
  = Some (JNum 8).
Proof.
  apply (likes_after_requests Demo.rt Demo.clk (Demo.mkreq None "p1" [] Throw)
           Demo.store Demo.p1_fields 5 3).
  - by vm_compute.
  - lia.
  - by vm_compute.
  - by vm_compute.
Defined.

(** C8 as stated fails in its second half: an accepted Update Post with the
    body [{likes: 0}] takes the counter of a post from 5 down to 0. *)
Lemma updatePost_decrements_likes :
  ∃ s' post,
    JS.opt_member (Demo.store !! "posts:p1") "likes" = Some (JNum 5)
    ∧ run (updatePost Demo.rt Demo.clk
             (Demo.mkreq Demo.as_alice "p1" []
                (Ok (JObj [("likes", JNum 0)])))) Demo.store
      = (s', Json post 200)
    ∧ s' !! "posts:p1" = Some post
    ∧ JS.opt_member (Some post) "likes" = Some (JNum 0)
    ∧ 0 < 5.
Proof.
  eexists _, _. split; [by vm_compute|]. split.
  - apply updatePost_accepted with (user := Demo.alice) (cur := Demo.p1);
      [by vm_compute | by split; vm_compute | left; by vm_compute | done].
  - split; [apply lookup_insert_eq|]. split; [by vm_compute | lia].
Qed.

(** ** Creating a post *)

Ltac eval_key_tests :=
  repeat match goal with
    | |- context [bool_decide (?a = ?b)] =>
        first [ rewrite (bool_decide_eq_true_2 (a = b)) by reflexivity
              | rewrite (bool_decide_eq_false_2 (a = b)) by discriminate ]
    end.

Lemma lookup_literal_cons k k' (w : jsval) (fs : list (string * jsval)) :
  JS.lookup k (JS.literal ((k', w) :: fs))
  = match JS.lookup k (JS.literal fs) with
    | Some x => Some x
    | None => if bool_decide (k' = k) then w else None
    end.
Proof.
  unfold JS.literal. destruct w as [x|]; simpl; [done|].
  destruct (JS.lookup k _); [done | by case_bool_decide].
Qed.

(** A body that is not [null] has all its properties read without an
    exception. *)
Lemma member_ok (v : json) k (w : jsval) :
  JS.member v k = Ok w → ∀ k', JS.member v k' = Ok (JS.opt_member (Some v) k').
Proof. by destruct v. Qed.

Lemma substring_length_le (n : nat) (s : string) :
  (String.length (String.substring 0 n s) ≤ n)%nat.
Proof.
  revert s. induction n as [|n IH]; intros [|c s]; simpl; try lia.
  specialize (IH s). lia.
Qed.

Lemma substring_prefix (n : nat) (s : string) :
  String.prefix (String.substring 0 n s) s = true.
Proof.
  revert s. induction n as [|n IH]; intros [|c s]; simpl; try done.
  destruct (ascii_dec c c); [apply IH | done].
Qed.

(** When the object literal is built without an exception, the new post is
    stored under its id and returned. *)
Lemma createPost_accepted rt clk req s user postData post :
  verifyAuth rt (req_header req "Authorization") = Some user →
  req_json req = Ok postData →
  newPost clk user (s !! ("users:" +:+ user_id user)) postData = Ok post →
  run (createPost rt clk req) s
  = (<["posts:" +:+ new_post_id clk := post]> s, Json post 200).
Proof.
  intros Hauth Hbody Hnew. unfold createPost. unfold_handler.
  by rewrite Hauth, Hbody, Hnew.
Qed.

(** The object literal, for a body that is not [null]: only the default of
    [excerpt] can throw. *)
Lemma newPost_fields clk (s : kv.store) user postData (excerpt : jsval) :
  postData ≠ JNull →
  (if JS.truthy (JS.opt_member (Some postData) "excerpt")
   then Ok (JS.opt_member (Some postData) "excerpt")
   else JS.opt_substring (JS.opt_member (Some postData) "content") 200)
  = Ok excerpt →
  ∃ post,
    newPost clk user (s !! ("users:" +:+ user_id user)) postData = Ok post
    ∧ JS.truthy (Some post) = true
    ∧ JS.opt_member (Some post) "id" = Some (JStr (new_post_id clk))
    ∧ JS.opt_member (Some post) "title" = JS.opt_member (Some postData) "title"
    ∧ JS.opt_member (Some post) "content"
      = JS.opt_member (Some postData) "content"
    ∧ JS.opt_member (Some post) "excerpt" = excerpt
    ∧ JS.opt_member (Some post) "tags"
      = Some (JS.or_val (JS.opt_member (Some postData) "tags") (JArr []))
    ∧ JS.opt_member (Some post) "authorId" = Some (JStr (user_id user))
    ∧ JS.opt_member (Some post) "likes" = Some (JNum 0).
Proof.
  intros Hnn Hex. unfold newPost.
  assert (∀ k, JS.member postData k = Ok (JS.opt_member (Some postData) k))
    as Hm by (by destruct postData).
  rewrite !Hm. cbn [result_bind]. rewrite Hex. cbn [result_bind].
  clear Hex Hm.
  generalize (JS.opt_member (Some postData) "title") as title.
  generalize (JS.opt_member (Some postData) "content") as content.
  generalize (JS.opt_member (Some postData) "image") as image.
  generalize (JS.opt_member (Some postData) "tags") as tags.
  generalize (JS.opt_member (Some postData) "categories") as categories.
  generalize (JS.opt_member (Some postData) "status") as status.
  generalize (JS.opt_member (Some postData) "featured") as featured.
  generalize (JS.or (JS.opt_member (s !! ("users:" +:+ user_id user)) "username")
                (JStr <$> user_email user)) as authorName.
  intros. eexists. split; [reflexivity|]. split; [reflexivity|].
  cbn [JS.opt_member]. rewrite !lookup_literal_cons. eval_key_tests. simpl.
  repeat split; try reflexivity.
  - by destruct title.
  - by destruct content.
  - by destruct excerpt.
Qed.

(** C10, as amended: an accepted Create Post stores as [excerpt] the
    [excerpt] property of the body when that is truthy, as it is and of any
    length; when the body has no truthy [excerpt] and its [content] is a
    string, the stored excerpt is the prefix of [content] of at most 200
    characters (of the content as sent, markup included). *)
Theorem createPost_excerpt rt clk req s user postData :
  verifyAuth rt (req_header req "Authorization") = Some user →
  req_json req = Ok postData →
  postData ≠ JNull →
  (JS.truthy (JS.opt_member (Some postData) "excerpt") = true →
   ∃ post,
     run (createPost rt clk req) s
     = (<["posts:" +:+ new_post_id clk := post]> s, Json post 200)
     ∧ JS.opt_member (Some post) "excerpt"
       = JS.opt_member (Some postData) "excerpt")
  ∧ (JS.truthy (JS.opt_member (Some postData) "excerpt") = false →
     ∀ content,
       JS.opt_member (Some postData) "content" = Some (JStr content) →
       ∃ post excerpt,
         run (createPost rt clk req) s
         = (<["posts:" +:+ new_post_id clk := post]> s, Json post 200)
         ∧ JS.opt_member (Some post) "excerpt" = Some (JStr excerpt)
         ∧ excerpt = String.substring 0 200 content
         ∧ String.prefix excerpt content = true
         ∧ (String.length excerpt ≤ 200)%nat).
Proof.
  intros Hauth Hbody Hnn. split.
  - intros Htruthy.
    destruct (newPost_fields clk s user postData
                (JS.opt_member (Some postData) "excerpt") Hnn)
      as (post & Hnew & _ & _ & _ & _ & Hex & _); [by rewrite Htruthy|].
    exists post. split; [by apply createPost_accepted with user postData | done].
  - intros Hfalsy content Hcontent.
    destruct (newPost_fields clk s user postData
                (Some (JStr (String.substring 0 200 content))) Hnn)
      as (post & Hnew & _ & _ & _ & _ & Hex & _);
      [by rewrite Hfalsy, Hcontent|].
    exists post, (String.substring 0 200 content).
    split; [by apply createPost_accepted with user postData|].
    split; [done|]. split; [done|].
    split; [apply substring_prefix | apply substring_length_le].
Qed.

Lemma createPost_excerpt_witness :
  ∃ post excerpt,
    run (createPost Demo.rt Demo.clk
           (Demo.mkreq Demo.as_alice "" [] (Ok roundtrip_body))) Demo.store
    = (<["posts:" +:+ new_post_id Demo.clk := post]> Demo.store, Json post 200)
    ∧ JS.opt_member (Some post) "excerpt" = Some (JStr excerpt)
    ∧ excerpt = "<p>hi</p>".
Proof.
  destruct (createPost_excerpt Demo.rt Demo.clk
              (Demo.mkreq Demo.as_alice "" [] (Ok roundtrip_body))
              Demo.store Demo.alice roundtrip_body)
    as [_ Hdefault].
  - by vm_compute.
  - done.
  - discriminate.
  - destruct (Hdefault eq_refl "<p>hi</p>" eq_refl)
      as (post & excerpt & Hrun & Hex & Heq & _).
    exists post, excerpt. split; [exact Hrun|]. split; [exact Hex | exact Heq].
Defined.

(** C10 as stated fails: a body with an [excerpt] of 201 characters is
    accepted, and that excerpt is stored as it is. *)
Lemma createPost_long_excerpt :
  ∃ s' post,
    run (createPost Demo.rt Demo.clk
           (Demo.mkreq Demo.as_alice "" []
              (Ok (JObj [("title", JStr "T"); ("content", JStr "<p>hi</p>");
                         ("excerpt", JStr Demo.long_excerpt)])))) Demo.store
    = (s', Json post 200)
    ∧ s' !! ("posts:" +:+ new_post_id Demo.clk) = Some post
    ∧ JS.opt_member (Some post) "excerpt" = Some (JStr Demo.long_excerpt)
    ∧ String.length Demo.long_excerpt = 201%nat
    ∧ ¬ (String.length Demo.long_excerpt ≤ 200)%nat.
Proof.
  destruct (newPost_fields Demo.clk Demo.store Demo.alice
              (JObj [("title", JStr "T"); ("content", JStr "<p>hi</p>");
                     ("excerpt", JStr Demo.long_excerpt)])
              (Some (JStr Demo.long_excerpt)))
    as (post & Hnew & _ & _ & _ & _ & Hex & _); [discriminate | done |].
  eexists _, post. split.
  - by apply createPost_accepted with Demo.alice
      (JObj [("title", JStr "T"); ("content", JStr "<p>hi</p>");
             ("excerpt", JStr Demo.long_excerpt)]).
  - split; [apply lookup_insert_eq|]. split; [exact Hex|].
    split; [by vm_compute | vm_compute; lia].
Qed.

(** ** The shape of the generated id *)

Lemma is_digit_pretty_N_char (x : N) : is_digit (pretty_N_char x) = true.
Proof. unfold pretty_N_char. by repeat case_match. Qed.

Lemma pretty_N_go_digits (x : N) (s : string) :
  all_chars is_digit s = true → all_chars is_digit (pretty_N_go x s) = true.
Proof.
  revert s. induction (N.lt_wf_0 x) as [x _ IH]; intros s Hs.
  destruct (decide (x = 0)%N) as [->|Hx]; [by rewrite pretty_N_go_0|].
  rewrite pretty_N_go_step by lia. apply IH.
  - apply N.div_lt; lia.
  - simpl. by rewrite is_digit_pretty_N_char.
Qed.

Lemma pretty_N_go_nonempty (x : N) (s : string) :
  s ≠ "" → pretty_N_go x s ≠ "".
Proof.
  revert s. induction (N.lt_wf_0 x) as [x _ IH]; intros s Hs.
  destruct (decide (x = 0)%N) as [->|Hx]; [by rewrite pretty_N_go_0|].
  rewrite pretty_N_go_step by lia. apply IH; [apply N.div_lt; lia | done].
Qed.

(** [`${n}`] for a non-negative integer is a non-empty string of digits. *)
Lemma pretty_N_digits (n : N) :
  all_chars is_digit (pretty n) = true ∧ pretty n ≠ "".
Proof.
  unfold pretty, pretty_N. case_decide as Hn; [done|]. split.
  - by apply pretty_N_go_digits.
  - assert (0 < n)%N as Hpos by lia.
    rewrite pretty_N_go_step by done. by apply pretty_N_go_nonempty.
Qed.

Lemma all_chars_substring (p : ascii → bool) (n m : nat) (s : string) :
  all_chars p s = true → all_chars p (String.substring n m s) = true.
Proof.
  revert n m. induction s as [|c s IH]; intros [|n] [|m]; simpl; try done.
  - intros [Hc Hs]%andb_true_iff. rewrite Hc. by apply IH.
  - intros [_ Hs]%andb_true_iff. by apply (IH n 0%nat).
  - intros [_ Hs]%andb_true_iff. by apply (IH n (S m)).
Qed.

Lemma all_chars_impl (p q : ascii → bool) (s : string) :
  (∀ c, p c = true → q c = true) →
  all_chars p s = true → all_chars q s = true.
Proof.
  intros Hpq. induction s as [|c s IH]; simpl; [done|].
  intros [Hc Hs]%andb_true_iff. by rewrite (Hpq _ Hc), IH.
Qed.

(** The nine characters taken from the random number are alphanumeric. *)
Lemma random_suffix_alnum (r : string) :
  is_random36 r = true → all_chars is_alnum (String.substring 2 9 r) = true.
Proof.
  destruct r as [|a [|b digits]]; try done.
  intros [_ Hd]%andb_true_iff.
  - change (String.substring 2 9 (String a (String b digits)))
      with (String.substring 0 9 digits).
    apply all_chars_substring.
    apply all_chars_impl with is_base36; [|done].
    intros c. unfold is_base36, is_alnum. by intros ->.
Qed.

(** They are none exactly when the random number printed as ["0"]. *)
Lemma random_suffix_empty (r : string) :
  is_random36 r = true → String.substring 2 9 r = "" ↔ r = "0".
Proof.
  destruct r as [|a [|b digits]]; try done.
  - simpl. intros Ha%bool_decide_eq_true. by subst.
  - intros H. apply andb_true_iff in H as [H _].
    apply andb_true_iff in H as [_ Hne].
    apply negb_true_iff, bool_decide_eq_false in Hne.
    destruct digits as [|c digits]; [done|].
    change (String.substring 2 9 (String a (String b (String c digits))))
      with (String c (String.substring 0 8 digits)).
    by split.
Qed.

Lemma skip_while_digits (d rest : string) :
  all_chars is_digit d = true →
  skip_while is_digit (d +:+ String "_" rest) = String "_" rest.
Proof.
  induction d as [|c d IH]; [done|].
  intros [Hc Hd]%andb_true_iff.
  change (String c d +:+ String "_" rest)
    with (String c (d +:+ String "_" rest)).
  simpl. rewrite Hc. by apply IH.
Qed.

(** After [post_], digits and an underscore, the pattern asks for
    alphanumeric characters, one at least. *)
Lemma is_post_id_intro (d suffix : string) :
  all_chars is_digit d = true → d ≠ "" →
  all_chars is_alnum suffix = true →
  is_post_id ("post_" +:+ d +:+ "_" +:+ suffix)
  = negb (bool_decide (suffix = "")).
Proof.
  intros Hd Hne Hs.
  change ("post_" +:+ d +:+ "_" +:+ suffix)
    with (String "p" (String "o" (String "s" (String "t"
            (String "_" (d +:+ String "_" suffix)))))).
  cbn [is_post_id]. rewrite skip_while_digits by done.
  destruct d as [|c d]; [done|].
  apply andb_true_iff in Hd as [Hc _].
  change (String c d +:+ String "_" suffix)
    with (String c (d +:+ String "_" suffix)).
  cbn iota. rewrite Hc. destruct suffix as [|c' suffix]; [done|].
  simpl in Hs. by rewrite Hs.
Qed.

(** The generated id has the shape of the pattern unless the random number
    was exactly zero, in which case nothing follows the second underscore. *)
Lemma new_post_id_shape clk :
  is_random36 (Math_random_36 clk) = true →
  is_post_id (new_post_id clk)
  = negb (bool_decide (Math_random_36 clk = "0")).
Proof.
  intros Hr. unfold new_post_id.
  destruct (pretty_N_digits (Date_now clk)) as [Hd Hne].
  rewrite is_post_id_intro; [|done..|by apply random_suffix_alnum].
  f_equal. apply bool_decide_ext. by apply random_suffix_empty.
Qed.

Example new_post_id_demo :
  new_post_id Demo.clk = "post_1730505600000_4fzyo82mv"
  ∧ is_post_id (new_post_id Demo.clk) = true
  ∧ new_post_id Demo.clk_zero = "post_1730505600000_"
  ∧ is_post_id (new_post_id Demo.clk_zero) = false
  ∧ is_post_id "post_42_" = false
  ∧ is_post_id "post_42_a" = true
  ∧ is_post_id "post__abc" = false
  ∧ is_post_id "post_12_a-b" = false.
Proof. by vm_compute. Qed.

(** A stored record is what Get Post returns. *)
Lemma getPost_stored req s post :
  s !! ("posts:" +:+ req_param req "id") = Some post →
  JS.truthy (Some post) = true →
  run (getPost req) s = (s, Json post 200).
Proof.
  intros Hget Htruthy. unfold getPost. unfold_handler.
  by rewrite Hget, Htruthy.
Qed.

(** C7, as amended: for an authenticated caller, Create Post with the body
    [{title: "T", content: "<p>hi</p>", tags: ["x","y"]}] answers with a
    record, and Get Post on its id returns the record with the title,
    content and tags of the body. The id is [post_], the digits of
    [Date.now()], an underscore and the characters 2 to 10 of
    [Math.random().toString(36)]. It matches [post_<digits>_<alnum>], with
    one alphanumeric character at least, whenever the random number is not
    exactly zero; for zero the id ends with the underscore and does not
    match. *)
Theorem createPost_getPost_roundtrip rt clk req req' s user :
  verifyAuth rt (req_header req "Authorization") = Some user →
  req_json req = Ok roundtrip_body →
  is_random36 (Math_random_36 clk) = true →
  ∃ created id s',
    run (createPost rt clk req) s = (s', Json created 200)
    ∧ JS.opt_member (Some created) "id" = Some (JStr id)
    ∧ id = "post_" +:+ pretty (Date_now clk) +:+ "_"
             +:+ String.substring 2 9 (Math_random_36 clk)
    ∧ (Math_random_36 clk ≠ "0" → is_post_id id = true)
    ∧ (Math_random_36 clk = "0" →
       id = "post_" +:+ pretty (Date_now clk) +:+ "_" ∧ is_post_id id = false)
    ∧ (req_param req' "id" = id →
       ∃ fetched,
         run (getPost req') s' = (s', Json fetched 200)
         ∧ JS.opt_member (Some fetched) "id" = Some (JStr id)
         ∧ JS.opt_member (Some fetched) "title" = Some (JStr "T")
         ∧ JS.opt_member (Some fetched) "content" = Some (JStr "<p>hi</p>")
         ∧ JS.opt_member (Some fetched) "tags"
           = Some (JArr [JStr "x"; JStr "y"])).
Proof.
  intros Hauth Hbody Hrandom.
  destruct (newPost_fields clk s user roundtrip_body
              (Some (JStr "<p>hi</p>")))
    as (post & Hnew & Htruthy & Hid & Htitle & Hcontent & _ & Htags & _);
    [discriminate | done |].
  exists post, (new_post_id clk), (<["posts:" +:+ new_post_id clk := post]> s).
  split; [by apply createPost_accepted with user roundtrip_body|].
  split; [done|]. split; [done|].
  split; [|split].
  - intros Hnz. rewrite new_post_id_shape by done.
    by rewrite bool_decide_eq_false_2.
  - intros Hz. split.
    + unfold new_post_id. by rewrite Hz.
    + rewrite new_post_id_shape by done. by rewrite bool_decide_eq_true_2.
  - intros Hparam. exists post. split.
    + apply getPost_stored; [|done]. rewrite Hparam. apply lookup_insert_eq.
    + by rewrite Hid, Htitle, Hcontent, Htags.
Qed.

Lemma createPost_getPost_roundtrip_witness :
  ∃ created id s',
    run (createPost Demo.rt Demo.clk
           (Demo.mkreq Demo.as_alice "" [] (Ok roundtrip_body))) Demo.store
    = (s', Json created 200)
    ∧ JS.opt_member (Some created) "id" = Some (JStr id)
    ∧ id = "post_" +:+ pretty (Date_now Demo.clk) +:+ "_"
             +:+ String.substring 2 9 (Math_random_36 Demo.clk)
    ∧ (Math_random_36 Demo.clk ≠ "0" → is_post_id id = true)
    ∧ (Math_random_36 Demo.clk = "0" →
       id = "post_" +:+ pretty (Date_now Demo.clk) +:+ "_"
       ∧ is_post_id id = false)
    ∧ (req_param (Demo.mkreq None (new_post_id Demo.clk) [] Throw) "id" = id →
       ∃ fetched,
         run (getPost (Demo.mkreq None (new_post_id Demo.clk) [] Throw)) s'
         = (s', Json fetched 200)
         ∧ JS.opt_member (Some fetched) "id" = Some (JStr id)
         ∧ JS.opt_member (Some fetched) "title" = Some (JStr "T")
         ∧ JS.opt_member (Some fetched) "content" = Some (JStr "<p>hi</p>")
         ∧ JS.opt_member (Some fetched) "tags"
           = Some (JArr [JStr "x"; JStr "y"])).
Proof.
  apply (createPost_getPost_roundtrip Demo.rt Demo.clk
           (Demo.mkreq Demo.as_alice "" [] (Ok roundtrip_body))
           (Demo.mkreq None (new_post_id Demo.clk) [] Throw)
           Demo.store Demo.alice).
  - by vm_compute.
  - done.
  - by vm_compute.
Defined.

(** C7 as stated fails when [Math.random()] returns exactly [0]: its
    base-36 string is ["0"], [substr(2, 9)] of it is empty, and the
    round-trip scenario creates the post [post_1730505600000_], whose id has
    no alphanumeric part; Get Post returns it under that id. *)
Lemma createPost_id_without_alnum :
  is_random36 (Math_random_36 Demo.clk_zero) = true
  ∧ ∃ s' created fetched,
      run (createPost Demo.rt Demo.clk_zero
             (Demo.mkreq Demo.as_alice "" [] (Ok roundtrip_body))) Demo.store
      = (s', Json created 200)
      ∧ JS.opt_member (Some created) "id" = Some (JStr "post_1730505600000_")
      ∧ is_post_id "post_1730505600000_" = false
      ∧ run (getPost (Demo.mkreq None "post_1730505600000_" [] Throw)) s'
        = (s', Json fetched 200)
      ∧ JS.opt_member (Some fetched) "id" = Some (JStr "post_1730505600000_").
Proof.
  split; [done|].
  destruct (newPost_fields Demo.clk_zero Demo.store Demo.alice roundtrip_body
              (Some (JStr "<p>hi</p>")))
    as (post & Hnew & Htruthy & Hid & _); [discriminate | done |].
  exists (<["posts:" +:+ new_post_id Demo.clk_zero := post]> Demo.store),
    post, post.
  split; [by apply createPost_accepted with Demo.alice roundtrip_body|].
  split; [exact Hid|]. split; [by vm_compute|]. split; [|exact Hid].
  apply getPost_stored; [|done]. apply lookup_insert_eq.
Qed.

(** ** Filtering and sorting *)

Section callbacks_facts.
Context {A : Type}.
Implicit Types (f : A → result jsval) (cmp : A → A → result (option Z)).
Implicit Types (l : list A).

(** A filter that does not throw is the filter of the list library. *)
Lemma filter_Ok f l l' :
  JS.filter f l = Ok l' → l' = List.filter (JS.passes f) l.
Proof.
  revert l'. induction l as [|x l IH]; intros l'; simpl.
  - by intros [= <-].
  - unfold JS.passes at 1. destruct (f x) as [b|]; simpl; [|done].
    destruct (JS.filter f l) as [r|]; simpl; [|done].
    intros [= <-]. rewrite <- (IH r eq_refl). by destruct (JS.truthy b).
Qed.

Lemma filter_total f l :
  (∀ x, x ∈ l → ∃ b, f x = Ok b) →
  JS.filter f l = Ok (List.filter (JS.passes f) l).
Proof.
  induction l as [|x l IH]; intros Hall; simpl; [done|].
  destruct (Hall x) as [b Hb]; [by left|].
  unfold JS.passes at 1. rewrite Hb. simpl.
  rewrite IH by (intros y Hy; apply Hall; by right). simpl.
  by destruct (JS.truthy b).
Qed.

Lemma filter_elem f l l' x :
  JS.filter f l = Ok l' → x ∈ l' ↔ x ∈ l ∧ JS.passes f x = true.
Proof.
  intros ->%filter_Ok. rewrite !list_elem_of_In. apply List.filter_In.
Qed.

Lemma filter_throw f l x : x ∈ l → f x = Throw → JS.filter f l = Throw.
Proof.
  induction l as [|y l IH]; simpl; [by intros ?%elem_of_nil|].
  intros [->|Hx]%elem_of_cons Hf.
  - by rewrite Hf.
  - rewrite (IH Hx Hf). by destruct (f y).
Qed.

Lemma insert_Permutation cmp x l l' :
  JS.insert cmp x l = Ok l' → l' ≡ₚ x :: l.
Proof.
  revert l'. induction l as [|y l IH]; intros l'; simpl.
  - by intros [= <-].
  - destruct (cmp x y) as [c|]; simpl; [|done].
    destruct (JS.positive c); [|by intros [= <-]].
    destruct (JS.insert cmp x l) as [r|]; simpl; [|done].
    intros [= <-]. rewrite (IH r eq_refl). apply perm_swap.
Qed.

(** Sorting rearranges: the result has the elements of the argument. *)
Lemma sort_Permutation cmp l l' : JS.sort cmp l = Ok l' → l' ≡ₚ l.
Proof.
  revert l'. induction l as [|x l IH]; intros l'; simpl.
  - by intros [= <-].
  - destruct (JS.sort cmp l) as [r|]; simpl; [|done].
    intros ->%insert_Permutation. by rewrite (IH r eq_refl).
Qed.

Lemma insert_total cmp x l :
  (∀ y, y ∈ l → ∃ c, cmp x y = Ok c) → ∃ l', JS.insert cmp x l = Ok l'.
Proof.
  induction l as [|y l IH]; intros Hall; simpl; [by eexists|].
  destruct (Hall y) as [c ->]; [by left|]. simpl.
  destruct (JS.positive c); [|by eexists].
  destruct IH as [r ->]; [intros z Hz; apply Hall; by right|].
  by eexists.
Qed.

(** A comparator that does not throw on the elements of the list gives a
    sorted list. *)
Lemma sort_total cmp l :
  (∀ x y, x ∈ l → y ∈ l → ∃ c, cmp x y = Ok c) → ∃ l', JS.sort cmp l = Ok l'.
Proof.
  induction l as [|x l IH]; intros Hall; simpl; [by eexists|].
  destruct IH as [r Hr]; [intros y z Hy Hz; apply Hall; by right|].
  rewrite Hr. simpl. apply insert_total.
  intros y Hy. apply Hall; [by left|].
  right. by rewrite <- (sort_Permutation _ _ _ Hr).
Qed.

End callbacks_facts.

Lemma filter_if_given_elem q (f : string → json → result jsval) l l' x :
  filter_if_given q f l = Ok l' → x ∈ l' → x ∈ l.
Proof.
  unfold filter_if_given. destruct q as [v|]; [|by intros [= <-]].
  case_bool_decide; [by intros [= <-]|].
  intros Hf Hx. by apply (filter_elem _ _ _ _ Hf) in Hx as [? _].
Qed.

Lemma passes_is_published p :
  JS.passes is_published p = true
  ↔ JS.member p "status" = Ok (Some (JStr "published")).
Proof.
  unfold JS.passes, is_published.
  destruct (JS.member p "status") as [st|]; simpl; [|done].
  rewrite eq_str_true. split; congruence.
Qed.

Lemma passes_is_featured p :
  JS.passes is_featured p = true
  ↔ JS.member p "featured" = Ok (Some (JBool true)).
Proof.
  unfold JS.passes, is_featured.
  destruct (JS.member p "featured") as [[[| [] | | | |]|]|]; simpl;
    split; congruence.
Qed.

(** The posts of the store that the prefix scan returns. *)
Lemma elem_of_getByPrefix prefix (s : kv.store) v :
  v ∈ kv.getByPrefix prefix s
  ↔ ∃ key, s !! key = Some v ∧ String.prefix prefix key = true.
Proof.
  unfold kv.getByPrefix. rewrite list_elem_of_fmap. split.
  - intros ([key v'] & -> & [Hp Hin%elem_of_map_to_list]%list_elem_of_filter).
    by exists key.
  - intros (key & Hget & Hp). exists (key, v). split; [done|].
    apply list_elem_of_filter. split; [done|]. by apply elem_of_map_to_list.
Qed.

(** ** Listing posts *)

Lemma member_non_null p k :
  p ≠ JNull → JS.member p k = Ok (JS.opt_member (Some p) k).
Proof. by destruct p. Qed.

(** The listing reads the store and leaves it as it is; it answers with the
    sorted result of the filters, or with 500 when a callback throws. *)
Lemma listPosts_run rt req (s : kv.store) :
  run (listPosts rt req) s
  = (s,
     match
       (let? qs := earlier_filters rt req (kv.getByPrefix "posts:" s) in
        let? fs := featured_filter req qs in
        JS.sort (newest_first rt) fs)%result
     with
     | Ok rs => Json (JArr rs) 200
     | Throw => InternalError
     end).
Proof.
  unfold listPosts. unfold_handler.
  destruct (earlier_filters rt req _) as [qs|]; simpl; [|done].
  destruct (featured_filter req qs) as [fs|]; simpl; [|done].
  by destruct (JS.sort (newest_first rt) fs).
Qed.

Lemma featured_filter_elem req qs fs p :
  featured_filter req qs = Ok fs → p ∈ fs → p ∈ qs.
Proof.
  unfold featured_filter. case_bool_decide; [|by intros [= <-]].
  intros Hf Hp. by apply (filter_elem _ _ _ _ Hf) in Hp as [? _].
Qed.

(** Without a caller identity, every post that leaves the earlier filters
    has passed the visibility filter. *)
Lemma earlier_filters_anonymous rt req posts qs p :
  verifyAuth rt (req_header req "Authorization") = None →
  earlier_filters rt req posts = Ok qs →
  p ∈ qs →
  p ∈ posts ∧ JS.member p "status" = Ok (Some (JStr "published")).
Proof.
  intros Hanon. unfold earlier_filters. rewrite Hanon. simpl.
  destruct (JS.filter is_published posts) as [q1|] eqn:H1; simpl; [|done].
  destruct (filter_if_given (req_query req "category") _ q1)
    as [q2|] eqn:H2; simpl; [|done].
  destruct (filter_if_given (req_query req "tag") _ q2)
    as [q3|] eqn:H3; simpl; [|done].
  intros H4 Hp.
  apply (filter_if_given_elem _ _ _ _ _ H4) in Hp.
  apply (filter_if_given_elem _ _ _ _ _ H3) in Hp.
  apply (filter_if_given_elem _ _ _ _ _ H2) in Hp.
  apply (filter_elem _ _ _ _ H1) in Hp as [Hin Hpass].
  split; [done | by apply passes_is_published].
Qed.

(** The comparators of the listings throw on [null] records and on a
    [createdAt] that [new Date] cannot convert, and only there. *)
Lemma date_time_total rt (record : json) :
  date_converts record = true →
  date_time rt (JS.opt_member (Some record) "createdAt")
  = Ok (created_time rt record).
Proof.
  unfold date_converts, date_time, created_time.
  by destruct (JS.to_primitive _).
Qed.

Lemma newest_first_total rt a b :
  a ≠ JNull → b ≠ JNull →
  date_converts a = true → date_converts b = true →
  ∃ c, newest_first rt a b = Ok c.
Proof.
  intros Ha Hb Hda Hdb. unfold newest_first.
  rewrite !member_non_null by done. cbn [result_bind].
  rewrite !date_time_total by done. by eexists.
Qed.

(** Without a caller identity the earlier filters are the visibility
    filter followed by the filters of the query parameters. *)
Lemma earlier_filters_anonymous_split rt req posts :
  verifyAuth rt (req_header req "Authorization") = None →
  earlier_filters rt req posts
  = (let? visible := JS.filter is_published posts in
     query_filters rt req visible)%result.
Proof. intros Hanon. unfold earlier_filters, query_filters. by rewrite Hanon. Qed.

Lemma filter_is_published posts :
  (∀ p, p ∈ posts → p ≠ JNull) →
  JS.filter is_published posts
  = Ok (List.filter (JS.passes is_published) posts).
Proof.
  intros Hnn. apply filter_total. intros p Hp. unfold is_published.
  rewrite member_non_null by auto. by eexists.
Qed.

(** On records that are not [null] and whose [createdAt] converts, the
    featured filter and the sort do not throw. *)
Lemma featured_sort_total rt req qs :
  (∀ p, p ∈ qs → p ≠ JNull ∧ date_converts p = true) →
  ∃ fs rs, featured_filter req qs = Ok fs
           ∧ JS.sort (newest_first rt) fs = Ok rs.
Proof.
  intros Hqs.
  assert (∃ fs, featured_filter req qs = Ok fs ∧ ∀ p, p ∈ fs → p ∈ qs)
    as (fs & Hfs & Hsub).
  { unfold featured_filter. case_bool_decide; [|by eexists].
    rewrite filter_total.
    - eexists. split; [reflexivity|].
      intros p Hp%list_elem_of_In%List.filter_In.
      apply list_elem_of_In, Hp.
    - intros p Hp. unfold is_featured.
      rewrite member_non_null by (by apply Hqs). by eexists. }
  destruct (sort_total (newest_first rt) fs) as [rs Hrs].
  { intros x y Hx%Hsub%Hqs Hy%Hsub%Hqs.
    apply newest_first_total; tauto. }
  by exists fs, rs.
Qed.

(** C4: for every store and every List Posts request without a caller
    identity, the handler leaves the store as it is and answers either with
    500 (a callback threw) or with an array in which every element is a
    stored post whose status is [published]; none has the status [draft].
    The visibility filter runs before the other filters: when no stored
    post is [null], the answer is the one that the filters of the query
    parameters, the featured filter and the sort give on the published
    posts alone, so that a post that is not published never reaches them;
    a stored [null] makes the visibility filter throw, and the answer is
    500 whatever the other filters are. Without [category], [tag] and
    [search] parameters, on posts that are not [null] and whose [createdAt],
    when they are published, is a value that [new Date] converts, the
    answer is an array. *)
Theorem listPosts_anonymous_published rt req (s : kv.store) :
  verifyAuth rt (req_header req "Authorization") = None →
  (∃ r,
     run (listPosts rt req) s = (s, r)
     ∧ (r = InternalError
        ∨ ∃ rs,
            r = Json (JArr rs) 200
            ∧ ∀ p, p ∈ rs →
                p ∈ kv.getByPrefix "posts:" s
                ∧ JS.member p "status" = Ok (Some (JStr "published"))
                ∧ JS.member p "status" ≠ Ok (Some (JStr "draft"))))
  ∧ ((∀ p, p ∈ kv.getByPrefix "posts:" s → p ≠ JNull) →
     run (listPosts rt req) s
     = (s,
        match
          (let? qs :=
             query_filters rt req
               (List.filter (JS.passes is_published)
                  (kv.getByPrefix "posts:" s)) in
           let? fs := featured_filter req qs in
           JS.sort (newest_first rt) fs)%result
        with
        | Ok rs => Json (JArr rs) 200
        | Throw => InternalError
        end))
  ∧ (JNull ∈ kv.getByPrefix "posts:" s →
     run (listPosts rt req) s = (s, InternalError))
  ∧ (req_query req "category" = None →
     req_query req "tag" = None →
     req_query req "search" = None →
     (∀ p, p ∈ kv.getByPrefix "posts:" s → p ≠ JNull) →
     (∀ p, p ∈ kv.getByPrefix "posts:" s →
           JS.member p "status" = Ok (Some (JStr "published")) →
           date_converts p = true) →
     ∃ rs, run (listPosts rt req) s = (s, Json (JArr rs) 200)).
Proof.
  intros Hanon. split; [|split; [|split]].
  - rewrite listPosts_run. eexists. split; [reflexivity|].
    destruct (earlier_filters rt req _) as [qs|] eqn:Hqs; simpl; [|by left].
    destruct (featured_filter req qs) as [fs|] eqn:Hfs; simpl; [|by left].
    destruct (JS.sort (newest_first rt) fs) as [rs|] eqn:Hrs; [|by left].
    right. exists rs. split; [done|]. intros p Hp.
    rewrite (sort_Permutation _ _ _ Hrs) in Hp.
    apply (featured_filter_elem _ _ _ _ Hfs) in Hp.
    destruct (earlier_filters_anonymous _ _ _ _ _ Hanon Hqs Hp) as [Hin Hst].
    split; [done|]. split; [done|]. rewrite Hst. discriminate.
  - intros Hnn. rewrite listPosts_run.
    rewrite earlier_filters_anonymous_split by done.
    by rewrite filter_is_published.
  - intros Hnull. rewrite listPosts_run.
    rewrite earlier_filters_anonymous_split by done.
    by rewrite (filter_throw is_published _ JNull Hnull).
  - intros Hc Ht Hs Hnn Hdate. rewrite listPosts_run.
    rewrite earlier_filters_anonymous_split by done.
    rewrite filter_is_published by done.
    unfold query_filters. rewrite Hc, Ht, Hs. cbn [result_bind filter_if_given].
    destruct (featured_sort_total rt req
                (List.filter (JS.passes is_published)
                   (kv.getByPrefix "posts:" s))) as (fs & rs & -> & Hrs).
    { intros p [Hp Hpub]%list_elem_of_In%List.filter_In.
      apply list_elem_of_In in Hp. split; [by apply Hnn|].
      apply Hdate; [done|]. by apply passes_is_published. }
    cbn [result_bind]. rewrite Hrs. by eexists.
Qed.

Lemma listPosts_anonymous_published_witness :
  ∃ rs,
    run (listPosts Demo.rt (Demo.mkreq Demo.anonymous "" [] Throw)) Demo.store
    = (Demo.store, Json (JArr rs) 200).
Proof.
  destruct (listPosts_anonymous_published Demo.rt
              (Demo.mkreq Demo.anonymous "" [] Throw) Demo.store)
    as (_ & _ & _ & Htotal); [by vm_compute|].
  apply Htotal; [done..| |].
  - intros p (key & Hget & _)%elem_of_getByPrefix ->.
    revert Hget. unfold Demo.store.
    rewrite !lookup_insert, lookup_empty.
    repeat case_decide; discriminate.
  - intros p (key & Hget & _)%elem_of_getByPrefix _.
    revert Hget. unfold Demo.store.
    rewrite !lookup_insert, lookup_empty.
    repeat case_decide; intros [= <-]; by vm_compute.
Defined.

(** C9, as amended: the [featured] query parameter is a switch. Whenever
    the listing answers with an array, the earlier filters have not thrown,
    and: when the parameter is the string [true], a post is in the array
    exactly when it survives the earlier filters and its [featured] property
    is [true]; for every other value of the parameter, [false] included, and
    without the parameter, the array holds exactly the posts that survive
    the earlier filters. The listing does answer with an array when the
    earlier filters do not throw and every post that survives them is not
    [null] and has a [createdAt] that [new Date] converts. *)
Theorem listPosts_featured rt req (s : kv.store) :
  (∀ s' rs st,
     run (listPosts rt req) s = (s', Json (JArr rs) st) →
     ∃ qs,
       earlier_filters rt req (kv.getByPrefix "posts:" s) = Ok qs
       ∧ (req_query req "featured" = Some "true" →
          ∀ p, p ∈ rs
               ↔ p ∈ qs ∧ JS.member p "featured" = Ok (Some (JBool true)))
       ∧ (req_query req "featured" ≠ Some "true" → ∀ p, p ∈ rs ↔ p ∈ qs))
  ∧ (∀ qs,
       earlier_filters rt req (kv.getByPrefix "posts:" s) = Ok qs →
       (∀ p, p ∈ qs → p ≠ JNull ∧ date_converts p = true) →
       ∃ rs, run (listPosts rt req) s = (s, Json (JArr rs) 200)).
Proof.
  split.
  - intros s' rs st. rewrite listPosts_run.
    destruct (earlier_filters rt req _) as [qs|]; simpl; [|done].
    destruct (featured_filter req qs) as [fs|] eqn:Hfs; simpl; [|done].
    destruct (JS.sort (newest_first rt) fs) as [rs'|] eqn:Hrs; [|done].
    intros Heq. assert (rs' = rs) as -> by congruence.
    exists qs. split; [done|].
    pose proof (sort_Permutation _ _ _ Hrs) as Hperm.
    unfold featured_filter in Hfs. split; intros Hq p; rewrite Hperm.
    + rewrite bool_decide_eq_true_2 in Hfs by done.
      rewrite (filter_elem _ _ _ p Hfs). by rewrite passes_is_featured.
    + rewrite bool_decide_eq_false_2 in Hfs by done. by injection Hfs as <-.
  - intros qs Hqs Hall. rewrite listPosts_run, Hqs. cbn [result_bind].
    destruct (featured_sort_total rt req qs Hall) as (fs & rs & -> & Hrs).
    cbn [result_bind]. rewrite Hrs. by eexists.
Qed.

Lemma listPosts_featured_witness :
  ∃ rs,
    run (listPosts Demo.rt
           (Demo.mkreq Demo.as_bob "" [("featured", "true")] Throw)) Demo.store
    = (Demo.store, Json (JArr rs) 200)
    ∧ ∀ p, p ∈ rs
           ↔ p ∈ [Demo.p1; Demo.p2]
             ∧ JS.member p "featured" = Ok (Some (JBool true)).
Proof.
  destruct (listPosts_featured Demo.rt
              (Demo.mkreq Demo.as_bob "" [("featured", "true")] Throw)
              Demo.store) as [Hcond Htotal].
  destruct (Htotal [Demo.p1; Demo.p2]) as [rs Hrun].
  - by vm_compute.
  - intros p [->|[->|[]%elem_of_nil]%elem_of_cons]%elem_of_cons;
      by vm_compute.
  - exists rs. split; [exact Hrun|].
    destruct (Hcond _ _ _ Hrun) as (qs & Hqs & Htrue & _).
    assert (qs = [Demo.p1; Demo.p2]) as ->.
    { assert (earlier_filters Demo.rt
                (Demo.mkreq Demo.as_bob "" [("featured", "true")] Throw)
                (kv.getByPrefix "posts:" Demo.store)
              = Ok [Demo.p1; Demo.p2]) as Heq by (by vm_compute).
      congruence. }
    apply Htrue. by vm_compute.
Defined.

(** C9 as stated fails for [featured=false]: the listing then returns the
    posts whose [featured] is [true] as well, here [p1]. *)
Lemma listPosts_featured_false_unfiltered :
  ∃ rs,
    (run (listPosts Demo.rt
            (Demo.mkreq Demo.anonymous "" [("featured", "false")] Throw))
       Demo.store).2
    = Json (JArr rs) 200
    ∧ Demo.p1 ∈ rs
    ∧ JS.member Demo.p1 "featured" = Ok (Some (JBool true))
    ∧ JS.member Demo.p1 "featured" ≠ Ok (Some (JBool false)).
Proof.
  exists [Demo.p1]. split; [by vm_compute|]. split; [by left|].
  split; [by vm_compute | vm_compute; discriminate].
Qed.

(** ** Listing categories and tags *)

Lemma same_value_zero_eq x y : JS.same_value_zero x y = true → x = y.
Proof.
  destruct x, y; simpl; try done.
  - by intros ->%bool_decide_eq_true.
  - by intros ->%Z.eqb_eq.
  - by intros ->%bool_decide_eq_true.
Qed.

Lemma elem_of_set_add (st : list json) x y :
  y ∈ st ∨ y = x → y ∈ JS.set_add st x.
Proof.
  unfold JS.set_add. destruct (existsb _ st) eqn:Hex.
  - intros [Hy| ->]; [done|].
    apply existsb_exists in Hex as (z & Hz & ->%same_value_zero_eq).
    by apply list_elem_of_In.
  - rewrite elem_of_app, list_elem_of_singleton. tauto.
Qed.

Lemma elem_of_foldl_set_add (l st : list json) y :
  y ∈ st ∨ y ∈ l → y ∈ foldl JS.set_add st l.
Proof.
  revert st. induction l as [|x l IH]; intros st; simpl.
  - by intros [?|?%elem_of_nil].
  - intros [Hy|[->|Hy]%elem_of_cons]; apply IH; auto using elem_of_set_add.
Qed.

(** Walking through a post keeps what the set holds and adds the elements
    of the post's array. *)
Lemma add_field_elem field (st st' : list json) post y :
  add_field field st post = Ok st' →
  y ∈ st ∨ (∃ l, JS.member post field = Ok (Some (JArr l)) ∧ y ∈ l) →
  y ∈ st'.
Proof.
  unfold add_field. destruct (JS.member post field) as [v|]; simpl; [|done].
  destruct (JS.truthy v) eqn:Htruthy.
  - destruct v as [[| | | |l|]|]; try done. intros [= <-] [Hy|(l' & [= <-] & Hy)];
      apply elem_of_foldl_set_add; auto.
  - intros [= <-] [Hy|(l & [= ->] & Hy)]; [done|]. done.
Qed.

Lemma forEach_add_field_elem field posts (st st' : list json) y :
  JS.forEach (add_field field) st posts = Ok st' →
  y ∈ st
  ∨ (∃ post l,
       post ∈ posts ∧ JS.member post field = Ok (Some (JArr l)) ∧ y ∈ l) →
  y ∈ st'.
Proof.
  revert st. induction posts as [|post posts IH]; intros st; simpl.
  - intros [= <-] [Hy|(post & l & []%elem_of_nil & _)]. done.
  - destruct (add_field field st post) as [st1|] eqn:H1; simpl; [|done].
    intros Hrest Hy. apply (IH st1 Hrest).
    destruct Hy as [Hy|(p & l & [->|Hp]%elem_of_cons & Hl & Hy)].
    + left. apply (add_field_elem _ _ _ _ _ H1). by left.
    + left. apply (add_field_elem _ _ _ _ _ H1). right. by exists l.
    + right. by exists p, l.
Qed.

Lemma forEach_add_field_total field posts (st : list json) :
  (∀ post, post ∈ posts → lists_field field post = true) →
  ∃ st', JS.forEach (add_field field) st posts = Ok st'.
Proof.
  revert st. induction posts as [|post posts IH]; intros st Hall; simpl.
  - by eexists.
  - assert (∃ st1, add_field field st post = Ok st1) as [st1 ->].
    { specialize (Hall post (list_elem_of_here _ _)).
      unfold lists_field in Hall. unfold add_field.
      destruct (JS.member post field) as [v|]; simpl; [|done].
      destruct (JS.truthy v); [|by eexists].
      destruct v as [[| | | |l|]|]; try done. by eexists. }
    simpl. apply IH. intros p Hp. apply Hall. by right.
Qed.

(** The default sort does not throw on values that convert to strings. *)
Lemma sort_default_total (l : list json) :
  (∀ x, x ∈ l → converts x = true) →
  ∃ l', JS.sort JS.default_compare l = Ok l' ∧ l' ≡ₚ l.
Proof.
  intros Hall. destruct (sort_total JS.default_compare l) as [l' Hl'].
  - intros x y Hx%Hall Hy%Hall. unfold JS.default_compare, converts in *.
    destruct (JS.toString x); [|done]. destruct (JS.toString y); [|done].
    by eexists.
  - exists l'. split; [done|]. by apply sort_Permutation in Hl'.
Qed.

(** A post whose property is a truthy value other than an array stops the
    walk with an exception, and so does a [null] record. *)
Lemma add_field_throw field (st : list json) post :
  lists_field field post = false → add_field field st post = Throw.
Proof.
  unfold lists_field, add_field.
  destruct (JS.member post field) as [v|]; simpl; [|done].
  destruct (JS.truthy v); [|done].
  by destruct v as [[| | | |l|]|].
Qed.

Lemma forEach_add_field_throw field posts (st : list json) post :
  post ∈ posts → lists_field field post = false →
  JS.forEach (add_field field) st posts = Throw.
Proof.
  intros Hin Hf. revert st.
  induction posts as [|p posts IH]; intros st; [by apply elem_of_nil in Hin|].
  simpl. apply elem_of_cons in Hin as [<-|Hin].
  - by rewrite add_field_throw.
  - destruct (add_field field st p); simpl; [by apply IH | done].
Qed.

(** The body of the two listings. *)
Lemma listing_run (h : handler response) field (s : kv.store) :
  (field = "categories" ∧ h = listCategories)
  ∨ (field = "tags" ∧ h = listTags) →
  run h s
  = (s,
     match
       (let? set := JS.forEach (add_field field) []
                      (kv.getByPrefix "posts:" s) in
        JS.sort JS.default_compare set)%result
     with
     | Ok values => Json (JArr values) 200
     | Throw => InternalError
     end).
Proof.
  intros [[-> ->]|[-> ->]]; unfold listCategories, listTags; unfold_handler;
    (destruct (JS.forEach _ _ _) as [set|]; simpl; [|done]);
    by destruct (JS.sort _ set).
Qed.

(** The listing of the values of an array property over all posts: it does
    not look at the caller or at the status of a post. *)
Lemma list_field_includes (h : handler response) field (s s' : kv.store)
    key post l y values st :
  (field = "categories" ∧ h = listCategories)
  ∨ (field = "tags" ∧ h = listTags) →
  run h s = (s', Json (JArr values) st) →
  s !! key = Some post →
  String.prefix "posts:" key = true →
  JS.member post field = Ok (Some (JArr l)) →
  y ∈ l →
  s' = s ∧ y ∈ values.
Proof.
  intros Hh Hrun Hget Hprefix Hfield Hy.
  rewrite (listing_run h field s Hh) in Hrun.
  destruct (JS.forEach _ _ _) as [set|] eqn:Hset; simpl in Hrun; [|done].
  destruct (JS.sort _ set) as [sorted|] eqn:Hsort; [|done].
  assert (s' = s ∧ values = sorted) as [-> ->] by (split; congruence).
  split; [done|]. rewrite (sort_Permutation _ _ _ Hsort).
  apply (forEach_add_field_elem _ _ _ _ _ Hset). right.
  exists post, l. split; [|done]. apply elem_of_getByPrefix. by exists key.
Qed.

Lemma getByPrefix_insert prefix (s : kv.store) key v p :
  p ∈ kv.getByPrefix prefix (<[key := v]> s) →
  p = v ∨ p ∈ kv.getByPrefix prefix s.
Proof.
  rewrite !elem_of_getByPrefix. intros (k & Hget & Hp).
  destruct (decide (key = k)) as [->|Hne].
  - rewrite lookup_insert_eq in Hget. left. congruence.
  - rewrite lookup_insert_ne in Hget by done. right. by exists k.
Qed.

(** What a walk has collected comes from the set it started with or from
    the array of a post. *)
Lemma foldl_set_add_elem (l st : list json) y :
  y ∈ foldl JS.set_add st l → y ∈ st ∨ y ∈ l.
Proof.
  revert st. induction l as [|x l IH]; intros st; simpl; [by left|].
  intros [Hy|Hy]%IH; [|right; by right].
  unfold JS.set_add in Hy. destruct (existsb _ st); [by left|].
  apply elem_of_app in Hy as [Hy|Hy%list_elem_of_singleton]; [by left|].
  right. subst. by left.
Qed.

Lemma forEach_add_field_source field posts (st st' : list json) y :
  JS.forEach (add_field field) st posts = Ok st' →
  y ∈ st' →
  y ∈ st
  ∨ ∃ post l,
      post ∈ posts ∧ JS.member post field = Ok (Some (JArr l)) ∧ y ∈ l.
Proof.
  revert st. induction posts as [|post posts IH]; intros st; simpl.
  - intros [= <-] Hy. by left.
  - destruct (add_field field st post) as [st1|] eqn:H1; simpl; [|done].
    intros Hrest Hy.
    destruct (IH st1 Hrest Hy) as [Hy1|(p & l & Hp & Hl & Hyl)].
    + unfold add_field in H1.
      destruct (JS.member post field) as [v|] eqn:Hv; simpl in H1; [|done].
      destruct (JS.truthy v).
      * destruct v as [[| | | |l|]|]; try done. injection H1 as <-.
        apply foldl_set_add_elem in Hy1 as [Hy1|Hy1]; [by left|].
        right. exists post, l. split; [by left | done].
      * injection H1 as <-. by left.
    + right. exists p, l. split; [by right | done].
Qed.

(** The listing answers with an array when every post has a property that
    can be walked and whose elements convert to strings. *)
Lemma listing_total (h : handler response) field (s : kv.store) :
  (field = "categories" ∧ h = listCategories)
  ∨ (field = "tags" ∧ h = listTags) →
  (∀ p, p ∈ kv.getByPrefix "posts:" s →
        lists_field field p = true ∧ field_converts field p = true) →
  ∃ values, run h s = (s, Json (JArr values) 200).
Proof.
  intros Hh Hall. rewrite (listing_run h field s Hh).
  destruct (forEach_add_field_total field (kv.getByPrefix "posts:" s) [])
    as [st Hst]; [intros p Hp; by apply Hall|].
  rewrite Hst. cbn [result_bind].
  destruct (sort_default_total st) as (values & -> & _); [|by eexists].
  intros x Hx.
  destruct (forEach_add_field_source _ _ _ _ _ Hst Hx)
    as [[]%elem_of_nil|(p & l & Hp & Hl & Hxl)].
  destruct (Hall p Hp) as [_ Hconv]. unfold field_converts in Hconv.
  rewrite Hl in Hconv. rewrite forallb_forall in Hconv.
  by apply Hconv, list_elem_of_In.
Qed.

(** C5, as amended: the Categories and Tags listings take no caller
    identity and do not look at the status of a post. Whenever the listing
    answers with an array, every category or tag of a stored post with
    status [draft] is in the array, whoever asks; and storing a draft post
    with a category or tag that the listing did not show changes the answer
    of the listing. The listing answers 500, not an array, when some stored
    post has a [categories] ([tags]) property that is truthy and not an
    array; it answers with an array when every stored post has one that is
    absent, falsy or an array whose elements convert to strings. *)
Theorem listings_ignore_status field h (s : kv.store) key fs l c :
  (field = "categories" ∧ h = listCategories)
  ∨ (field = "tags" ∧ h = listTags) →
  String.prefix "posts:" key = true →
  JS.lookup "status" fs = Some (JStr "draft") →
  JS.lookup field fs = Some (JArr l) →
  c ∈ l →
  (s !! key = Some (JObj fs) →
   ∀ s' values st,
     run h s = (s', Json (JArr values) st) → s' = s ∧ c ∈ values)
  ∧ (s !! key = None →
     ∀ before,
       run h s = (s, Json (JArr before) 200) →
       c ∉ before →
       (run h (<[key := JObj fs]> s)).2 ≠ Json (JArr before) 200
       ∧ ∀ s' after st,
           run h (<[key := JObj fs]> s) = (s', Json (JArr after) st) →
           c ∈ after ∧ after ≠ before)
  ∧ ((∃ p, p ∈ kv.getByPrefix "posts:" s ∧ lists_field field p = false) →
     run h s = (s, InternalError))
  ∧ ((∀ p, p ∈ kv.getByPrefix "posts:" s →
           lists_field field p = true ∧ field_converts field p = true) →
     ∃ values, run h s = (s, Json (JArr values) 200)).
Proof.
  intros Hh Hprefix _ Hfield Hc.
  assert (JS.member (JObj fs) field = Ok (Some (JArr l))) as Hmember.
  { simpl. by rewrite Hfield. }
  assert (∀ s' after st,
            run h (<[key := JObj fs]> s) = (s', Json (JArr after) st) →
            c ∈ after) as Hafter.
  { intros s' after st Hrun.
    destruct (list_field_includes h field (<[key := JObj fs]> s) s' key
                (JObj fs) l c after st) as [_ Hin]; try done.
    apply lookup_insert_eq. }
  split; [|split; [|split]].
  - intros Hget s' values st Hrun.
    by apply (list_field_includes h field s s' key (JObj fs) l c values st).
  - intros Hfresh before _ Hnot. split.
    + destruct (run h (<[key := JObj fs]> s)) as [s' r] eqn:Hrun.
      simpl. intros ->. by apply Hnot, (Hafter s' before 200%nat).
    + intros s' after st Hrun. split; [by apply (Hafter s' after st)|].
      intros ->. by apply Hnot, (Hafter s' before st).
  - intros (p & Hp & Hf). rewrite (listing_run h field s Hh).
    by rewrite (forEach_add_field_throw field _ [] p Hp Hf).
  - by apply listing_total.
Qed.

Lemma listings_ignore_status_witness :
  ∃ values,
    run listCategories Demo.store = (Demo.store, Json (JArr values) 200)
    ∧ JStr "A" ∈ values.
Proof.
  destruct (listings_ignore_status "categories" listCategories Demo.store
              "posts:p2" Demo.p2_fields [JStr "A"; JStr "B"] (JStr "A"))
    as (Hlisted & _ & _ & Htotal).
  - by left.
  - by vm_compute.
  - by vm_compute.
  - by vm_compute.
  - by left.
  - destruct Htotal as [values Hrun].
    + intros p (key & Hget & _)%elem_of_getByPrefix.
      revert Hget. unfold Demo.store.
      rewrite !lookup_insert, lookup_empty.
      repeat case_decide; intros [= <-]; by vm_compute.
    + exists values. split; [exact Hrun|].
      apply (Hlisted ltac:(by vm_compute) _ _ _ Hrun).
Defined.

(** C5 as stated fails on a store that holds a post whose [categories] is
    the string ["abc"] (Create Post stores it as sent): the category [A]
    occurs on the draft [p2] only, and the listing answers 500, so that no
    result includes it. *)
Lemma listCategories_no_result :
  Demo.store_with_p3 !! "posts:p2" = Some Demo.p2
  ∧ JS.member Demo.p2 "status" = Ok (Some (JStr "draft"))
  ∧ JS.member Demo.p2 "categories" = Ok (Some (JArr [JStr "A"; JStr "B"]))
  ∧ (run listCategories Demo.store_with_p3).2 = InternalError
  ∧ ∀ values st,
      (run listCategories Demo.store_with_p3).2 ≠ Json (JArr values) st.
Proof.
  assert ((run listCategories Demo.store_with_p3).2 = InternalError) as Hrun
    by (by vm_compute).
  split; [by vm_compute|]. split; [by vm_compute|]. split; [by vm_compute|].
  split; [done|]. intros values st. by rewrite Hrun.
Qed.

(** The category [A] is on the draft [p2] only: an anonymous caller sees it
    in the listing as soon as the draft is stored. *)
Example listCategories_draft_observable :
  (run listCategories (delete "posts:p2" Demo.store)).2
  = Json (JArr [JStr "B"]) 200
  ∧ (run listCategories Demo.store).2 = Json (JArr [JStr "A"; JStr "B"]) 200
  ∧ (run listTags (delete "posts:p2" Demo.store)).2
    = Json (JArr [JStr "x"]) 200
  ∧ (run listTags Demo.store).2 = Json (JArr [JStr "x"; JStr "y"]) 200
  ∧ JS.member Demo.p2 "status" = Ok (Some (JStr "draft")).
Proof. by vm_compute. Qed.

(** ** More on the callbacks: searching and the order of a sort *)

Section order_facts.
Context {A : Type}.
Implicit Types (f : A → result jsval) (cmp : A → A → result (option Z)).
Implicit Types (l : list A) (R : A → A → Prop).

Lemma find_Some f l x :
  JS.find f l = Ok (Some x) → x ∈ l ∧ JS.passes f x = true.
Proof.
  induction l as [|y l IH]; simpl; [done|].
  destruct (f y) as [b|] eqn:Hb; simpl; [|done].
  destruct (JS.truthy b) eqn:Ht.
  - intros [= <-]. split; [by left|]. unfold JS.passes. by rewrite Hb.
  - intros [Hin Hp]%IH. split; [by right | done].
Qed.

Lemma find_first f l x :
  JS.find f l = Ok (Some x) →
  ∃ l1 l2, l = l1 ++ x :: l2 ∧ ∀ y, y ∈ l1 → JS.passes f y = false.
Proof.
  induction l as [|y l IH]; simpl; [done|].
  destruct (f y) as [b|] eqn:Hb; simpl; [|done].
  destruct (JS.truthy b) eqn:Ht.
  - intros [= <-]. exists [], l. split; [done|]. by intros ? ?%elem_of_nil.
  - intros (l1 & l2 & -> & Hl1)%IH. exists (y :: l1), l2. split; [done|].
    intros z [->|Hz]%elem_of_cons; [|by apply Hl1].
    unfold JS.passes. by rewrite Hb.
Qed.

Lemma find_None f l :
  JS.find f l = Ok None → ∀ x, x ∈ l → JS.passes f x = false.
Proof.
  induction l as [|y l IH]; simpl; [by intros _ x ?%elem_of_nil|].
  destruct (f y) as [b|] eqn:Hb; simpl; [|done].
  destruct (JS.truthy b) eqn:Ht; [done|].
  intros Hrest x [->|Hx]%elem_of_cons; [|by apply IH].
  unfold JS.passes. by rewrite Hb.
Qed.

Lemma find_total f l :
  (∀ x, x ∈ l → ∃ b, f x = Ok b) → ∃ r, JS.find f l = Ok r.
Proof.
  induction l as [|y l IH]; intros Hall; simpl; [by eexists|].
  destruct (Hall y) as [b ->]; [by left|]. simpl.
  destruct (JS.truthy b); [by eexists|].
  apply IH. intros x Hx. apply Hall. by right.
Qed.

Lemma insert_head cmp x l l' :
  JS.insert cmp x l = Ok l' →
  l' = x :: l ∨ ∃ y l0 r, l = y :: l0 ∧ l' = y :: r.
Proof.
  destruct l as [|y l0]; simpl; [intros [= <-]; by left|].
  destruct (cmp x y) as [c|]; simpl; [|done].
  destruct (JS.positive c); [|intros [= <-]; by left].
  destruct (JS.insert cmp x l0) as [r|]; simpl; [|done].
  intros [= <-]. right. by exists y, l0, r.
Qed.

Lemma insert_Sorted cmp R x l l' :
  (∀ y c, y ∈ l → cmp x y = Ok c →
          if JS.positive c then R y x else R x y) →
  Sorted R l → JS.insert cmp x l = Ok l' → Sorted R l'.
Proof.
  revert l'. induction l as [|y l IH]; intros l' Hcmp Hsorted; simpl.
  - intros [= <-]. by repeat constructor.
  - destruct (cmp x y) as [c|] eqn:Hc; simpl; [|done].
    specialize (Hcmp y c (list_elem_of_here _ _) Hc) as Hxy.
    destruct (JS.positive c).
    + destruct (JS.insert cmp x l) as [r|] eqn:Hr; simpl; [|done].
      intros [= <-]. apply Sorted_inv in Hsorted as [Hl Hhd].
      constructor.
      * apply IH; [|done..]. intros z c' Hz. apply Hcmp. by right.
      * destruct (insert_head _ _ _ _ Hr) as [->|(z & l0 & r0 & -> & ->)].
        -- by constructor.
        -- constructor. by apply HdRel_inv in Hhd.
    + intros [= <-]. constructor; [done | by constructor].
Qed.

(** When the sign of the comparator decides a relation either way, the
    sorted list is in that relation from each element to the next. *)
Lemma sort_Sorted cmp R l l' :
  (∀ x y c, x ∈ l → y ∈ l → cmp x y = Ok c →
            if JS.positive c then R y x else R x y) →
  JS.sort cmp l = Ok l' → Sorted R l'.
Proof.
  revert l'. induction l as [|x l IH]; intros l' Hcmp; simpl.
  - intros [= <-]. constructor.
  - destruct (JS.sort cmp l) as [r|] eqn:Hr; simpl; [|done].
    apply insert_Sorted.
    + intros y c Hy. apply Hcmp; [by left|].
      right. by rewrite <- (sort_Permutation _ _ _ Hr).
    + apply IH; [|done]. intros y z c Hy Hz. apply Hcmp; by right.
Qed.

End order_facts.

(** ** Accounts: signup and the lookups of users *)

(** The outcome of signup on a body that is not [null], by the three
    cases of the handler. *)
Lemma signup_run createUser clk req (s : kv.store) body :
  req_json req = Ok body →
  body ≠ JNull →
  run (signup createUser clk req) s
  = if negb (JS.truthy (JS.opt_member (Some body) "email"))
       || negb (JS.truthy (JS.opt_member (Some body) "password"))
       || negb (JS.truthy (JS.opt_member (Some body) "username"))
    then (s, Json (error_body "Email, password, and username are required") 400)
    else
      match createUser (JS.opt_member (Some body) "email")
              (JS.opt_member (Some body) "password")
              (JS.opt_member (Some body) "username") with
      | CreateError message =>
          (s, Json (JObj (JS.literal [("error", message)])) 400)
      | Created userId =>
          (<["users:" +:+ userId :=
               newUser clk userId (JS.opt_member (Some body) "email")
                 (JS.opt_member (Some body) "username")
                 (JS.opt_member (Some body) "avatar")]> s,
           Json (JObj [("message", JStr "User created successfully");
                       ("userId", JStr userId)]) 200)
      end.
Proof.
  intros Hbody Hnn. unfold signup. unfold_handler.
  rewrite Hbody, !member_non_null by done.
  destruct (negb _ || negb _ || negb _); [done|].
  by destruct (createUser _ _ _).
Qed.

Lemma newUser_fields clk userId (email username avatar : jsval) :
  JS.opt_member (Some (newUser clk userId email username avatar)) "id"
  = Some (JStr userId)
  ∧ JS.opt_member (Some (newUser clk userId email username avatar)) "email"
    = email
  ∧ JS.opt_member (Some (newUser clk userId email username avatar)) "username"
    = username
  ∧ JS.opt_member (Some (newUser clk userId email username avatar)) "role"
    = Some (JStr "user")
  ∧ JS.opt_member (Some (newUser clk userId email username avatar)) "bio"
    = Some (JStr "").
Proof.
  unfold newUser. cbn [JS.opt_member].
  rewrite !lookup_literal_cons. eval_key_tests. simpl.
  repeat split; try reflexivity.
  - by destruct email.
  - by destruct username.
Qed.

(** X1: a signup whose JSON body is not [null] and lacks a truthy email,
    password or username answers 400 whatever the identity provider would
    say; a signup that the identity provider refuses answers 400 with the
    provider's message; a signup whose body is [null] answers 500, the
    reading of [email] throwing. In the three cases the store is left as it
    was. *)
Theorem signup_refused createUser clk req (s : kv.store) body :
  req_json req = Ok body →
  (body ≠ JNull →
   JS.truthy (JS.opt_member (Some body) "email")
   && JS.truthy (JS.opt_member (Some body) "password")
   && JS.truthy (JS.opt_member (Some body) "username") = false →
   run (signup createUser clk req) s
   = (s, Json (error_body "Email, password, and username are required") 400))
  ∧ (∀ message,
       body ≠ JNull →
       JS.truthy (JS.opt_member (Some body) "email")
       && JS.truthy (JS.opt_member (Some body) "password")
       && JS.truthy (JS.opt_member (Some body) "username") = true →
       createUser (JS.opt_member (Some body) "email")
         (JS.opt_member (Some body) "password")
         (JS.opt_member (Some body) "username") = CreateError message →
       run (signup createUser clk req) s
       = (s, Json (JObj (JS.literal [("error", message)])) 400))
  ∧ (body = JNull → run (signup createUser clk req) s = (s, InternalError)).
Proof.
  intros Hbody. split; [|split].
  - intros Hnn Hfalse. rewrite (signup_run _ _ _ _ _ Hbody Hnn).
    destruct (JS.truthy (JS.opt_member (Some body) "email")),
      (JS.truthy (JS.opt_member (Some body) "password")),
      (JS.truthy (JS.opt_member (Some body) "username")); done.
  - intros message Hnn Htruthy Hcreate.
    rewrite (signup_run _ _ _ _ _ Hbody Hnn).
    apply andb_true_iff in Htruthy as [[-> ->]%andb_true_iff ->].
    by rewrite Hcreate.
  - intros ->. unfold signup. unfold_handler. by rewrite Hbody.
Qed.

Lemma signup_refused_witness :
  run (signup Demo.createUser Demo.clk
         (Demo.mkreq None "" []
            (Ok (JObj [("email", JStr "carol@example.org");
                       ("password", JStr "")]))))
    Demo.store
  = (Demo.store,
     Json (error_body "Email, password, and username are required") 400).
Proof.
  destruct (signup_refused Demo.createUser Demo.clk
              (Demo.mkreq None "" []
                 (Ok (JObj [("email", JStr "carol@example.org");
                            ("password", JStr "")])))
              Demo.store
              (JObj [("email", JStr "carol@example.org");
                     ("password", JStr "")])) as (Hmissing & _); [done|].
  apply Hmissing; [discriminate | by vm_compute].
Defined.

(** The body [null] on the three routes that destructure the body before
    any check of its content. *)
Example null_body_demo :
  (run (signup Demo.createUser Demo.clk (Demo.mkreq None "" [] (Ok JNull)))
     Demo.store).2 = InternalError
  ∧ (run (createComment Demo.rt Demo.clk
            (Demo.mkreq Demo.as_bob "" [] (Ok JNull))) Demo.store).2
    = InternalError
  ∧ (run (adminSetRole Demo.rt (Demo.mkreq Demo.as_bob "nobody" [] (Ok JNull)))
       Demo.store_with_admin).2 = InternalError
  ∧ (run (adminSetRole Demo.rt
            (Demo.mkreq Demo.as_bob "nobody" [] (Ok (JObj []))))
       Demo.store_with_admin).2 = Json (error_body "User not found") 404.
Proof. by vm_compute. Qed.

(** X2: a signup that the identity provider accepts stores, under the id
    the provider gave, a record with that id, the email and username of the
    body, an empty bio and the role [user], whatever else the body holds (a
    [role] in the body is not read); Get User on that id returns the record,
    and the new user does not pass the admin check. *)
Theorem signup_then_getUser createUser clk req req' (s : kv.store) body userId :
  req_json req = Ok body →
  body ≠ JNull →
  JS.truthy (JS.opt_member (Some body) "email") = true →
  JS.truthy (JS.opt_member (Some body) "password") = true →
  JS.truthy (JS.opt_member (Some body) "username") = true →
  createUser (JS.opt_member (Some body) "email")
    (JS.opt_member (Some body) "password")
    (JS.opt_member (Some body) "username") = Created userId →
  req_param req' "id" = userId →
  ∃ record,
    run (signup createUser clk req) s
    = (<["users:" +:+ userId := record]> s,
       Json (JObj [("message", JStr "User created successfully");
                   ("userId", JStr userId)]) 200)
    ∧ run (getUser req') (<["users:" +:+ userId := record]> s)
      = (<["users:" +:+ userId := record]> s, Json record 200)
    ∧ JS.opt_member (Some record) "id" = Some (JStr userId)
    ∧ JS.opt_member (Some record) "email" = JS.opt_member (Some body) "email"
    ∧ JS.opt_member (Some record) "username"
      = JS.opt_member (Some body) "username"
    ∧ JS.opt_member (Some record) "bio" = Some (JStr "")
    ∧ JS.opt_member (Some record) "role" = Some (JStr "user")
    ∧ ¬ is_admin (<["users:" +:+ userId := record]> s)
          {| user_id := userId; user_email := None |}.
Proof.
  intros Hbody Hnn He Hp Hu Hcreate Hid.
  rewrite (signup_run _ _ _ _ _ Hbody Hnn), He, Hp, Hu. cbn [negb orb].
  rewrite Hcreate. eexists. split; [reflexivity|].
  destruct (newUser_fields clk userId (JS.opt_member (Some body) "email")
              (JS.opt_member (Some body) "username")
              (JS.opt_member (Some body) "avatar"))
    as (Hi & Hem & Hun & Hrole & Hbio).
  split.
  - unfold getUser. unfold_handler. by rewrite Hid, lookup_insert_eq.
  - repeat split; try done.
    unfold is_admin. cbn [user_id]. rewrite lookup_insert_eq, Hrole.
    discriminate.
Qed.

Lemma signup_then_getUser_witness :
  ∃ record,
    run (getUser (Demo.mkreq None "u-carol" [] Throw))
      (<["users:u-carol" := record]> Demo.store)
    = (<["users:u-carol" := record]> Demo.store, Json record 200)
    ∧ JS.opt_member (Some record) "role" = Some (JStr "user").
Proof.
  destruct (signup_then_getUser Demo.createUser Demo.clk
              (Demo.mkreq None "" []
                 (Ok (JObj [("email", JStr "carol@example.org");
                            ("password", JStr "secret1");
                            ("username", JStr "carol");
                            ("role", JStr "admin")])))
              (Demo.mkreq None "u-carol" [] Throw)
              Demo.store
              (JObj [("email", JStr "carol@example.org");
                     ("password", JStr "secret1");
                     ("username", JStr "carol");
                     ("role", JStr "admin")])
              "u-carol")
    as (record & _ & Hget & _ & _ & _ & _ & Hrole & _).
  - done.
  - discriminate.
  - by vm_compute.
  - by vm_compute.
  - by vm_compute.
  - by vm_compute.
  - done.
  - exists record. split; [exact Hget | exact Hrole].
Defined.

Lemma passes_has_email email u :
  JS.passes (has_email email) u = true
  ↔ JS.opt_member (Some u) "email" = Some (JStr email) ∧ u ≠ JNull.
Proof.
  unfold JS.passes, has_email. destruct u; simpl;
    try (split; [done | by intros [? ?]]).
  rewrite eq_str_true. split; [done | by intros [? _]].
Qed.

(** X3: Get User by email scans the user records in the order of the
    store and answers with the first one whose [email] is the string of the
    path; it answers 404 exactly when no record has that email. (The user
    records are not [null], so that the scan does not throw.) *)
Theorem getUserByEmail_scan req (s : kv.store) :
  (∀ u, u ∈ kv.getByPrefix "users:" s → u ≠ JNull) →
  (∃ u before after,
     run (getUserByEmail req) s = (s, Json u 200)
     ∧ kv.getByPrefix "users:" s = before ++ u :: after
     ∧ JS.opt_member (Some u) "email" = Some (JStr (req_param req "email"))
     ∧ ∀ v, v ∈ before →
            JS.opt_member (Some v) "email"
            ≠ Some (JStr (req_param req "email")))
  ∨ (run (getUserByEmail req) s = (s, Json (error_body "User not found") 404)
     ∧ ∀ u, u ∈ kv.getByPrefix "users:" s →
            JS.opt_member (Some u) "email"
            ≠ Some (JStr (req_param req "email"))).
Proof.
  intros Hnn. unfold getUserByEmail. unfold_handler.
  destruct (find_total (has_email (req_param req "email"))
              (kv.getByPrefix "users:" s)) as [[u|] Hfind].
  { intros u Hu. unfold has_email.
    rewrite member_non_null by auto. by eexists. }
  - left. rewrite Hfind.
    destruct (find_first _ _ _ Hfind) as (before & after & Hsplit & Hbefore).
    apply find_Some in Hfind as [Hin [Hemail _]%passes_has_email].
    exists u, before, after.
    assert (JS.truthy (Some u) = true) as ->.
    { destruct u; try done. }
    split; [done|]. split; [done|]. split; [done|].
    intros v Hv Hv_email. specialize (Hbefore v Hv).
    assert (JS.passes (has_email (req_param req "email")) v = true);
      [|congruence].
    apply passes_has_email. split; [done|].
    apply Hnn. rewrite Hsplit. apply elem_of_app. by left.
  - right. rewrite Hfind. split; [done|].
    intros u Hu Hemail.
    pose proof (find_None _ _ Hfind u Hu) as Hpass.
    assert (JS.passes (has_email (req_param req "email")) u = true);
      [|congruence].
    apply passes_has_email. split; [done | by apply Hnn].
Qed.

Lemma getUserByEmail_scan_witness :
  (∃ u before after,
     run (getUserByEmail (Demo.mkreq None "bob@example.org" [] Throw))
       Demo.store
     = (Demo.store, Json u 200)
     ∧ kv.getByPrefix "users:" Demo.store = before ++ u :: after
     ∧ JS.opt_member (Some u) "email" = Some (JStr "bob@example.org")
     ∧ ∀ v, v ∈ before →
            JS.opt_member (Some v) "email" ≠ Some (JStr "bob@example.org"))
  ∨ (run (getUserByEmail (Demo.mkreq None "bob@example.org" [] Throw))
       Demo.store
     = (Demo.store, Json (error_body "User not found") 404)
     ∧ ∀ u, u ∈ kv.getByPrefix "users:" Demo.store →
            JS.opt_member (Some u) "email" ≠ Some (JStr "bob@example.org")).
Proof.
  apply (getUserByEmail_scan (Demo.mkreq None "bob@example.org" [] Throw)
           Demo.store).
  intros u (key & Hget & _)%elem_of_getByPrefix ->.
  revert Hget. unfold Demo.store.
  rewrite !lookup_insert, lookup_empty.
  repeat case_decide; discriminate.
Defined.

Example getUserByEmail_found :
  (run (getUserByEmail (Demo.mkreq None "bob@example.org" [] Throw))
     Demo.store).2
  = Json (Demo.user_record Demo.bob "bob" "user") 200
  ∧ (run (getUserByEmail (Demo.mkreq None "nobody@example.org" [] Throw))
       Demo.store).2
    = Json (error_body "User not found") 404.
Proof. by vm_compute. Qed.



(** X5: an accepted Update User is a shallow merge on one key: the stored
    record has the id of the path whatever the body says, every other
    property is the one of the body when the body has it and the one of the
    record before otherwise, and no other key of the store changes, so that
    the posts and comments of the user keep the name they were written
    under. *)
Theorem updateUser_merge rt req (s : kv.store) user fs updates :
  verifyAuth rt (req_header req "Authorization") = Some user →
  req_param req "id" = user_id user →
  s !! ("users:" +:+ user_id user) = Some (JObj fs) →
  req_json req = Ok updates →
  ∃ record s',
    run (updateUser rt req) s = (s', Json record 200)
    ∧ s' !! ("users:" +:+ user_id user) = Some record
    ∧ JS.opt_member (Some record) "id" = Some (JStr (user_id user))
    ∧ (∀ k, k ≠ "id" →
            JS.opt_member (Some record) k
            = match JS.own (Some updates) k with
              | Some x => Some x
              | None => JS.lookup k fs
              end)
    ∧ (∀ key, key ≠ "users:" +:+ user_id user → s' !! key = s !! key).
Proof.
  intros Hauth Hid Hget Hbody.
  exists (updatedUser (user_id user) (JObj fs) updates),
    (<["users:" +:+ user_id user :=
         updatedUser (user_id user) (JObj fs) updates]> s).
  split; [by apply updateUser_accepted|].
  split; [apply lookup_insert_eq|]. split.
  - unfold updatedUser. simpl. apply lookup_set_eq.
  - split; [intros k Hk; by apply updatedUser_field|].
    intros key Hkey. by apply lookup_insert_ne.
Qed.

Lemma updateUser_merge_witness :
  ∃ record s',
    run (updateUser Demo.rt
           (Demo.mkreq Demo.as_alice "u-alice" []
              (Ok (JObj [("id", JStr "u-bob"); ("username", JStr "al")]))))
      Demo.store
    = (s', Json record 200)
    ∧ JS.opt_member (Some record) "id" = Some (JStr "u-alice")
    ∧ JS.opt_member (Some record) "username" = Some (JStr "al")
    ∧ JS.opt_member (s' !! "posts:p1") "authorName" = Some (JStr "u-alice").
Proof.
  destruct (updateUser_merge Demo.rt
              (Demo.mkreq Demo.as_alice "u-alice" []
                 (Ok (JObj [("id", JStr "u-bob"); ("username", JStr "al")])))
              Demo.store Demo.alice
              (Demo.user_fields Demo.alice "alice" "user")
              (JObj [("id", JStr "u-bob"); ("username", JStr "al")]))
    as (record & s' & Hrun & _ & Hid & Hfields & Hothers).
  - by vm_compute.
  - done.
  - by vm_compute.
  - done.
  - exists record, s'. split; [exact Hrun|]. split; [exact Hid|]. split.
    + by rewrite (Hfields "username").
    + rewrite (Hothers "posts:p1") by discriminate. by vm_compute.
Defined.

(** ** Posts: what the write handlers refuse, stamp and remove *)

Lemma deletePost_accepted rt req (s : kv.store) user cur :
  verifyAuth rt (req_header req "Authorization") = Some user →
  exists_at s ("posts:" +:+ req_param req "id") cur →
  is_author user cur ∨ is_admin s user →
  run (deletePost rt req) s
  = (delete ("posts:" +:+ req_param req "id") s,
     Json (message_body "Post deleted successfully") 200).
Proof.
  intros Hauth [Hget Htruthy] Hmay.
  unfold deletePost. unfold_handler.
  rewrite Hauth, Hget, Htruthy, (member_truthy _ _ Htruthy).
  by rewrite not_author_nor_admin_false.
Qed.

(** X6: after an accepted Delete Post the post is gone and nothing else
    is: Get Post and Like Post on its id answer 404, and every other key of
    the store holds what it held. *)
Theorem deletePost_then_not_found rt req req' (s : kv.store) user cur :
  verifyAuth rt (req_header req "Authorization") = Some user →
  exists_at s ("posts:" +:+ req_param req "id") cur →
  is_author user cur ∨ is_admin s user →
  req_param req' "id" = req_param req "id" →
  ∃ s',
    run (deletePost rt req) s
    = (s', Json (message_body "Post deleted successfully") 200)
    ∧ run (getPost req') s' = (s', Json (error_body "Post not found") 404)
    ∧ run (likePost req') s' = (s', Json (error_body "Post not found") 404)
    ∧ ∀ key, key ≠ "posts:" +:+ req_param req "id" → s' !! key = s !! key.
Proof.
  intros Hauth Hcur Hmay Hid.
  exists (delete ("posts:" +:+ req_param req "id") s).
  split; [by apply deletePost_accepted with user cur|].
  split; [|split].
  - unfold getPost. unfold_handler. by rewrite Hid, lookup_delete_eq.
  - unfold likePost. unfold_handler. by rewrite Hid, lookup_delete_eq.
  - intros key Hkey. by apply lookup_delete_ne.
Qed.

Lemma deletePost_then_not_found_witness :
  ∃ s',
    run (deletePost Demo.rt (Demo.mkreq Demo.as_alice "p1" [] Throw)) Demo.store
    = (s', Json (message_body "Post deleted successfully") 200)
    ∧ run (getPost (Demo.mkreq None "p1" [] Throw)) s'
      = (s', Json (error_body "Post not found") 404)
    ∧ s' !! "posts:p2" = Some Demo.p2.
Proof.
  destruct (deletePost_then_not_found Demo.rt
              (Demo.mkreq Demo.as_alice "p1" [] Throw)
              (Demo.mkreq None "p1" [] Throw) Demo.store Demo.alice Demo.p1)
    as (s' & Hrun & Hget & _ & Hothers).
  - by vm_compute.
  - split; by vm_compute.
  - left. by vm_compute.
  - done.
  - exists s'. split; [exact Hrun|]. split; [exact Hget|].
    rewrite (Hothers "posts:p2") by discriminate. by vm_compute.
Defined.

(** X7: the write handlers of posts write nothing for a caller without
    identity or for an id without a post: Create, Update and Delete Post
    answer 401 when the identity provider has no user for the request, and
    Update and Delete Post answer 404 when no post is stored under the id;
    the store is the one before the request. *)
Theorem post_write_unauthorized_or_missing rt clk req (s : kv.store) :
  (verifyAuth rt (req_header req "Authorization") = None →
   run (createPost rt clk req) s
   = (s, Json (error_body "Unauthorized - please log in to create posts") 401)
   ∧ run (updatePost rt clk req) s = (s, Json (error_body "Unauthorized") 401)
   ∧ run (deletePost rt req) s = (s, Json (error_body "Unauthorized") 401))
  ∧ (∀ user,
       verifyAuth rt (req_header req "Authorization") = Some user →
       JS.truthy (s !! ("posts:" +:+ req_param req "id")) = false →
       run (updatePost rt clk req) s
       = (s, Json (error_body "Post not found") 404)
       ∧ run (deletePost rt req) s
         = (s, Json (error_body "Post not found") 404)).
Proof.
  split.
  - intros Hanon. unfold createPost, updatePost, deletePost. unfold_handler.
    by rewrite Hanon.
  - intros user Hauth Hfalsy.
    unfold updatePost, deletePost. unfold_handler. rewrite Hauth.
    destruct (s !! _) as [v|]; [|done]. by rewrite Hfalsy.
Qed.

Lemma post_write_unauthorized_or_missing_witness :
  run (updatePost Demo.rt Demo.clk
         (Demo.mkreq Demo.as_alice "p404" [] (Ok (JObj [])))) Demo.store
  = (Demo.store, Json (error_body "Post not found") 404)
  ∧ run (deletePost Demo.rt
           (Demo.mkreq Demo.as_alice "p404" [] (Ok (JObj [])))) Demo.store
    = (Demo.store, Json (error_body "Post not found") 404).
Proof.
  destruct (post_write_unauthorized_or_missing Demo.rt Demo.clk
              (Demo.mkreq Demo.as_alice "p404" [] (Ok (JObj []))) Demo.store)
    as [_ Hmissing].
  apply (Hmissing Demo.alice); by vm_compute.
Defined.

(** The properties of a new post that the server decides. *)
Lemma newPost_stamps clk user (userData : jsval) postData post :
  newPost clk user userData postData = Ok post →
  JS.opt_member (Some post) "id" = Some (JStr (new_post_id clk))
  ∧ JS.opt_member (Some post) "authorId" = Some (JStr (user_id user))
  ∧ JS.opt_member (Some post) "authorName"
    = JS.or (JS.opt_member userData "username") (JStr <$> user_email user)
  ∧ JS.opt_member (Some post) "likes" = Some (JNum 0)
  ∧ JS.opt_member (Some post) "status"
    = Some (JS.or_val (JS.opt_member (Some postData) "status")
              (JStr "published"))
  ∧ JS.opt_member (Some post) "featured"
    = Some (JS.or_val (JS.opt_member (Some postData) "featured")
              (JBool false))
  ∧ JS.opt_member (Some post) "createdAt"
    = Some (JStr (Date_toISOString clk 0)).
Proof.
  unfold newPost.
  assert (postData = JNull ∨ postData ≠ JNull) as [->|Hnn]
    by (destruct postData; first [by left | by right]); [done|].
  rewrite !member_non_null by done. cbn [result_bind].
  destruct (if JS.truthy _ then _ else _) as [excerpt|]; [|done].
  cbn [result_bind].
  assert (∀ a b : json, Ok a = Ok b → a = b) as Hinj by (by intros ?? [= ->]).
  intros <-%Hinj. clear Hinj.
  generalize (JS.opt_member (Some postData) "title") as title.
  generalize (JS.opt_member (Some postData) "content") as content.
  generalize (JS.opt_member (Some postData) "image") as image.
  generalize (JS.opt_member (Some postData) "tags") as tags.
  generalize (JS.opt_member (Some postData) "categories") as categories.
  generalize (JS.opt_member (Some postData) "status") as status.
  generalize (JS.opt_member (Some postData) "featured") as featured.
  generalize (JS.or (JS.opt_member userData "username")
                (JStr <$> user_email user)) as authorName.
  intros. cbn [JS.opt_member]. rewrite !lookup_literal_cons.
  eval_key_tests. simpl. repeat split; try reflexivity.
  by destruct authorName.
Qed.

(** X8: whatever the body of an accepted Create Post says, the server
    decides the id, the author and the counter of the new post: [authorId]
    is the caller's id, [authorName] the username of the caller's record at
    that moment (the caller's email when there is none), [likes] is 0; a
    body without a truthy [status] or [featured] gives [published] and
    [false]. The post is stored under its id, and no other key changes. *)
Theorem createPost_server_fields rt clk req (s s' : kv.store) user post :
  verifyAuth rt (req_header req "Authorization") = Some user →
  run (createPost rt clk req) s = (s', Json post 200) →
  ∃ postData,
    req_json req = Ok postData
    ∧ s' = <["posts:" +:+ new_post_id clk := post]> s
    ∧ JS.opt_member (Some post) "id" = Some (JStr (new_post_id clk))
    ∧ JS.opt_member (Some post) "authorId" = Some (JStr (user_id user))
    ∧ JS.opt_member (Some post) "authorName"
      = JS.or (JS.opt_member (s !! ("users:" +:+ user_id user)) "username")
          (JStr <$> user_email user)
    ∧ JS.opt_member (Some post) "likes" = Some (JNum 0)
    ∧ JS.opt_member (Some post) "status"
      = Some (JS.or_val (JS.opt_member (Some postData) "status")
                (JStr "published"))
    ∧ JS.opt_member (Some post) "featured"
      = Some (JS.or_val (JS.opt_member (Some postData) "featured")
                (JBool false)).
Proof.
  intros Hauth. unfold createPost. unfold_handler. rewrite Hauth.
  destruct (req_json req) as [postData|]; [|done].
  destruct (newPost clk user _ postData) as [p|] eqn:Hnew; [|done].
  intros [= <- <-]. exists postData.
  destruct (newPost_stamps _ _ _ _ _ Hnew)
    as (Hid & Hauthor & Hname & Hlikes & Hstatus & Hfeatured & _).
  by repeat split.
Qed.

Lemma createPost_server_fields_witness :
  ∃ post,
    run (createPost Demo.rt Demo.clk
           (Demo.mkreq Demo.as_bob "" []
              (Ok (JObj [("title", JStr "T"); ("authorId", JStr "u-alice");
                         ("likes", JNum 100)]))))
      Demo.store
    = (<["posts:" +:+ new_post_id Demo.clk := post]> Demo.store, Json post 200)
    ∧ JS.opt_member (Some post) "authorId" = Some (JStr "u-bob")
    ∧ JS.opt_member (Some post) "likes" = Some (JNum 0).
Proof.
  destruct (newPost_fields Demo.clk Demo.store Demo.bob
              (JObj [("title", JStr "T"); ("authorId", JStr "u-alice");
                     ("likes", JNum 100)]) None)
    as (post & Hnew & _); [discriminate | done |].
  assert (run (createPost Demo.rt Demo.clk
                 (Demo.mkreq Demo.as_bob "" []
                    (Ok (JObj [("title", JStr "T");
                               ("authorId", JStr "u-alice");
                               ("likes", JNum 100)]))))
            Demo.store
          = (<["posts:" +:+ new_post_id Demo.clk := post]> Demo.store,
             Json post 200)) as Hrun.
  { by apply createPost_accepted with Demo.bob
      (JObj [("title", JStr "T"); ("authorId", JStr "u-alice");
             ("likes", JNum 100)]). }
  destruct (createPost_server_fields Demo.rt Demo.clk
              (Demo.mkreq Demo.as_bob "" []
                 (Ok (JObj [("title", JStr "T");
                            ("authorId", JStr "u-alice");
                            ("likes", JNum 100)])))
              Demo.store
              (<["posts:" +:+ new_post_id Demo.clk := post]> Demo.store)
              Demo.bob post)
    as (postData & _ & _ & _ & Hauthor & _ & Hlikes & _).
  - by vm_compute.
  - exact Hrun.
  - exists post. split; [exact Hrun|]. split; [exact Hauthor | exact Hlikes].
Defined.

(** ** Posts: what the listing returns, and in which order *)

Lemma filter_if_given_iff q (f : string → json → result jsval) l l' x :
  filter_if_given q f l = Ok l' →
  x ∈ l' ↔ x ∈ l ∧ passes_if_given q f x = true.
Proof.
  unfold filter_if_given, passes_if_given. destruct q as [v|].
  - case_bool_decide; simpl.
    + intros [= <-]. tauto.
    + apply filter_elem.
  - intros [= <-]. tauto.
Qed.

Lemma earlier_filters_iff rt req posts qs p :
  earlier_filters rt req posts = Ok qs →
  p ∈ qs
  ↔ p ∈ posts
    ∧ visible_to (verifyAuth rt (req_header req "Authorization")) p = true
    ∧ passes_if_given (req_query req "category")
        (field_includes "categories") p = true
    ∧ passes_if_given (req_query req "tag") (field_includes "tags") p = true
    ∧ passes_if_given (req_query req "search")
        (λ search, matches_search rt (str_toLowerCase rt search)) p = true.
Proof.
  unfold earlier_filters, visible_to.
  destruct (if negb _ then _ else _) as [q1|] eqn:H1; simpl; [|done].
  destruct (filter_if_given (req_query req "category") _ q1)
    as [q2|] eqn:H2; simpl; [|done].
  destruct (filter_if_given (req_query req "tag") _ q2)
    as [q3|] eqn:H3; simpl; [|done].
  intros H4.
  rewrite (filter_if_given_iff _ _ _ _ p H4), (filter_if_given_iff _ _ _ _ p H3),
    (filter_if_given_iff _ _ _ _ p H2).
  assert (p ∈ q1
          ↔ p ∈ posts
            ∧ bool_decide (is_Some (verifyAuth rt
                                      (req_header req "Authorization")))
              || JS.passes is_published p = true) as ->; [|tauto].
  destruct (bool_decide _); simpl in *.
  - injection H1 as <-. tauto.
  - apply (filter_elem _ _ _ _ H1).
Qed.

(** The posts of an array answer of the listing: those of the store that
    pass every filter. *)
Lemma listPosts_elem rt req (s s' : kv.store) rs st p :
  run (listPosts rt req) s = (s', Json (JArr rs) st) →
  p ∈ rs
  ↔ p ∈ kv.getByPrefix "posts:" s
    ∧ visible_to (verifyAuth rt (req_header req "Authorization")) p = true
    ∧ passes_if_given (req_query req "category")
        (field_includes "categories") p = true
    ∧ passes_if_given (req_query req "tag") (field_includes "tags") p = true
    ∧ passes_if_given (req_query req "search")
        (λ search, matches_search rt (str_toLowerCase rt search)) p = true
    ∧ (req_query req "featured" = Some "true" →
       JS.passes is_featured p = true).
Proof.
  rewrite listPosts_run.
  destruct (earlier_filters rt req _) as [qs|] eqn:Hqs; simpl; [|done].
  destruct (featured_filter req qs) as [fs|] eqn:Hfs; simpl; [|done].
  destruct (JS.sort (newest_first rt) fs) as [rs'|] eqn:Hrs; [|done].
  intros [= <- <- <-].
  rewrite (sort_Permutation _ _ _ Hrs).
  pose proof (earlier_filters_iff _ _ _ _ p Hqs) as Hiff.
  unfold featured_filter in Hfs. case_bool_decide as Hq.
  - rewrite (filter_elem _ _ _ p Hfs). tauto.
  - injection Hfs as <-. tauto.
Qed.

(** X9: an array answer of List Posts holds exactly the stored posts that
    pass every filter asked for: the visibility filter for a caller without
    identity, the category, tag and search filters for the parameters that
    are present and not empty, and the featured filter for
    [featured=true]. Filters combine by conjunction, and a parameter that is
    absent or empty filters nothing. *)
Theorem listPosts_membership rt req (s s' : kv.store) rs st :
  run (listPosts rt req) s = (s', Json (JArr rs) st) →
  ∀ p,
    p ∈ rs
    ↔ p ∈ kv.getByPrefix "posts:" s
      ∧ visible_to (verifyAuth rt (req_header req "Authorization")) p = true
      ∧ passes_if_given (req_query req "category")
          (field_includes "categories") p = true
      ∧ passes_if_given (req_query req "tag") (field_includes "tags") p = true
      ∧ passes_if_given (req_query req "search")
          (λ search, matches_search rt (str_toLowerCase rt search)) p = true
      ∧ (req_query req "featured" = Some "true" →
         JS.passes is_featured p = true).
Proof. intros Hrun p. by apply listPosts_elem with s' st. Qed.

Lemma listPosts_membership_witness :
  Demo.p1
  ∈ [Demo.p1]
  ↔ Demo.p1 ∈ kv.getByPrefix "posts:" Demo.store
    ∧ visible_to
        (verifyAuth Demo.rt
           (req_header
              (Demo.mkreq Demo.anonymous "" [("category", "B"); ("tag", "")]
                 Throw) "Authorization")) Demo.p1 = true
    ∧ passes_if_given (Some "B") (field_includes "categories") Demo.p1 = true
    ∧ passes_if_given (Some "") (field_includes "tags") Demo.p1 = true
    ∧ passes_if_given None
        (λ search, matches_search Demo.rt (str_toLowerCase Demo.rt search))
        Demo.p1 = true
    ∧ (None = Some "true" → JS.passes is_featured Demo.p1 = true).
Proof.
  apply (listPosts_membership Demo.rt
           (Demo.mkreq Demo.anonymous "" [("category", "B"); ("tag", "")] Throw)
           Demo.store Demo.store [Demo.p1] 200).
  rewrite listPosts_run. by vm_compute.
Defined.

Lemma append_cons c (a b : string) : String c a +:+ b = String c (a +:+ b).
Proof. reflexivity. Qed.

Lemma prefix_spec (t s : string) :
  String.prefix t s = true ↔ ∃ b, s = t +:+ b.
Proof.
  revert s. induction t as [|c t IH]; intros s.
  - split; [intros _; by exists s | intros _; by destruct s].
  - destruct s as [|d s]; simpl.
    + split; [done | by intros [b [=]]].
    + destruct (ascii_dec c d) as [->|Hne].
      * rewrite IH. split.
        -- intros [b ->]. by exists b.
        -- intros [b Hb]. rewrite append_cons in Hb.
           injection Hb as ->. by exists b.
      * split; [done|]. intros [b Hb]. rewrite append_cons in Hb. congruence.
Qed.

(** [s.includes(t)]: [t] occurs in [s]. *)
Lemma str_includes_spec (s t : string) :
  JS.str_includes s t = true ↔ ∃ a b, s = a +:+ t +:+ b.
Proof.
  induction s as [|c s IH].
  - cbn [JS.str_includes]. rewrite orb_false_r, prefix_spec. split.
    + intros [b Hb]. by exists "", b.
    + intros (a & b & Hab). destruct a; [by exists b|done].
  - cbn [JS.str_includes]. rewrite orb_true_iff, prefix_spec, IH. split.
    + intros [[b Hb]|(a & b & ->)].
      * by exists "", b.
      * by exists (String c a), b.
    + intros ([|d a] & b & Hab).
      * left. by exists b.
      * right. rewrite append_cons in Hab. injection Hab as -> ->.
        by exists a, b.
Qed.

Lemma arr_includes_spec (l : list json) (t : string) :
  JS.arr_includes l t = true ↔ JStr t ∈ l.
Proof.
  unfold JS.arr_includes. rewrite existsb_exists. split.
  - intros (x & Hx%list_elem_of_In & Heq%eq_str_true). by injection Heq as ->.
  - intros Hin. exists (JStr t). split; [by apply list_elem_of_In|].
    by apply eq_str_true.
Qed.

(** What it takes to pass [p.categories?.includes(value)]: an array that
    holds the value, or a string in which the value occurs. *)
Lemma passes_field_includes field value p :
  JS.passes (field_includes field value) p = true
  ↔ (∃ l, JS.opt_member (Some p) field = Some (JArr l) ∧ JStr value ∈ l)
    ∨ (∃ t a b, JS.opt_member (Some p) field = Some (JStr t)
                ∧ t = a +:+ value +:+ b).
Proof.
  unfold JS.passes, field_includes.
  destruct p as [| | | | |fs]; simpl;
    try (split; [done | by intros [(? & ? & _)|(? & ? & ? & ? & _)]]).
  destruct (JS.lookup field fs) as [[| | |t|l|]|]; simpl;
    try (split; [done | by intros [(? & ? & _)|(? & ? & ? & ? & _)]]).
  - rewrite str_includes_spec. split.
    + intros (a & b & ->). right. by exists (a +:+ value +:+ b), a, b.
    + intros [(? & ? & _)|(t' & a & b & [= <-] & ->)]; [done|]. by exists a, b.
  - rewrite arr_includes_spec. split.
    + intros Hin. left. by exists l.
    + by intros [(l' & [= <-] & Hin)|(? & ? & ? & ? & _)].
Qed.

(** X10: when List Posts is asked for a category (a tag) and answers with
    an array, every post of the array has a [categories] ([tags]) array
    that holds the value as one of its elements, or a [categories] ([tags])
    string in which the value occurs; posts without the property are not
    listed. *)
Theorem listPosts_category_tag rt req (s s' : kv.store) rs st p :
  run (listPosts rt req) s = (s', Json (JArr rs) st) →
  p ∈ rs →
  (∀ value,
     req_query req "category" = Some value → value ≠ "" →
     (∃ l, JS.opt_member (Some p) "categories" = Some (JArr l)
           ∧ JStr value ∈ l)
     ∨ (∃ t a b, JS.opt_member (Some p) "categories" = Some (JStr t)
                 ∧ t = a +:+ value +:+ b))
  ∧ (∀ value,
       req_query req "tag" = Some value → value ≠ "" →
       (∃ l, JS.opt_member (Some p) "tags" = Some (JArr l) ∧ JStr value ∈ l)
       ∨ (∃ t a b, JS.opt_member (Some p) "tags" = Some (JStr t)
                   ∧ t = a +:+ value +:+ b)).
Proof.
  intros Hrun Hp.
  apply (listPosts_elem _ _ _ _ _ _ p Hrun) in Hp
    as (_ & _ & Hcat & Htag & _).
  split; intros value Hq Hne; apply passes_field_includes.
  - rewrite Hq in Hcat. simpl in Hcat.
    by rewrite bool_decide_eq_false_2 in Hcat.
  - rewrite Hq in Htag. simpl in Htag.
    by rewrite bool_decide_eq_false_2 in Htag.
Qed.

Lemma listPosts_category_tag_witness :
  (∃ l, JS.opt_member (Some Demo.p2) "categories" = Some (JArr l)
        ∧ JStr "A" ∈ l)
  ∨ (∃ t a b, JS.opt_member (Some Demo.p2) "categories" = Some (JStr t)
              ∧ t = a +:+ "A" +:+ b).
Proof.
  destruct (listPosts_category_tag Demo.rt
              (Demo.mkreq Demo.as_bob "" [("category", "A")] Throw)
              Demo.store Demo.store [Demo.p2] 200 Demo.p2) as [Hcat _].
  - rewrite listPosts_run. by vm_compute.
  - by left.
  - apply (Hcat "A"); [by vm_compute | discriminate].
Defined.

Lemma passes_lower_includes rt (v : jsval) q :
  JS.truthy (match lower_includes rt v q with Ok b => b | Throw => None end)
  = true →
  ∃ t a b, v = Some (JStr t) ∧ str_toLowerCase rt t = a +:+ q +:+ b.
Proof.
  unfold lower_includes. destruct v as [[| | |t| |]|]; simpl; try done.
  intros (a & b & Hab)%str_includes_spec. by exists t, a, b.
Qed.

(** X11: when List Posts is asked for a search text and answers with an
    array, every post of the array has a [title], [content] or [excerpt]
    string whose lower-case form contains the lower-case form of the search
    text. *)
Theorem listPosts_search rt req (s s' : kv.store) rs st p search :
  run (listPosts rt req) s = (s', Json (JArr rs) st) →
  req_query req "search" = Some search → search ≠ "" →
  p ∈ rs →
  ∃ field t a b,
    field ∈ ["title"; "content"; "excerpt"]
    ∧ JS.opt_member (Some p) field = Some (JStr t)
    ∧ str_toLowerCase rt t = a +:+ str_toLowerCase rt search +:+ b.
Proof.
  intros Hrun Hq Hne Hp.
  apply (listPosts_elem _ _ _ _ _ _ p Hrun) in Hp
    as (_ & _ & _ & _ & Hsearch & _).
  rewrite Hq in Hsearch. simpl in Hsearch.
  rewrite bool_decide_eq_false_2 in Hsearch by done. simpl in Hsearch.
  unfold JS.passes, matches_search in Hsearch.
  assert (p ≠ JNull) as Hnn by (by destruct p).
  rewrite !member_non_null in Hsearch by done. cbn [result_bind] in Hsearch.
  destruct (lower_includes rt (JS.opt_member (Some p) "title") _)
    as [a1|] eqn:H1; cbn [result_bind] in Hsearch; [|done].
  destruct (JS.truthy a1) eqn:Ht1.
  { destruct (passes_lower_includes rt (JS.opt_member (Some p) "title")
                (str_toLowerCase rt search)) as (t & a & b & Ht & Hab).
    - by rewrite H1.
    - exists "title", t, a, b. split; [by left | done]. }
  destruct (lower_includes rt (JS.opt_member (Some p) "content") _)
    as [a2|] eqn:H2; cbn [result_bind] in Hsearch; [|done].
  destruct (JS.truthy a2) eqn:Ht2.
  { destruct (passes_lower_includes rt (JS.opt_member (Some p) "content")
                (str_toLowerCase rt search)) as (t & a & b & Ht & Hab).
    - by rewrite H2.
    - exists "content", t, a, b. split; [by right; left | done]. }
  destruct (lower_includes rt (JS.opt_member (Some p) "excerpt") _)
    as [a3|] eqn:H3; [|done].
  destruct (passes_lower_includes rt (JS.opt_member (Some p) "excerpt")
              (str_toLowerCase rt search)) as (t & a & b & Ht & Hab).
  - by rewrite H3.
  - exists "excerpt", t, a, b. split; [by right; right; left | done].
Qed.

Lemma listPosts_search_witness :
  ∃ field t a b,
    field ∈ ["title"; "content"; "excerpt"]
    ∧ JS.opt_member (Some Demo.p1) field = Some (JStr t)
    ∧ Demo.lower t = a +:+ Demo.lower "HELL" +:+ b.
Proof.
  apply (listPosts_search Demo.rt
           (Demo.mkreq Demo.anonymous "" [("search", "HELL")] Throw)
           Demo.store Demo.store [Demo.p1] 200 Demo.p1 "HELL").
  - rewrite listPosts_run. by vm_compute.
  - by vm_compute.
  - discriminate.
  - by left.
Defined.

Lemma not_older_trans rt : Transitive (not_older rt).
Proof.
  intros a b c (ta & tb & Ha & Hb & Hab) (tb' & tc & Hb' & Hc & Hbc).
  exists ta, tc. split; [done|]. split; [done|].
  rewrite Hb in Hb'. injection Hb' as <-. lia.
Qed.

Lemma date_time_Ok rt v t : date_time rt v = Ok t → t = date_getTime rt v.
Proof.
  unfold date_time. destruct (JS.to_primitive v); simpl; congruence.
Qed.

Lemma newest_first_sign rt a b c :
  newest_first rt a b = Ok c →
  is_Some (created_time rt a) → is_Some (created_time rt b) →
  if JS.positive c then not_older rt b a else not_older rt a b.
Proof.
  intros Hc [ta Hta] [tb Htb]. unfold newest_first in Hc.
  assert (b ≠ JNull) as Hnb by (by intros ->).
  rewrite (member_non_null b) in Hc by done. cbn [result_bind] in Hc.
  destruct (date_time rt (JS.opt_member (Some b) "createdAt")) as [tb'|]
    eqn:Hb; cbn [result_bind] in Hc; [|done].
  apply date_time_Ok in Hb.
  assert (a ≠ JNull) as Hna by (by intros ->).
  rewrite (member_non_null a) in Hc by done. cbn [result_bind] in Hc.
  destruct (date_time rt (JS.opt_member (Some a) "createdAt")) as [ta'|]
    eqn:Ha; cbn [result_bind] in Hc; [|done].
  apply date_time_Ok in Ha.
  unfold not_older. unfold created_time in *. rewrite Ha, Hb, Hta, Htb in Hc.
  assert (c = Some (tb - ta)) as -> by congruence.
  unfold JS.positive. destruct (Z.ltb_spec 0 (tb - ta)).
  - exists tb, ta. repeat split; try done. lia.
  - exists ta, tb. repeat split; try done. lia.
Qed.

Lemma oldest_first_sign rt a b c :
  oldest_first rt a b = Ok c →
  is_Some (created_time rt a) → is_Some (created_time rt b) →
  if JS.positive c then not_older rt a b else not_older rt b a.
Proof.
  intros Hc [ta Hta] [tb Htb]. unfold oldest_first in Hc.
  assert (a ≠ JNull) as Hna by (by intros ->).
  rewrite (member_non_null a) in Hc by done. cbn [result_bind] in Hc.
  destruct (date_time rt (JS.opt_member (Some a) "createdAt")) as [ta'|]
    eqn:Ha; cbn [result_bind] in Hc; [|done].
  apply date_time_Ok in Ha.
  assert (b ≠ JNull) as Hnb by (by intros ->).
  rewrite (member_non_null b) in Hc by done. cbn [result_bind] in Hc.
  destruct (date_time rt (JS.opt_member (Some b) "createdAt")) as [tb'|]
    eqn:Hb; cbn [result_bind] in Hc; [|done].
  apply date_time_Ok in Hb.
  unfold not_older. unfold created_time in *. rewrite Ha, Hb, Hta, Htb in Hc.
  assert (c = Some (ta - tb)) as -> by congruence.
  unfold JS.positive. destruct (Z.ltb_spec 0 (ta - tb)).
  - exists ta, tb. repeat split; try done. lia.
  - exists tb, ta. repeat split; try done. lia.
Qed.

Lemma oldest_first_total rt a b :
  a ≠ JNull → b ≠ JNull →
  date_converts a = true → date_converts b = true →
  ∃ c, oldest_first rt a b = Ok c.
Proof.
  intros Ha Hb Hda Hdb. unfold oldest_first.
  rewrite !member_non_null by done. cbn [result_bind].
  rewrite !date_time_total by done. by eexists.
Qed.

(** X12: an array answer of List Posts is ordered from the newest post to
    the oldest: when [createdAt] is a valid date on every post of the
    array, no post is older than a post that comes after it. *)
Theorem listPosts_newest_first rt req (s s' : kv.store) rs st :
  run (listPosts rt req) s = (s', Json (JArr rs) st) →
  (∀ p, p ∈ rs → is_Some (created_time rt p)) →
  StronglySorted (not_older rt) rs.
Proof.
  rewrite listPosts_run.
  destruct (earlier_filters rt req _) as [qs|]; simpl; [|done].
  destruct (featured_filter req qs) as [fs|]; simpl; [|done].
  destruct (JS.sort (newest_first rt) fs) as [rs'|] eqn:Hrs; [|done].
  intros [= <- <- <-] Htimes.
  apply (@Sorted_StronglySorted _ _ (not_older_trans rt)).
  apply (sort_Sorted (newest_first rt) (not_older rt) fs rs'); [|done].
  intros a b c Ha Hb Hc. rewrite <- (sort_Permutation _ _ _ Hrs) in Ha, Hb.
  apply newest_first_sign; auto.
Qed.

Lemma listPosts_newest_first_witness :
  StronglySorted (not_older Demo.rt) [Demo.p2; Demo.p1].
Proof.
  apply (listPosts_newest_first Demo.rt (Demo.mkreq Demo.as_bob "" [] Throw)
           Demo.store Demo.store [Demo.p2; Demo.p1] 200).
  - rewrite listPosts_run. by vm_compute.
  - intros p [->|[->|[]%elem_of_nil]%elem_of_cons]%elem_of_cons;
      eexists; reflexivity.
Defined.

(** X13: Get Post checks neither the caller nor the status: a draft that
    the listing hides from a caller without identity is returned to the
    same caller by Get Post on its id. *)
Theorem draft_hidden_in_list_served_by_id rt req_list req_get (s : kv.store) fs :
  verifyAuth rt (req_header req_list "Authorization") = None →
  verifyAuth rt (req_header req_get "Authorization") = None →
  s !! ("posts:" +:+ req_param req_get "id") = Some (JObj fs) →
  JS.lookup "status" fs = Some (JStr "draft") →
  run (getPost req_get) s = (s, Json (JObj fs) 200)
  ∧ ∀ s' rs st,
      run (listPosts rt req_list) s = (s', Json (JArr rs) st) →
      JObj fs ∉ rs.
Proof.
  intros Hanon _ Hget Hdraft. split; [by apply getPost_stored|].
  intros s' rs st Hrun Hin.
  apply (listPosts_elem _ _ _ _ _ _ _ Hrun) in Hin as (_ & Hvisible & _).
  unfold visible_to in Hvisible. rewrite Hanon in Hvisible.
  rewrite bool_decide_eq_false_2 in Hvisible by (by intros [? ?]).
  simpl in Hvisible. apply passes_is_published in Hvisible.
  simpl in Hvisible. congruence.
Qed.

Lemma draft_hidden_in_list_served_by_id_witness :
  run (getPost (Demo.mkreq Demo.anonymous "p2" [] Throw)) Demo.store
  = (Demo.store, Json Demo.p2 200)
  ∧ ∀ s' rs st,
      run (listPosts Demo.rt (Demo.mkreq Demo.anonymous "" [] Throw))
        Demo.store
      = (s', Json (JArr rs) st) →
      Demo.p2 ∉ rs.
Proof.
  apply (draft_hidden_in_list_served_by_id Demo.rt
           (Demo.mkreq Demo.anonymous "" [] Throw)
           (Demo.mkreq Demo.anonymous "p2" [] Throw)
           Demo.store Demo.p2_fields); by vm_compute.
Defined.

(** ** Likes, beyond the count *)

Lemma likePost_obj req (s : kv.store) fs likes :
  s !! ("posts:" +:+ req_param req "id") = Some (JObj fs) →
  next_likes (JObj fs) = Ok likes →
  run (likePost req) s
  = (<["posts:" +:+ req_param req "id" := JObj (JS.set "likes" likes fs)]> s,
     Json (JObj [("likes", likes)]) 200).
Proof.
  intros Hget Hlikes. unfold likePost. unfold_handler.
  rewrite Hget. simpl. by rewrite Hlikes.
Qed.


(** When [(likes || 0) + 1] throws, nothing is written. *)
Lemma likePost_throw req (s : kv.store) fs :
  s !! ("posts:" +:+ req_param req "id") = Some (JObj fs) →
  next_likes (JObj fs) = Throw →
  run (likePost req) s = (s, InternalError).
Proof.
  intros Hget Hlikes. unfold likePost. unfold_handler.
  rewrite Hget. simpl. by rewrite Hlikes.
Qed.





(** A Like on a post whose [likes] is the object [{toString: 1}], as an
    Update Post can store it: the answer is 500 and the post is as
    before. *)
Example like_unconvertible_demo :
  run (likePost (Demo.mkreq None "p1" [] Throw))
    (<["posts:p1" := JObj [("likes", Demo.unconvertible)]]> Demo.store)
  = (<["posts:p1" := JObj [("likes", Demo.unconvertible)]]> Demo.store,
     InternalError).
Proof.
  apply likePost_throw with [("likes", Demo.unconvertible)];
    [apply lookup_insert_eq | done].
Qed.

(** X15: the counter of a Like is [(likes || 0) + 1] as JavaScript
    computes it: a record without [likes], or with a falsy one, gets the
    counter 1; a record whose [likes] is a non-empty string gets that
    string with the character 1 appended, not a number. A post can hold
    such a value after an Update Post whose body carries [likes]. *)
Theorem like_on_missing_or_text_counter req (s : kv.store) fs :
  s !! ("posts:" +:+ req_param req "id") = Some (JObj fs) →
  (JS.truthy (JS.lookup "likes" fs) = false →
   (run (likePost req) s).2 = Json (JObj [("likes", JNum 1)]) 200)
  ∧ (∀ text,
       JS.lookup "likes" fs = Some (JStr text) → text ≠ "" →
       (run (likePost req) s).2
       = Json (JObj [("likes", JStr (text +:+ "1"))]) 200).
Proof.
  intros Hget. split.
  - intros Hfalsy. rewrite (likePost_obj _ _ _ (JNum 1) Hget); [done|].
    unfold next_likes, JS.or_val. cbn [JS.member result_bind].
    destruct (JS.lookup "likes" fs) as [v|]; [|done]. by rewrite Hfalsy.
  - intros text Htext Hne.
    rewrite (likePost_obj _ _ _ (JStr (text +:+ "1")) Hget); [done|].
    unfold next_likes, JS.or_val. cbn [JS.member result_bind].
    rewrite Htext. simpl. by rewrite bool_decide_eq_false_2.
Qed.

Lemma like_on_missing_or_text_counter_witness :
  (run (likePost (Demo.mkreq None "p1" [] Throw))
     (<["posts:p1" := JObj [("id", JStr "p1"); ("likes", JStr "5")]]>
        Demo.store)).2
  = Json (JObj [("likes", JStr "51")]) 200.
Proof.
  destruct (like_on_missing_or_text_counter (Demo.mkreq None "p1" [] Throw)
              (<["posts:p1" := JObj [("id", JStr "p1"); ("likes", JStr "5")]]>
                 Demo.store)
              [("id", JStr "p1"); ("likes", JStr "5")]) as [_ Htext].
  - apply lookup_insert_eq.
  - apply (Htext "5"); [done | discriminate].
Defined.

(** ** Comments *)

Lemma listComments_run rt req (s : kv.store) :
  run (listComments rt req) s
  = (s,
     match
       (let? cs := JS.filter (on_post (req_param req "postId"))
                     (kv.getByPrefix "comments:" s) in
        JS.sort (oldest_first rt) cs)%result
     with
     | Ok cs => Json (JArr cs) 200
     | Throw => InternalError
     end).
Proof.
  unfold listComments. unfold_handler.
  destruct (JS.filter _ _) as [cs|]; simpl; [|done].
  by destruct (JS.sort (oldest_first rt) cs).
Qed.

Lemma passes_on_post postId c :
  JS.passes (on_post postId) c = true
  ↔ JS.member c "postId" = Ok (Some (JStr postId)).
Proof.
  unfold JS.passes, on_post.
  destruct (JS.member c "postId") as [p|]; simpl; [|done].
  rewrite eq_str_true. split; congruence.
Qed.

(** X16: List Comments answers with the stored comments whose [postId] is
    the string of the path, all of them and no other, ordered from the
    oldest to the newest when their [createdAt] are valid dates; it leaves
    the store as it is. It answers with an array whenever no stored comment
    is [null] and the [createdAt] of every comment of the post is a value
    that [new Date] converts; a stored [null] makes the answer 500. *)
Theorem listComments_result rt req (s : kv.store) :
  ((∀ c, c ∈ kv.getByPrefix "comments:" s → c ≠ JNull) →
   (∀ c, c ∈ kv.getByPrefix "comments:" s →
         JS.member c "postId" = Ok (Some (JStr (req_param req "postId"))) →
         date_converts c = true) →
   ∃ cs, run (listComments rt req) s = (s, Json (JArr cs) 200))
  ∧ (JNull ∈ kv.getByPrefix "comments:" s →
     run (listComments rt req) s = (s, InternalError))
  ∧ ∀ s' cs st,
      run (listComments rt req) s = (s', Json (JArr cs) st) →
      s' = s
      ∧ (∀ c, c ∈ cs
              ↔ c ∈ kv.getByPrefix "comments:" s
                ∧ JS.member c "postId"
                  = Ok (Some (JStr (req_param req "postId"))))
      ∧ ((∀ c, c ∈ cs → is_Some (created_time rt c)) →
         StronglySorted (flip (not_older rt)) cs).
Proof.
  rewrite listComments_run. split; [|split].
  - intros Hnn Hdate. rewrite filter_total.
    + simpl.
      destruct (sort_total (oldest_first rt)
                  (List.filter (JS.passes (on_post (req_param req "postId")))
                     (kv.getByPrefix "comments:" s))) as [cs ->];
        [|by eexists].
      intros x y Hx%list_elem_of_In%List.filter_In
                 Hy%list_elem_of_In%List.filter_In.
      destruct Hx as [Hx%list_elem_of_In Hpx%passes_on_post],
               Hy as [Hy%list_elem_of_In Hpy%passes_on_post].
      apply oldest_first_total; auto.
    + intros c Hc. unfold on_post. rewrite member_non_null by auto.
      by eexists.
  - intros Hnull.
    by rewrite (filter_throw (on_post (req_param req "postId")) _ JNull Hnull).
  - intros s' cs st.
    destruct (JS.filter _ _) as [fs|] eqn:Hfs; simpl; [|done].
    destruct (JS.sort (oldest_first rt) fs) as [cs'|] eqn:Hcs; [|done].
    intros [= <- <- <-]. split; [done|]. split.
    + intros c. rewrite (sort_Permutation _ _ _ Hcs).
      rewrite (filter_elem _ _ _ c Hfs). by rewrite passes_on_post.
    + intros Htimes.
      assert (Transitive (flip (not_older rt))) as Htrans.
      { intros a b c Hab Hbc. unfold flip in *.
        by apply (not_older_trans rt c b a). }
      apply (@Sorted_StronglySorted _ _ Htrans).
      apply (sort_Sorted (oldest_first rt) (flip (not_older rt)) fs cs');
        [|done].
      intros a b c Ha Hb Hc.
      rewrite <- (sort_Permutation _ _ _ Hcs) in Ha, Hb.
      unfold flip. by apply oldest_first_sign; auto.
Qed.

Lemma listComments_result_witness :
  ∃ cs,
    run (listComments Demo.rt
           (Demo.mkreq None "p1" [] Throw)) Demo.store
    = (Demo.store, Json (JArr cs) 200).
Proof.
  destruct (listComments_result Demo.rt
              (Demo.mkreq None "p1" [] Throw) Demo.store)
    as [Htotal _].
  apply Htotal.
  - intros c (key & Hget & _)%elem_of_getByPrefix ->.
    revert Hget. unfold Demo.store.
    rewrite !lookup_insert, lookup_empty.
    repeat case_decide; discriminate.
  - intros c (key & Hget & _)%elem_of_getByPrefix _.
    revert Hget. unfold Demo.store.
    rewrite !lookup_insert, lookup_empty.
    repeat case_decide; intros [= <-]; by vm_compute.
Defined.

Example listComments_demo :
  (run (listComments Demo.rt (Demo.mkreq None "p1" [] Throw)) Demo.store).2
  = Json (JArr [Demo.c1]) 200
  ∧ (run (listComments Demo.rt (Demo.mkreq None "p2" [] Throw)) Demo.store).2
    = Json (JArr []) 200.
Proof. by vm_compute. Qed.



Lemma createComment_run rt clk req (s : kv.store) user body :
  verifyAuth rt (req_header req "Authorization") = Some user →
  req_json req = Ok body →
  body ≠ JNull →
  run (createComment rt clk req) s
  = if negb (JS.truthy (JS.opt_member (Some body) "postId"))
       || negb (JS.truthy (JS.opt_member (Some body) "content"))
    then (s, Json (error_body "Post ID and content are required") 400)
    else
      (<["comments:" +:+ new_comment_id clk :=
           newComment clk user (s !! ("users:" +:+ user_id user))
             (JS.opt_member (Some body) "postId")
             (JS.opt_member (Some body) "content")
             (JS.opt_member (Some body) "parentId")]> s,
       Json (newComment clk user (s !! ("users:" +:+ user_id user))
               (JS.opt_member (Some body) "postId")
               (JS.opt_member (Some body) "content")
               (JS.opt_member (Some body) "parentId")) 200).
Proof.
  intros Hauth Hbody Hnn. unfold createComment. unfold_handler.
  rewrite Hauth, Hbody, !member_non_null by done.
  by destruct (negb _ || negb _).
Qed.

(** X17: Create Comment writes nothing for a caller without identity
    (401), for a JSON body other than [null] without a truthy [postId] or
    [content] (400), and for the body [null], on which reading [postId]
    throws (500): the store is the one before the request. *)
Theorem createComment_refused rt clk req (s : kv.store) :
  (verifyAuth rt (req_header req "Authorization") = None →
   run (createComment rt clk req) s
   = (s, Json (error_body "Unauthorized - please log in to comment") 401))
  ∧ (∀ user body,
       verifyAuth rt (req_header req "Authorization") = Some user →
       req_json req = Ok body →
       body ≠ JNull →
       JS.truthy (JS.opt_member (Some body) "postId")
       && JS.truthy (JS.opt_member (Some body) "content") = false →
       run (createComment rt clk req) s
       = (s, Json (error_body "Post ID and content are required") 400))
  ∧ (∀ user,
       verifyAuth rt (req_header req "Authorization") = Some user →
       req_json req = Ok JNull →
       run (createComment rt clk req) s = (s, InternalError)).
Proof.
  split; [|split].
  - intros Hanon. unfold createComment. unfold_handler. by rewrite Hanon.
  - intros user body Hauth Hbody Hnn Hfalse.
    rewrite (createComment_run _ _ _ _ _ _ Hauth Hbody Hnn).
    destruct (JS.truthy (JS.opt_member (Some body) "postId")),
      (JS.truthy (JS.opt_member (Some body) "content")); done.
  - intros user Hauth Hbody. unfold createComment. unfold_handler.
    by rewrite Hauth, Hbody.
Qed.

Lemma createComment_refused_witness :
  run (createComment Demo.rt Demo.clk
         (Demo.mkreq Demo.as_bob "" []
            (Ok (JObj [("postId", JStr "p1"); ("content", JStr "")]))))
    Demo.store
  = (Demo.store, Json (error_body "Post ID and content are required") 400).
Proof.
  destruct (createComment_refused Demo.rt Demo.clk
              (Demo.mkreq Demo.as_bob "" []
                 (Ok (JObj [("postId", JStr "p1"); ("content", JStr "")])))
              Demo.store) as (_ & Hinvalid & _).
  apply (Hinvalid Demo.bob
           (JObj [("postId", JStr "p1"); ("content", JStr "")]));
    [by vm_compute | done | discriminate | by vm_compute].
Defined.



Lemma deleteComment_accepted rt req (s : kv.store) user cur :
  verifyAuth rt (req_header req "Authorization") = Some user →
  exists_at s ("comments:" +:+ req_param req "id") cur →
  JS.opt_member (Some cur) "userId" = Some (JStr (user_id user))
  ∨ is_admin s user →
  run (deleteComment rt req) s
  = (delete ("comments:" +:+ req_param req "id") s,
     Json (message_body "Comment deleted successfully") 200).
Proof.
  intros Hauth [Hget Htruthy] Hmay.
  unfold deleteComment. unfold_handler.
  rewrite Hauth, Hget, Htruthy, (member_truthy _ _ Htruthy).
  assert (not_author_nor_admin (JS.opt_member (Some cur) "userId") user
            (s !! ("users:" +:+ user_id user)) = false) as ->; [|done].
  unfold not_author_nor_admin, is_admin in *.
  destruct Hmay as [->%eq_str_true | ->%eq_str_true]; simpl; [done|].
  apply andb_false_r.
Qed.

(** X19: Delete Comment follows the rule of Delete Post, on [userId]: a
    caller who is neither the author of the comment nor an admin gets 403
    and the store stays as it was; the author or an admin removes the
    comment, after which a Like on its id answers 404, and no other key
    changes. *)
Theorem deleteComment_rule rt req (s : kv.store) user cur :
  verifyAuth rt (req_header req "Authorization") = Some user →
  exists_at s ("comments:" +:+ req_param req "id") cur →
  (JS.opt_member (Some cur) "userId" ≠ Some (JStr (user_id user)) →
   ¬ is_admin s user →
   run (deleteComment rt req) s = (s, Json (error_body "Forbidden") 403))
  ∧ (JS.opt_member (Some cur) "userId" = Some (JStr (user_id user))
     ∨ is_admin s user →
     ∃ s',
       run (deleteComment rt req) s
       = (s', Json (message_body "Comment deleted successfully") 200)
       ∧ run (likeComment req) s'
         = (s', Json (error_body "Comment not found") 404)
       ∧ ∀ key, key ≠ "comments:" +:+ req_param req "id" →
                s' !! key = s !! key).
Proof.
  intros Hauth Hcur. split.
  - intros Hna Hnadm. destruct Hcur as [Hget Htruthy].
    unfold deleteComment. unfold_handler.
    rewrite Hauth, Hget, Htruthy, (member_truthy _ _ Htruthy).
    unfold not_author_nor_admin, is_admin in *.
    apply eq_str_false in Hna, Hnadm. by rewrite Hna, Hnadm.
  - intros Hmay. eexists. split; [by apply deleteComment_accepted with user cur|].
    split.
    + unfold likeComment. unfold_handler. by rewrite lookup_delete_eq.
    + intros key Hkey. by apply lookup_delete_ne.
Qed.

Lemma deleteComment_rule_witness :
  run (deleteComment Demo.rt (Demo.mkreq Demo.as_alice "c1" [] Throw))
    Demo.store
  = (Demo.store, Json (error_body "Forbidden") 403).
Proof.
  destruct (deleteComment_rule Demo.rt (Demo.mkreq Demo.as_alice "c1" [] Throw)
              Demo.store Demo.alice Demo.c1) as [Hforbidden _].
  - by vm_compute.
  - split; by vm_compute.
  - apply Hforbidden; vm_compute; discriminate.
Defined.

(** ** The admin routes *)

Lemma require_admin_run rt req (s : kv.store) :
  require_admin rt req s
  = match verifyAuth rt (req_header req "Authorization") with
    | None => (s, Done (Json (error_body "Unauthorized") 401))
    | Some user =>
        if JS.eq_str (JS.opt_member (s !! ("users:" +:+ user_id user)) "role")
             "admin"
        then (s, Cont ())
        else (s, Done (Json (error_body "Forbidden - admin access only") 403))
    end.
Proof.
  unfold require_admin. unfold_handler.
  destruct (verifyAuth rt _) as [user|]; [|done].
  by destruct (JS.eq_str _ "admin").
Qed.

Lemma admin_route_refused rt req (s : kv.store) (rest : handler response) r :
  require_admin rt req s = (s, Done r) →
  run (hbind (require_admin rt req) (λ _, rest)) s = (s, r).
Proof. intros H. unfold run, hbind. by rewrite H. Qed.

Lemma admin_route_accepted rt req (s : kv.store) (rest : handler response) user :
  verifyAuth rt (req_header req "Authorization") = Some user →
  is_admin s user →
  run (hbind (require_admin rt req) (λ _, rest)) s = run rest s.
Proof.
  intros Hauth Hadmin%eq_str_true. unfold run, hbind.
  by rewrite require_admin_run, Hauth, Hadmin.
Qed.

(** X20: every admin route opens with the same gate and writes nothing
    when it is shut: a request without caller identity gets 401, and a
    caller whose own user record in the store has not the role [admin] gets
    403, from the statistics, the two listings and the change of role
    alike; the store is the one before the request. *)
Theorem admin_routes_gate rt req (s : kv.store) :
  (verifyAuth rt (req_header req "Authorization") = None →
   run (adminStats rt req) s = (s, Json (error_body "Unauthorized") 401)
   ∧ run (adminUsers rt req) s = (s, Json (error_body "Unauthorized") 401)
   ∧ run (adminSetRole rt req) s = (s, Json (error_body "Unauthorized") 401)
   ∧ run (adminAllComments rt req) s
     = (s, Json (error_body "Unauthorized") 401))
  ∧ (∀ user,
       verifyAuth rt (req_header req "Authorization") = Some user →
       ¬ is_admin s user →
       run (adminStats rt req) s
       = (s, Json (error_body "Forbidden - admin access only") 403)
       ∧ run (adminUsers rt req) s
         = (s, Json (error_body "Forbidden - admin access only") 403)
       ∧ run (adminSetRole rt req) s
         = (s, Json (error_body "Forbidden - admin access only") 403)
       ∧ run (adminAllComments rt req) s
         = (s, Json (error_body "Forbidden - admin access only") 403)).
Proof.
  split.
  - intros Hanon.
    assert (require_admin rt req s
            = (s, Done (Json (error_body "Unauthorized") 401))) as Hgate
      by (by rewrite require_admin_run, Hanon).
    repeat split; by apply admin_route_refused.
  - intros user Hauth Hnot%eq_str_false.
    assert (require_admin rt req s
            = (s, Done (Json (error_body "Forbidden - admin access only") 403)))
      as Hgate by (by rewrite require_admin_run, Hauth, Hnot).
    repeat split; by apply admin_route_refused.
Qed.

Lemma admin_routes_gate_witness :
  run (adminUsers Demo.rt (Demo.mkreq Demo.as_alice "" [] Throw)) Demo.store
  = (Demo.store, Json (error_body "Forbidden - admin access only") 403).
Proof.
  destruct (admin_routes_gate Demo.rt (Demo.mkreq Demo.as_alice "" [] Throw)
              Demo.store) as [_ Hforbidden].
  destruct (Hforbidden Demo.alice) as (_ & Husers & _).
  - by vm_compute.
  - unfold is_admin. vm_compute. discriminate.
  - exact Husers.
Defined.

Lemma passes_has_status status p :
  JS.passes (has_status status) p = true
  ↔ JS.member p "status" = Ok (Some (JStr status)).
Proof.
  unfold JS.passes, has_status.
  destruct (JS.member p "status") as [st|]; simpl; [|done].
  rewrite eq_str_true. split; congruence.
Qed.

Lemma filter_disjoint_length {A} (P Q : A → bool) (l : list A) :
  (∀ x, x ∈ l → P x = true → Q x = false) →
  (List.length (List.filter P l) + List.length (List.filter Q l)
   ≤ List.length l)%nat.
Proof.
  induction l as [|x l IH]; intros Hdisj; simpl; [lia|].
  assert (List.length (List.filter P l) + List.length (List.filter Q l)
          ≤ List.length l)%nat as IH'.
  { apply IH. intros y Hy. apply Hdisj. by right. }
  specialize (Hdisj x (list_elem_of_here _ _)).
  destruct (P x), (Q x); simpl; try lia; by specialize (Hdisj eq_refl).
Qed.

Lemma filter_cover_length {A} (P Q : A → bool) (l : list A) :
  (∀ x, x ∈ l → P x = true → Q x = false) →
  (∀ x, x ∈ l → P x = true ∨ Q x = true) →
  (List.length (List.filter P l) + List.length (List.filter Q l)
   = List.length l)%nat.
Proof.
  induction l as [|x l IH]; intros Hdisj Hcover; simpl; [lia|].
  assert (List.length (List.filter P l) + List.length (List.filter Q l)
          = List.length l)%nat as IH'.
  { apply IH; intros y Hy; [apply Hdisj | apply Hcover]; by right. }
  specialize (Hdisj x (list_elem_of_here _ _)).
  specialize (Hcover x (list_elem_of_here _ _)).
  destruct (P x), (Q x); simpl; try lia;
    first [by specialize (Hdisj eq_refl) | by destruct Hcover].
Qed.

(** X21: for an admin, on posts that are not [null], the statistics count
    the posts, users and comments of the store, and among the posts those
    whose status is [published] and those whose status is [draft]; the two
    counts add up to at most the number of posts, and to that number
    exactly when every post has one of the two statuses. *)
Theorem adminStats_counts rt req (s : kv.store) user :
  verifyAuth rt (req_header req "Authorization") = Some user →
  is_admin s user →
  (∀ p, p ∈ kv.getByPrefix "posts:" s → p ≠ JNull) →
  ∃ published drafts : nat,
    run (adminStats rt req) s
    = (s,
       Json (JObj [
         ("totalPosts", JS.length_of (kv.getByPrefix "posts:" s));
         ("totalUsers", JS.length_of (kv.getByPrefix "users:" s));
         ("totalComments", JS.length_of (kv.getByPrefix "comments:" s));
         ("publishedPosts", JNum (Z.of_nat published));
         ("draftPosts", JNum (Z.of_nat drafts))]) 200)
    ∧ (published + drafts ≤ List.length (kv.getByPrefix "posts:" s))%nat
    ∧ ((∀ p, p ∈ kv.getByPrefix "posts:" s →
             status_enumerated (JS.opt_member (Some p) "status")) →
       (published + drafts = List.length (kv.getByPrefix "posts:" s))%nat).
Proof.
  intros Hauth Hadmin Hnn.
  exists (List.length (List.filter (JS.passes (has_status "published"))
                         (kv.getByPrefix "posts:" s))),
    (List.length (List.filter (JS.passes (has_status "draft"))
                    (kv.getByPrefix "posts:" s))).
  split; [|split].
  - unfold adminStats. rewrite (admin_route_accepted _ _ _ _ user) by done.
    unfold_handler.
    assert (∀ status,
              JS.filter (has_status status) (kv.getByPrefix "posts:" s)
              = Ok (List.filter (JS.passes (has_status status))
                      (kv.getByPrefix "posts:" s))) as Hfilter.
    { intros status. apply filter_total. intros p Hp. unfold has_status.
      rewrite member_non_null by auto. by eexists. }
    by rewrite !Hfilter.
  - apply filter_disjoint_length.
    intros p _ Hpub%passes_has_status.
    destruct (JS.passes (has_status "draft") p) eqn:Hd; [|done].
    apply passes_has_status in Hd. congruence.
  - intros Henum. apply filter_cover_length.
    + intros p _ Hpub%passes_has_status.
      destruct (JS.passes (has_status "draft") p) eqn:Hd; [|done].
      apply passes_has_status in Hd. congruence.
    + intros p Hp. rewrite !passes_has_status.
      rewrite !member_non_null by auto.
      destruct (Henum p Hp) as [->| ->]; auto.
Qed.

Lemma adminStats_counts_witness :
  ∃ published drafts : nat,
    (published + drafts
     ≤ List.length (kv.getByPrefix "posts:" Demo.store_with_admin))%nat
    ∧ (run (adminStats Demo.rt (Demo.mkreq Demo.as_bob "" [] Throw))
         Demo.store_with_admin).2
      = Json (JObj [("totalPosts", JNum 2); ("totalUsers", JNum 2);
                    ("totalComments", JNum 1);
                    ("publishedPosts", JNum (Z.of_nat published));
                    ("draftPosts", JNum (Z.of_nat drafts))]) 200.
Proof.
  destruct (adminStats_counts Demo.rt (Demo.mkreq Demo.as_bob "" [] Throw)
              Demo.store_with_admin Demo.bob)
    as (published & drafts & Hrun & Hle & _).
  - by vm_compute.
  - by vm_compute.
  - intros p (key & Hget & _)%elem_of_getByPrefix ->.
    revert Hget. unfold Demo.store_with_admin, Demo.store.
    rewrite !lookup_insert, lookup_empty.
    repeat case_decide; discriminate.
  - exists published, drafts. split; [exact Hle|].
    rewrite Hrun. by vm_compute.
Defined.

Example adminStats_demo :
  (run (adminStats Demo.rt (Demo.mkreq Demo.as_bob "" [] Throw))
     Demo.store_with_admin).2
  = Json (JObj [("totalPosts", JNum 2); ("totalUsers", JNum 2);
                ("totalComments", JNum 1); ("publishedPosts", JNum 1);
                ("draftPosts", JNum 1)]) 200.
Proof. by vm_compute. Qed.

Lemma lookup_remove_eq k (fs : list (string * json)) :
  JS.lookup k (JS.remove k fs) = None.
Proof.
  apply lookup_None_not_elem. unfold JS.remove.
  intros ([k' v] & -> & [_ Hk]%list_elem_of_In%List.filter_In)%list_elem_of_fmap.
  simpl in Hk. by rewrite bool_decide_eq_true_2 in Hk.
Qed.

Lemma lookup_remove_ne k k' (fs : list (string * json)) :
  k ≠ k' → JS.lookup k' (JS.remove k fs) = JS.lookup k' fs.
Proof.
  intros Hne. unfold JS.remove.
  induction fs as [|[k1 v1] fs IH]; simpl; [done|].
  case_bool_decide; subst; simpl.
  - rewrite IH. destruct (JS.lookup k' fs); [done|].
    by rewrite bool_decide_eq_false_2.
  - by rewrite IH.
Qed.

(** X22: the change of role by an admin, with a JSON body that is not
    [null], writes the [role] of the body on the target's record and touches
    nothing else: the other properties of the record and the other keys of
    the store keep their value. With the role [admin] the target passes the
    admin check from then on; with a body without [role] the record is left
    without a role; for a target without a record the answer is 404 and
    nothing is written. With the body [null] the reading of [role] throws
    before the target is looked up: the answer is 500 and nothing is
    written, whether the target has a record or not. *)
Theorem adminSetRole_result rt req (s : kv.store) user body :
  verifyAuth rt (req_header req "Authorization") = Some user →
  is_admin s user →
  req_json req = Ok body →
  (body = JNull → run (adminSetRole rt req) s = (s, InternalError))
  ∧ (body ≠ JNull →
     ∀ fs,
     s !! ("users:" +:+ req_param req "id") = Some (JObj fs) →
     ∃ record s',
       run (adminSetRole rt req) s = (s', Json record 200)
       ∧ s' !! ("users:" +:+ req_param req "id") = Some record
       ∧ JS.opt_member (Some record) "role" = JS.opt_member (Some body) "role"
       ∧ (∀ k, k ≠ "role" → JS.opt_member (Some record) k = JS.lookup k fs)
       ∧ (∀ key, key ≠ "users:" +:+ req_param req "id" →
                 s' !! key = s !! key)
       ∧ (JS.opt_member (Some body) "role" = Some (JStr "admin") →
          ∀ target, user_id target = req_param req "id" → is_admin s' target))
  ∧ (body ≠ JNull →
     s !! ("users:" +:+ req_param req "id") = None →
     run (adminSetRole rt req) s
     = (s, Json (error_body "User not found") 404)).
Proof.
  intros Hauth Hadmin Hbody. unfold adminSetRole.
  rewrite (admin_route_accepted _ _ _ _ user) by done.
  unfold_handler. rewrite Hbody. split; [by intros ->|].
  split; intros Hnn; rewrite member_non_null by done.
  - intros fs Hget. rewrite Hget. simpl JS.truthy. cbv iota.
    destruct (JS.opt_member (Some body) "role") as [role|] eqn:Hrole.
    + exists (JObj (JS.set "role" role fs)),
        (<["users:" +:+ req_param req "id" := JObj (JS.set "role" role fs)]> s).
      split; [done|]. split; [apply lookup_insert_eq|].
      split; [apply lookup_set_eq|].
      split; [intros k Hk; by apply lookup_set_ne|].
      split; [intros key Hkey; by apply lookup_insert_ne|].
      intros [= ->] target Htarget. unfold is_admin.
      rewrite Htarget, lookup_insert_eq. apply lookup_set_eq.
    + exists (JObj (JS.remove "role" fs)),
        (<["users:" +:+ req_param req "id" := JObj (JS.remove "role" fs)]> s).
      split; [done|]. split; [apply lookup_insert_eq|].
      split; [apply lookup_remove_eq|].
      split; [intros k Hk; by apply lookup_remove_ne|].
      split; [intros key Hkey; by apply lookup_insert_ne | done].
  - intros Hnone. by rewrite Hnone.
Qed.

Lemma adminSetRole_result_witness :
  ∃ record s',
    run (adminSetRole Demo.rt
           (Demo.mkreq Demo.as_bob "u-alice" []
              (Ok (JObj [("role", JStr "admin")])))) Demo.store_with_admin
    = (s', Json record 200)
    ∧ JS.opt_member (Some record) "role" = Some (JStr "admin")
    ∧ is_admin s' Demo.alice.
Proof.
  destruct (adminSetRole_result Demo.rt
              (Demo.mkreq Demo.as_bob "u-alice" []
                 (Ok (JObj [("role", JStr "admin")])))
              Demo.store_with_admin Demo.bob (JObj [("role", JStr "admin")]))
    as (_ & Hset & _).
  - by vm_compute.
  - by vm_compute.
  - done.
  - destruct (Hset ltac:(discriminate)
                (Demo.user_fields Demo.alice "alice" "user"))
      as (record & s' & Hrun & _ & Hrole & _ & _ & Hadmin); [by vm_compute|].
    exists record, s'. split; [exact Hrun|]. split; [exact Hrole|].
    by apply Hadmin.
Defined.

(** X23: Update User and the admin gate compose into an escalation: a
    caller without the role [admin], refused by the admin routes, sends
    [{role: "admin"}] to Update User on the caller's own id, and the admin
    routes accept the caller afterwards: the listing of users answers with
    all user records, and the caller can change the role of another
    user. *)
Theorem self_promotion_opens_admin_routes rt req req_admin (s : kv.store)
    user fs :
  verifyAuth rt (req_header req "Authorization") = Some user →
  verifyAuth rt (req_header req_admin "Authorization") = Some user →
  req_param req "id" = user_id user →
  s !! ("users:" +:+ user_id user) = Some (JObj fs) →
  ¬ is_admin s user →
  req_json req = Ok (JObj [("role", JStr "admin")]) →
  run (adminUsers rt req_admin) s
  = (s, Json (error_body "Forbidden - admin access only") 403)
  ∧ ∃ s',
      (run (updateUser rt req) s).1 = s'
      ∧ run (adminUsers rt req_admin) s'
        = (s', Json (JArr (kv.getByPrefix "users:" s')) 200)
      ∧ ∀ target_fs,
          req_json req_admin = Ok (JObj [("role", JStr "user")]) →
          s' !! ("users:" +:+ req_param req_admin "id")
          = Some (JObj target_fs) →
          ∃ record s'',
            run (adminSetRole rt req_admin) s' = (s'', Json record 200)
            ∧ s'' !! ("users:" +:+ req_param req_admin "id") = Some record
            ∧ JS.opt_member (Some record) "role" = Some (JStr "user").
Proof.
  intros Hauth Hauth' Hid Hget Hnot Hbody. split.
  { unfold adminUsers. apply admin_route_refused.
    apply eq_str_false in Hnot. by rewrite require_admin_run, Hauth', Hnot. }
  rewrite (updateUser_accepted rt req s user (JObj fs)
             (JObj [("role", JStr "admin")])) by done.
  eexists. split; [reflexivity|]. cbn [fst].
  assert (is_admin
            (<["users:" +:+ user_id user :=
                 updatedUser (user_id user) (JObj fs)
                   (JObj [("role", JStr "admin")])]> s) user) as Hadmin.
  { unfold is_admin. rewrite lookup_insert_eq. by rewrite updatedUser_field. }
  split.
  - unfold adminUsers. by rewrite (admin_route_accepted _ _ _ _ user).
  - intros target_fs Hbody' Htarget. unfold adminSetRole.
    rewrite (admin_route_accepted _ _ _ _ user) by done.
    unfold_handler. rewrite Hbody'. simpl JS.member. cbv iota beta.
    rewrite Htarget. simpl.
    eexists _, _. split; [reflexivity|].
    split; [apply lookup_insert_eq | apply lookup_set_eq].
Qed.

Lemma self_promotion_opens_admin_routes_witness :
  run (adminUsers Demo.rt (Demo.mkreq Demo.as_bob "u-alice" []
                             (Ok (JObj [("role", JStr "user")])))) Demo.store
  = (Demo.store, Json (error_body "Forbidden - admin access only") 403)
  ∧ ∃ s',
      (run (updateUser Demo.rt
              (Demo.mkreq Demo.as_bob "u-bob" []
                 (Ok (JObj [("role", JStr "admin")])))) Demo.store).1 = s'
      ∧ run (adminUsers Demo.rt
               (Demo.mkreq Demo.as_bob "u-alice" []
                  (Ok (JObj [("role", JStr "user")])))) s'
        = (s', Json (JArr (kv.getByPrefix "users:" s')) 200).
Proof.
  destruct (self_promotion_opens_admin_routes Demo.rt
              (Demo.mkreq Demo.as_bob "u-bob" []
                 (Ok (JObj [("role", JStr "admin")])))
              (Demo.mkreq Demo.as_bob "u-alice" []
                 (Ok (JObj [("role", JStr "user")])))
              Demo.store Demo.bob (Demo.user_fields Demo.bob "bob" "user"))
    as [Hbefore (s' & Hrun & Hafter & _)].
  - by vm_compute.
  - by vm_compute.
  - done.
  - by vm_compute.
  - unfold is_admin. vm_compute. discriminate.
  - done.
  - split; [exact Hbefore|]. exists s'. split; [exact Hrun | exact Hafter].
Defined.

(** ** Categories and tags: a set, sorted *)










(** ** The front end against the server *)

Lemma split_without_separator sep (t : string) :
  all_chars (λ c, negb (bool_decide (c = sep))) t = true →
  JS.split sep t = [t].
Proof.
  induction t as [|c t IH]; simpl; [done|].
  intros [Hc Ht]%andb_true_iff. apply negb_true_iff in Hc. rewrite Hc.
  by rewrite IH.
Qed.

Lemma verifyAuth_bearer_token rt (t : string) :
  all_chars (λ c, negb (bool_decide (c = " "%char))) t = true →
  verifyAuth rt (Some ("Bearer " +:+ t)) = auth_getUser rt (Some t).
Proof.
  intros Ht. unfold verifyAuth.
  change ("Bearer " +:+ t)
    with (String "B" (String "e" (String "a" (String "r" (String "e"
            (String "r" (String " " t))))))).
  rewrite bool_decide_eq_false_2 by discriminate.
  cbn [JS.split]. eval_key_tests.
  by rewrite (split_without_separator _ _ Ht).
Qed.

(** X25: the header that [apiCall] builds and [verifyAuth] takes apart fit
    together: for a stored access token without a space, the identity
    provider is asked about exactly that token, and without a stored token
    (none, or the empty string) about the public anonymous key. *)
Theorem client_token_reaches_provider rt (publicAnonKey : string)
    (token : option string) :
  all_chars (λ c, negb (bool_decide (c = " "%char))) publicAnonKey = true →
  (∀ t, token = Some t →
        all_chars (λ c, negb (bool_decide (c = " "%char))) t = true) →
  verifyAuth rt (Some (Client.authorization publicAnonKey token))
  = auth_getUser rt
      (Some (match token with
             | Some t => if bool_decide (t = "") then publicAnonKey else t
             | None => publicAnonKey
             end)).
Proof.
  intros Hanon Htoken. unfold Client.authorization.
  destruct token as [t|]; [|by apply verifyAuth_bearer_token].
  case_bool_decide; apply verifyAuth_bearer_token; auto.
Qed.

Lemma client_token_reaches_provider_witness :
  verifyAuth Demo.rt
    (Some (Client.authorization "public-anon-key" (Some "tok-alice")))
  = Some Demo.alice.
Proof.
  rewrite (client_token_reaches_provider Demo.rt "public-anon-key"
             (Some "tok-alice")).
  - by vm_compute.
  - by vm_compute.
  - intros t [= <-]. by vm_compute.
Defined.

(** X26: the post page shows the edit and delete buttons exactly to the
    callers whose Update Post and Delete Post the server accepts: with the
    caller's stored user record (which carries the caller's id) and a
    stored post, [canEdit] holds if and only if the caller is the author of
    the post or an admin. *)
Theorem canEdit_matches_server (s : kv.store) user record post :
  s !! ("users:" +:+ user_id user) = Some record →
  JS.opt_member (Some record) "id" = Some (JStr (user_id user)) →
  JS.truthy (Some post) = true →
  Client.canEdit (Some record) (Some post) = true
  ↔ is_author user post ∨ is_admin s user.
Proof.
  intros Hget Hid Hpost. unfold Client.canEdit, is_author, is_admin.
  rewrite Hget, Hid, Hpost.
  assert (JS.truthy (Some record) = true) as -> by (by destruct record).
  simpl andb. rewrite orb_true_iff, eq_str_true.
  assert (JS.strict_eq (Some (JStr (user_id user)))
            (JS.opt_member (Some post) "authorId") = true
          ↔ JS.opt_member (Some post) "authorId"
            = Some (JStr (user_id user))) as ->; [|done].
  destruct (JS.opt_member (Some post) "authorId") as [[| | |a| |]|]; simpl;
    try (split; [done | by intros [=]]).
  rewrite bool_decide_eq_true. split; congruence.
Qed.

Lemma canEdit_matches_server_witness :
  Client.canEdit (Some (Demo.user_record Demo.bob "bob" "user"))
    (Some Demo.p1) = true
  ↔ is_author Demo.bob Demo.p1 ∨ is_admin Demo.store Demo.bob.
Proof.
  apply (canEdit_matches_server Demo.store Demo.bob
           (Demo.user_record Demo.bob "bob" "user") Demo.p1);
    by vm_compute.
Defined.

Lemma passes_myPosts user p :
  user ≠ JNull →
  JS.passes (λ p,
    let? name := JS.member p "authorName" in
    let? username := JS.member user "username" in
    Ok (Some (JBool (JS.strict_eq name username))))%result p = true
  ↔ p ≠ JNull
    ∧ JS.strict_eq (JS.opt_member (Some p) "authorName")
        (JS.opt_member (Some user) "username") = true.
Proof.
  intros Hu. unfold JS.passes. destruct p; simpl;
    try (split; [done | by intros [? _]]);
    rewrite (member_non_null user) by done; simpl;
    (split; [by intros -> | by intros [_ ->]]).
Qed.

(** X27: the profile page selects the posts by the author's name, not by
    the author's id. After an accepted Update User that changes the
    username, a post written under the old name is no longer among the
    posts that the page shows for the updated record, although its
    [authorId] is the user's; and a post of anybody that carries the new
    name is among them. *)
Theorem profile_posts_follow_the_name rt req (s : kv.store) user fs old new :
  verifyAuth rt (req_header req "Authorization") = Some user →
  req_param req "id" = user_id user →
  s !! ("users:" +:+ user_id user) = Some (JObj fs) →
  req_json req = Ok (JObj [("username", JStr new)]) →
  new ≠ old →
  ∃ record s',
    run (updateUser rt req) s = (s', Json record 200)
    ∧ ∀ posts mine,
        Client.myPosts record posts = Ok mine →
        (∀ post_fs,
           JS.lookup "authorId" post_fs = Some (JStr (user_id user)) →
           JS.lookup "authorName" post_fs = Some (JStr old) →
           JObj post_fs ∉ mine)
        ∧ (∀ post_fs,
             JObj post_fs ∈ posts →
             JS.lookup "authorName" post_fs = Some (JStr new) →
             JObj post_fs ∈ mine).
Proof.
  intros Hauth Hid Hget Hbody Hne.
  eexists _, _. split; [by apply updateUser_accepted|].
  intros posts mine Hmine.
  assert (JS.opt_member
            (Some (updatedUser (user_id user) (JObj fs)
                     (JObj [("username", JStr new)]))) "username"
          = Some (JStr new)) as Hname by (by rewrite updatedUser_field).
  split.
  - intros post_fs _ Hold Hin.
    apply (filter_elem _ _ _ _ Hmine) in Hin as [_ Hpass].
    apply passes_myPosts in Hpass as [_ Hpass]; [|done].
    rewrite Hname in Hpass. simpl in Hpass. rewrite Hold in Hpass.
    simpl in Hpass. apply bool_decide_eq_true in Hpass. congruence.
  - intros post_fs Hin Hnew. apply (filter_elem _ _ _ _ Hmine).
    split; [done|]. apply passes_myPosts; [done|]. split; [done|].
    rewrite Hname. simpl. rewrite Hnew. simpl. by apply bool_decide_eq_true.
Qed.

Lemma profile_posts_follow_the_name_witness :
  ∃ record s',
    run (updateUser Demo.rt
           (Demo.mkreq Demo.as_alice "u-alice" []
              (Ok (JObj [("username", JStr "al")])))) Demo.store
    = (s', Json record 200)
    ∧ ∀ mine,
        Client.myPosts record [Demo.p1; Demo.p2] = Ok mine →
        Demo.p1 ∉ mine.
Proof.
  destruct (profile_posts_follow_the_name Demo.rt
              (Demo.mkreq Demo.as_alice "u-alice" []
                 (Ok (JObj [("username", JStr "al")])))
              Demo.store Demo.alice
              (Demo.user_fields Demo.alice "alice" "user") "u-alice" "al")
    as (record & s' & Hrun & Hmine).
  - by vm_compute.
  - done.
  - by vm_compute.
  - done.
  - discriminate.
  - exists record, s'. split; [exact Hrun|]. intros mine Hm.
    destruct (Hmine [Demo.p1; Demo.p2] mine Hm) as [Hold _].
    apply (Hold Demo.p1_fields); by vm_compute.
Defined.

Lemma passes_topLevel c :
  JS.passes (λ c,
    let? parent := JS.member c "parentId" in
    Ok (Some (JBool (negb (JS.truthy parent)))))%result c = true
  → JS.truthy (JS.opt_member (Some c) "parentId") = false.
Proof.
  unfold JS.passes. destruct c; simpl; try done.
  by intros ->%negb_true_iff.
Qed.

Lemma passes_getReplies commentId c :
  JS.passes (λ c,
    let? parent := JS.member c "parentId" in
    Ok (Some (JBool (JS.eq_str parent commentId))))%result c = true
  → JS.opt_member (Some c) "parentId" = Some (JStr commentId).
Proof.
  unfold JS.passes. destruct c; simpl; try done.
  by intros ?%eq_str_true.
Qed.

(** X28: Delete Comment removes one comment and leaves its replies
    behind. When every comment is stored under its own id, a reply to the
    deleted comment is still returned by List Comments for its post, but in
    the comment section it is neither a top-level comment nor a reply to
    any comment of the list, so that no thread shows it. *)
Theorem deleted_comment_orphans_replies rt req req_list (s : kv.store)
    user parent rid rfs :
  verifyAuth rt (req_header req "Authorization") = Some user →
  exists_at s ("comments:" +:+ req_param req "id") parent →
  JS.opt_member (Some parent) "userId" = Some (JStr (user_id user))
  ∨ is_admin s user →
  (∀ k c, s !! ("comments:" +:+ k) = Some c →
          JS.opt_member (Some c) "id" = Some (JStr k)) →
  s !! ("comments:" +:+ rid) = Some (JObj rfs) →
  rid ≠ req_param req "id" →
  req_param req "id" ≠ "" →
  JS.lookup "parentId" rfs = Some (JStr (req_param req "id")) →
  JS.lookup "postId" rfs = Some (JStr (req_param req_list "postId")) →
  ∃ s',
    run (deleteComment rt req) s
    = (s', Json (message_body "Comment deleted successfully") 200)
    ∧ ∀ s'' cs st,
        run (listComments rt req_list) s' = (s'', Json (JArr cs) st) →
        JObj rfs ∈ cs
        ∧ (∀ top, Client.topLevelComments cs = Ok top → JObj rfs ∉ top)
        ∧ (∀ c cid replies,
             c ∈ cs →
             JS.opt_member (Some c) "id" = Some (JStr cid) →
             Client.getReplies cs cid = Ok replies →
             JObj rfs ∉ replies).
Proof.
  intros Hauth Hparent Hmay Hids Hreply Hrid Hne Hpar Hpost.
  eexists. split; [by apply deleteComment_accepted with user parent|].
  intros s'' cs st. rewrite listComments_run.
  destruct (JS.filter _ _) as [fs|] eqn:Hfs; cbn [result_bind]; [|done].
  destruct (JS.sort (oldest_first rt) fs) as [cs'|] eqn:Hcs; [|done].
  intros Heq. assert (cs = cs') as -> by congruence. clear Heq.
  pose proof (sort_Permutation _ _ _ Hcs) as Hperm.
  split; [|split].
  - rewrite Hperm. apply (filter_elem _ _ _ _ Hfs). split.
    + apply elem_of_getByPrefix. exists ("comments:" +:+ rid).
      split; [|apply prefix_spec; by exists rid].
      rewrite lookup_delete_ne; [done|]. by intros ?%(inj _).
    + apply passes_on_post. simpl. by rewrite Hpost.
  - intros top Htop Hin.
    apply (filter_elem _ _ _ _ Htop) in Hin as [_ Hpass%passes_topLevel].
    simpl in Hpass. rewrite Hpar in Hpass. simpl in Hpass.
    by rewrite bool_decide_eq_false_2 in Hpass.
  - intros c cid replies Hc Hcid Hreplies Hin.
    apply (filter_elem _ _ _ _ Hreplies) in Hin
      as [_ Hpass%passes_getReplies].
    simpl in Hpass. rewrite Hpar in Hpass. injection Hpass as <-.
    rewrite Hperm in Hc. apply (filter_elem _ _ _ _ Hfs) in Hc as [Hc _].
    apply elem_of_getByPrefix in Hc as (key & Hget & [k ->]%prefix_spec).
    destruct (decide (k = req_param req "id")) as [->|Hk].
    + by rewrite lookup_delete_eq in Hget.
    + rewrite lookup_delete_ne in Hget by (by intros ?%(inj _)).
      specialize (Hids k c Hget). congruence.
Qed.

Lemma deleted_comment_orphans_replies_witness :
  ∃ s',
    run (deleteComment Demo.rt (Demo.mkreq Demo.as_bob "c1" [] Throw))
      (<["comments:c2" :=
           JObj [("id", JStr "c2"); ("postId", JStr "p1");
                 ("userId", JStr "u-alice"); ("content", JStr "re");
                 ("parentId", JStr "c1"); ("likes", JNum 0);
                 ("createdAt", JNum 400)]]> Demo.store)
    = (s', Json (message_body "Comment deleted successfully") 200).
Proof.
  destruct (deleted_comment_orphans_replies Demo.rt
              (Demo.mkreq Demo.as_bob "c1" [] Throw)
              (Demo.mkreq None "p1" [] Throw)
              (<["comments:c2" :=
                   JObj [("id", JStr "c2"); ("postId", JStr "p1");
                         ("userId", JStr "u-alice"); ("content", JStr "re");
                         ("parentId", JStr "c1"); ("likes", JNum 0);
                         ("createdAt", JNum 400)]]> Demo.store)
              Demo.bob Demo.c1 "c2"
              [("id", JStr "c2"); ("postId", JStr "p1");
               ("userId", JStr "u-alice"); ("content", JStr "re");
               ("parentId", JStr "c1"); ("likes", JNum 0);
               ("createdAt", JNum 400)])
    as (s' & Hrun & _).
  - by vm_compute.
  - split; by vm_compute.
  - left. by vm_compute.
  - intros k c. unfold Demo.store.
    rewrite !lookup_insert, lookup_empty.
    repeat case_decide;
      try match goal with
          | H : _ = "comments:" +:+ _ |- _ =>
              cbv [String.append] in H; simplify_eq
          end;
      try done; by intros [= <-].
  - apply lookup_insert_eq.
  - discriminate.
  - discriminate.
  - done.
  - done.
  - exists s'. exact Hrun.
Defined.
